(** * Phusion Passenger, Apache module: [ext/apache2/Hooks.cpp]

    A shallow embedding of the request hooks of mod_passenger
    ([DirectoryMapper], [Hooks::handleRequest], [Hooks::mapToStorage],
    [Hooks::sendHeaders] and their helpers) together with the properties
    of the directory resolver, the request dispatcher and the header
    payload that the specification states about them.

    Conventions.
    - A [const char *] is a [cstr]: [None] is the NULL pointer, [Some s]
      points at the bytes [s], the terminating NUL left implicit (so [s]
      itself holds no NUL byte; see [nul_free]).
    - A [std::string] is a [string]; it may hold NUL bytes, and [c_str]
      gives what a C function sees of it.
    - Code that can throw, or that dereferences a pointer that may be
      NULL, lives in the monad [M]: a state monad over the request, the
      local [DirectoryMapper], the unread request body and the trace of
      calls made to the host, the pool, the session and the filesystem. *)

From Stdlib Require Import String Ascii List ZArith NArith Bool Lia.
From Stdlib Require Import DecimalString.
Import ListNotations.

Local Open Scope list_scope.

Infix "+++" := String.append (at level 60, right associativity).

(** ** C strings *)

Module CString.

Definition cstr := option string.

Definition NUL : ascii := Ascii.zero.

Fixpoint nul_free (s : string) : bool :=
  match s with
  | EmptyString => true
  | String c s' => negb (Ascii.eqb c NUL) && nul_free s'
  end.

(** [std::string::c_str()] as read by a C function: the bytes before the
    first NUL. *)
Fixpoint c_str (s : string) : string :=
  match s with
  | EmptyString => EmptyString
  | String c s' => if Ascii.eqb c NUL then EmptyString else String c (c_str s')
  end.

Definition strlen (s : string) : nat := String.length s.

(** [s[i]] for [i <= strlen s]; the byte at [strlen s] is the terminator. *)
Definition char_at (s : string) (i : nat) : ascii :=
  match String.get i s with
  | Some c => c
  | None => NUL
  end.

Fixpoint last_char (s : string) : option ascii :=
  match s with
  | EmptyString => None
  | String c EmptyString => Some c
  | String _ s' => last_char s'
  end.

Fixpoint take (n : nat) (s : string) : string :=
  match n, s with
  | S n', String c s' => String c (take n' s')
  | _, _ => EmptyString
  end.

Fixpoint drop (n : nat) (s : string) : string :=
  match n, s with
  | S n', String _ s' => drop n' s'
  | _, _ => s
  end.

(** [memcmp(a, b, n)], for [n] no larger than the two buffers (terminator
    included): the sign of the first differing byte pair. *)
Fixpoint memcmp (a b : string) (n : nat) : Z :=
  match n with
  | O => 0%Z
  | S n' =>
      let ca := char_at a 0 in
      let cb := char_at b 0 in
      if Ascii.eqb ca cb then memcmp (drop 1 a) (drop 1 b) n'
      else if (nat_of_ascii ca <? nat_of_ascii cb)%nat then (-1)%Z else 1%Z
  end.

Definition strcmp_eq (a b : string) : bool := String.eqb a b.

Definition is_upper (c : ascii) : bool :=
  ((65 <=? nat_of_ascii c) && (nat_of_ascii c <=? 90))%nat.

Definition is_lower (c : ascii) : bool :=
  ((97 <=? nat_of_ascii c) && (nat_of_ascii c <=? 122))%nat.

Definition apr_toupper (c : ascii) : ascii :=
  if is_lower c then ascii_of_nat (nat_of_ascii c - 32) else c.

Definition apr_tolower (c : ascii) : ascii :=
  if is_upper c then ascii_of_nat (nat_of_ascii c + 32) else c.

Definition apr_isspace (c : ascii) : bool :=
  let n := nat_of_ascii c in
  ((n =? 32) || ((9 <=? n) && (n <=? 13)))%nat.

Definition is_digit (c : ascii) : bool :=
  ((48 <=? nat_of_ascii c) && (nat_of_ascii c <=? 57))%nat.

Fixpoint map_chars (f : ascii -> ascii) (s : string) : string :=
  match s with
  | EmptyString => EmptyString
  | String c s' => String (f c) (map_chars f s')
  end.

(** [strcasecmp(a, b) == 0]. *)
Definition strcasecmp_eq (a b : string) : bool :=
  String.eqb (map_chars apr_tolower a) (map_chars apr_tolower b).

Fixpoint skip_while (p : ascii -> bool) (s : string) : string :=
  match s with
  | EmptyString => EmptyString
  | String c s' => if p c then skip_while p s' else s
  end.

Fixpoint take_while (p : ascii -> bool) (s : string) : string :=
  match s with
  | EmptyString => EmptyString
  | String c s' => if p c then String c (take_while p s') else EmptyString
  end.

Fixpoint digits_value (acc : Z) (s : string) : Z :=
  match s with
  | EmptyString => acc
  | String c s' =>
      if is_digit c
      then digits_value (10 * acc + Z.of_nat (nat_of_ascii c - 48)) s'
      else acc
  end.

Definition LONG_MAX : Z := 9223372036854775807.
Definition LONG_MIN : Z := -9223372036854775808.

(** [atol]: leading white space, an optional sign, then decimal digits;
    out of range values saturate, as [strtol] does (LP64). *)
Definition atol (s : string) : Z :=
  let s1 := skip_while apr_isspace s in
  let v :=
    match s1 with
    | String "-" s2 => (- digits_value 0 s2)%Z
    | String "+" s2 => digits_value 0 s2
    | _ => digits_value 0 s1
    end in
  Z.max LONG_MIN (Z.min LONG_MAX v).

(** [apr_psprintf(p, "%u", n)] and ["%d"] on a port number. *)
Definition decimal (n : N) : string := NilEmpty.string_of_uint (N.to_uint n).

End CString.
Import CString.

(** ** APR tables *)

Module Apr.

(** An [apr_table_t]: its entries in insertion order.  Keys and values
    are pointers and either may be NULL. *)
Definition apr_table := list (cstr * cstr).

Definition apr_table_addn (t : apr_table) (key val : string) : apr_table :=
  t ++ [(Some key, Some val)].

End Apr.
Import Apr.

(** ** Serialising the header table ([Hooks::sendHeaders], lines 462-499) *)

Definition sentinel : string :=
  String "_" (String NUL (String "_" (String NUL EmptyString))).

(** The loop over [hdrs_arr]: [buffer.append] of a NULL pointer is not
    defined, hence the [option]. *)
Fixpoint append_headers (buffer : string) (hdrs : apr_table) : option string :=
  match hdrs with
  | [] => Some buffer
  | (Some key, Some val) :: rest =>
      append_headers
        (buffer +++ key +++ String NUL EmptyString
                +++ val +++ String NUL EmptyString) rest
  | _ :: _ => None
  end.

Definition header_buffer (hdrs : apr_table) : option string :=
  match append_headers EmptyString hdrs with
  | Some buffer => Some (buffer +++ sentinel)
  | None => None
  end.

(** ** The reference splitter

    The splitter on NUL of the specification, as the comment of lines
    475-498 describes the one of the worker (Ruby's [data.split("\0")]):
    the fields between separators, trailing empty fields removed; the
    fields are then taken two by two. *)

Module Reference.

Fixpoint fields (sep : ascii) (s : string) : list string :=
  match s with
  | EmptyString => [EmptyString]
  | String c s' =>
      if Ascii.eqb c sep then EmptyString :: fields sep s'
      else match fields sep s' with
           | f :: fs => String c f :: fs
           | [] => [String c EmptyString]
           end
  end.

Fixpoint drop_trailing_empty (l : list string) : list string :=
  match l with
  | [] => []
  | f :: fs =>
      match drop_trailing_empty fs with
      | [] => match f with EmptyString => [] | _ => [f] end
      | fs' => f :: fs'
      end
  end.

Definition split (sep : ascii) (s : string) : list string :=
  drop_trailing_empty (fields sep s).

Fixpoint pairs (l : list string) : list (string * string) :=
  match l with
  | k :: v :: rest => (k, v) :: pairs rest
  | _ => []
  end.

End Reference.

Definition table_of_pairs (hs : list (string * string)) : apr_table :=
  map (fun p => (Some (fst p), Some (snd p))) hs.

Definition pair_nul_free (p : string * string) : Prop :=
  nul_free (fst p) = true /\ nul_free (snd p) = true.

(** ** Exceptions and outcomes *)

(** The exception classes the hooks distinguish ([Exceptions.h] is not
    part of the sources at hand; the classes are as the hooks use them).
    [FileSystemException] derives from [SystemException] and carries
    [what()], [code()] and [filename()]; a [SpawnException] carries an
    error page when [hasErrorPage()]; [std_exception] is any other class
    derived from [std::exception], [foreign_exception] anything that only
    [catch (...)] catches. *)
Inductive exn :=
| FileSystemException (what : string) (code : Z) (file : string)
| SystemException (what : string) (code : Z)
| IOException (what : string)
| SpawnException (what : string) (errorPage : option string)
| BusyException (what : string)
| thread_interrupted
| std_exception (what : string)
| foreign_exception.

Inductive outcome (A : Type) :=
| Ret (a : A)
| Throw (e : exn)
| Undefined.

Arguments Ret {A} a.
Arguments Throw {A} e.
Arguments Undefined {A}.

(** What a filesystem helper of [Utils.h] answers: a value, or the
    [FileSystemException] it throws. *)
Inductive fs_result (A : Type) :=
| Found (a : A)
| Failed (what : string) (code : Z) (file : string).

Arguments Found {A} a.
Arguments Failed {A} what code file.

(** What the pool, the session or the temporary file answers: a value,
    or the exception thrown. *)
Inductive result (A : Type) :=
| Ok (a : A)
| Raise (e : exn).

Arguments Ok {A} a.
Arguments Raise {A} e.

Definition of_fs {A} (x : fs_result A) : outcome A :=
  match x with
  | Found a => Ret a
  | Failed what code file => Throw (FileSystemException what code file)
  end.

Definition of_result {A} (x : result A) : outcome A :=
  match x with
  | Ok a => Ret a
  | Raise e => Throw e
  end.

(** ** Configuration ([Configuration.h]) and the request record

    [Configuration.h] and the Apache headers are not part of the sources
    at hand: the records hold the fields that [Hooks.cpp] reads, with the
    enumeration values it names. *)

Inductive Threeway := ENABLED | DISABLED | UNSET.

Inductive SpawnMethodSetting := SM_UNSET | SM_SMART | SM_CONSERVATIVE.

Definition Threeway_eqb (a b : Threeway) : bool :=
  match a, b with
  | ENABLED, ENABLED | DISABLED, DISABLED | UNSET, UNSET => true
  | _, _ => false
  end.

(** [railsBaseURIs] and [rackBaseURIs] are [std::set<string>]: the lists
    hold their elements in iteration order. *)
Record DirConfig := {
  railsBaseURIs : list string;
  rackBaseURIs : list string;
  autoDetectRails : Threeway;
  autoDetectRack : Threeway;
  autoDetectWSGI : Threeway;
  allowModRewrite : Threeway;
  railsEnv : cstr;
  rackEnv : cstr;
  spawnMethod : SpawnMethodSetting
}.

Record ServerConfig := {
  defaultUser : cstr
}.

(** The fields of [request_rec] (and of the [server_rec] and [conn_rec]
    it points to) that the hooks read or write.  [uri] is never NULL when
    Apache runs a hook; the other strings may be. *)
Record request_rec := {
  the_request : cstr;
  protocol : cstr;
  method : cstr;
  method_number : Z;
  uri : string;
  filename : cstr;
  canonical_filename : cstr;
  args : cstr;
  user : cstr;
  parsed_uri_path : cstr;
  headers_in : apr_table;
  subprocess_env : apr_table;
  server_admin : cstr;
  server_timeout : Z;
  local_ip : cstr;
  remote_ip : cstr;
  remote_port : N;
  per_dir_config : DirConfig;
  server_module_config : ServerConfig
}.

Definition set_filename (r : request_rec) (f : cstr) : request_rec :=
  {| the_request := the_request r; protocol := protocol r;
     method := method r; method_number := method_number r;
     uri := uri r; filename := f;
     canonical_filename := canonical_filename r;
     args := args r; user := user r;
     parsed_uri_path := parsed_uri_path r;
     headers_in := headers_in r; subprocess_env := subprocess_env r;
     server_admin := server_admin r; server_timeout := server_timeout r;
     local_ip := local_ip r; remote_ip := remote_ip r;
     remote_port := remote_port r;
     per_dir_config := per_dir_config r;
     server_module_config := server_module_config r |}.

Definition set_canonical_filename (r : request_rec) (f : cstr) : request_rec :=
  {| the_request := the_request r; protocol := protocol r;
     method := method r; method_number := method_number r;
     uri := uri r; filename := filename r;
     canonical_filename := f;
     args := args r; user := user r;
     parsed_uri_path := parsed_uri_path r;
     headers_in := headers_in r; subprocess_env := subprocess_env r;
     server_admin := server_admin r; server_timeout := server_timeout r;
     local_ip := local_ip r; remote_ip := remote_ip r;
     remote_port := remote_port r;
     per_dir_config := per_dir_config r;
     server_module_config := server_module_config r |}.

(** Status codes of [httpd.h] and [errno.h]. *)
Definition OK : Z := 0.
Definition DECLINED : Z := -1.
Definition HTTP_INTERNAL_SERVER_ERROR : Z := 500.
Definition HTTP_SERVICE_UNAVAILABLE : Z := 503.
Definition M_GET : Z := 0.
Definition EPERM : Z := 1.
Definition APR_SUCCESS : Z := 0.
Definition APR_ENOMEM : Z := 12.

Definition UPLOAD_ACCELERATION_THRESHOLD : Z := 1024 * 8.

(** ** Calls that leave the module *)

Inductive probe :=
| P_fileExists
| P_verifyRailsDir
| P_verifyRackDir
| P_verifyWSGIDir
| P_canonicalizePath.

Inductive session_call :=
| S_setReaderTimeout (t : Z)
| S_setWriterTimeout (t : Z)
| S_sendHeaders (buffer : string)
| S_sendBodyBlock (block : string)
| S_shutdownWriter
| S_getStream
| S_discardStream.

(** The arguments of [ApplicationPool::get]. *)
Record pool_get_args := {
  pg_appRoot : string;
  pg_lowerPrivilege : bool;
  pg_user : string;
  pg_environment : string;
  pg_spawnMethod : string;
  pg_appType : string
}.

(** What a request does to the world outside the module, in order. *)
Inductive event :=
| EvFilesystem (p : probe) (path : string)
| EvSetContentType (ct : string)
| EvRputs (s : string)
| EvCustomResponse (status : Z) (message : string)
| EvSetupClientBlock
| EvGetClientBlock (block : string)
| EvTempFileCreate
| EvTempFileWrite (bytes : string)
| EvPoolGet (a : pool_get_args)
| EvSession (c : session_call)
| EvRelayResponse
| EvCleanupRegister.

(** The environment of one request: the Apache API, the client, the
    filesystem helpers of [Utils.h], the temporary file, the application
    pool and the session it hands out.  None of them is code of
    [Hooks.cpp]; each is an answer the hooks get when they call out. *)
Class Host := {
  ap_get_server_version : cstr;
  ap_get_server_name : request_rec -> cstr;
  ap_get_server_port : request_rec -> N;
  ap_document_root : request_rec -> string;
  ap_escape_html : string -> string;
  ap_setup_client_block : request_rec -> Z;
  ap_should_client_block : request_rec -> bool;
  (** the blocks [ap_get_client_block] delivers, then 0, or -1 when
      [client_error] *)
  client_blocks : list string;
  client_error : bool;
  apr_table_make_ok : bool;
  fileExists : string -> fs_result bool;
  verifyRailsDir : string -> fs_result bool;
  verifyRackDir : string -> fs_result bool;
  verifyWSGIDir : string -> fs_result bool;
  canonicalizePath : string -> fs_result string;
  TempFile_new : result unit;
  (** [fwrite]: given the size of the file and the number of bytes asked
      for, the number of bytes written *)
  fwrite : nat -> nat -> nat;
  errno : Z;
  pool_get : pool_get_args -> result Z;
  session_answer : session_call -> result unit
}.


(** ** The state of a request and the monad of the hooks *)

Inductive ApplicationType := NONE | RAILS | RACK | WSGI.

(** The fields of a [DirectoryMapper] besides the two pointers [r] and
    [config], which are the request held in the state. *)
Record DirectoryMapper := {
  baseURIKnown : bool;
  baseURI : cstr;
  appType : ApplicationType
}.

Record state := {
  st_r : request_rec;
  st_mapper : DirectoryMapper;
  st_client : list string;
  st_trace : list event
}.

Definition M (A : Type) : Type := state -> outcome A * state.

Definition ret {A} (a : A) : M A := fun s => (Ret a, s).

Definition bind {A B} (m : M A) (k : A -> M B) : M B :=
  fun s =>
    match m s with
    | (Ret a, s') => k a s'
    | (Throw e, s') => (Throw e, s')
    | (Undefined, s') => (Undefined, s')
    end.

Definition throw {A} (e : exn) : M A := fun s => (Throw e, s).

Definition undefined {A} : M A := fun s => (Undefined, s).

Definition lift {A} (o : outcome A) : M A := fun s => (o, s).

(** [try { m } catch ...]: [h e] is the body of the first clause that
    catches [e], if any. *)
Definition try_catch {A} (m : M A) (h : exn -> option (M A)) : M A :=
  fun s =>
    match m s with
    | (Throw e, s') =>
        match h e with
        | Some k => k s'
        | None => (Throw e, s')
        end
    | other => other
    end.

Declare Scope hooks_scope.
Delimit Scope hooks_scope with hooks.
Notation "x <- c1 ;; c2" := (bind c1 (fun x => c2))
  (at level 61, c1 at next level, right associativity) : hooks_scope.
Notation "c1 ;; c2" := (bind c1 (fun _ => c2))
  (at level 61, right associativity) : hooks_scope.
Local Open Scope hooks_scope.

Definition get_request : M request_rec := fun s => (Ret (st_r s), s).

Definition set_request (r : request_rec) : M unit :=
  fun s => (Ret tt, {| st_r := r; st_mapper := st_mapper s;
                       st_client := st_client s; st_trace := st_trace s |}).

Definition get_mapper : M DirectoryMapper := fun s => (Ret (st_mapper s), s).

Definition set_mapper (m : DirectoryMapper) : M unit :=
  fun s => (Ret tt, {| st_r := st_r s; st_mapper := m;
                       st_client := st_client s; st_trace := st_trace s |}).

Definition get_client : M (list string) := fun s => (Ret (st_client s), s).

Definition set_client (c : list string) : M unit :=
  fun s => (Ret tt, {| st_r := st_r s; st_mapper := st_mapper s;
                       st_client := c; st_trace := st_trace s |}).

Definition log (e : event) : M unit :=
  fun s => (Ret tt, {| st_r := st_r s; st_mapper := st_mapper s;
                       st_client := st_client s;
                       st_trace := st_trace s ++ [e] |}).

Section Hooks.

Context {host : Host}.

(** A call to one of the filesystem helpers: noted in the trace, then
    answered by the host. *)
Definition probe_call {A} (p : probe) (f : string -> fs_result A)
  (path : string) : M A :=
  log (EvFilesystem p path) ;; lift (of_fs (f path)).

Definition session_do (c : session_call) : M unit :=
  log (EvSession c) ;; lift (of_result (session_answer c)).

(** ** [DirectoryMapper] (lines 76-267) *)

Definition shouldAutoDetectRails (config : DirConfig) : bool :=
  Threeway_eqb (autoDetectRails config) ENABLED
  || Threeway_eqb (autoDetectRails config) UNSET.

Definition shouldAutoDetectRack (config : DirConfig) : bool :=
  Threeway_eqb (autoDetectRack config) ENABLED
  || Threeway_eqb (autoDetectRack config) UNSET.

Definition shouldAutoDetectWSGI (config : DirConfig) : bool :=
  Threeway_eqb (autoDetectWSGI config) ENABLED
  || Threeway_eqb (autoDetectWSGI config) UNSET.

(** The constructor. *)
Definition DirectoryMapper_new : DirectoryMapper :=
  {| baseURIKnown := false; baseURI := None; appType := NONE |}.

(** The condition of lines 150-153 (and 164-167); [memcmp] reads the
    buffer of [base], [base.size()] bytes and a terminator. *)
Definition base_matches (uri base : string) : bool :=
  let uri_len := strlen uri in
  String.eqb base "/"
  || ((uri_len =? String.length base)%nat
      && (memcmp uri base uri_len =? 0)%Z)
  || ((String.length base <? uri_len)%nat
      && (memcmp uri base (String.length base) =? 0)%Z
      && Ascii.eqb (char_at uri (String.length base)) "/").

(** The loops of lines 148-160 and 162-174 over a set of base URIs. *)
Fixpoint find_base (uri : string) (bases : list string) : option string :=
  match bases with
  | [] => None
  | base :: rest =>
      if base_matches uri base then Some base else find_base uri rest
  end.

Definition mapper_known (m : DirectoryMapper) : DirectoryMapper :=
  {| baseURIKnown := true; baseURI := baseURI m; appType := appType m |}.

Definition mapper_found (b : string) (t : ApplicationType) : DirectoryMapper :=
  {| baseURIKnown := true; baseURI := Some b; appType := t |}.

Definition getBaseURI : M cstr :=
  m <- get_mapper ;;
  if baseURIKnown m then ret (baseURI m)
  else
    r <- get_request ;;
    let config := per_dir_config r in
    let uri := uri r in
    let uri_len := strlen uri in
    if (uri_len =? 0)%nat || negb (Ascii.eqb (char_at uri 0) "/") then
      set_mapper (mapper_known m) ;; ret None
    else
      match find_base uri (railsBaseURIs config) with
      | Some base =>
          set_mapper (mapper_found (c_str base) RAILS) ;;
          ret (Some (c_str base))
      | None =>
      match find_base uri (rackBaseURIs config) with
      | Some base =>
          set_mapper (mapper_found (c_str base) RACK) ;;
          ret (Some (c_str base))
      | None =>
          rails <- (if shouldAutoDetectRails config
                    then probe_call P_verifyRailsDir verifyRailsDir
                           (ap_document_root r)
                    else ret false) ;;
          if rails then
            set_mapper (mapper_found "/" RAILS) ;; ret (Some "/"%string)
          else
          rack <- (if shouldAutoDetectRack config
                   then probe_call P_verifyRackDir verifyRackDir
                          (ap_document_root r)
                   else ret false) ;;
          if rack then
            set_mapper (mapper_found "/" RACK) ;; ret (Some "/"%string)
          else
          wsgi <- (if shouldAutoDetectWSGI config
                   then probe_call P_verifyWSGIDir verifyWSGIDir
                          (ap_document_root r)
                   else ret false) ;;
          if wsgi then
            set_mapper (mapper_found "/" WSGI) ;; ret (Some "/"%string)
          else
            set_mapper (mapper_known m) ;; ret None
      end
      end.

Definition getPublicDirectory : M string :=
  m <- get_mapper ;;
  (if baseURIKnown m then ret tt else (getBaseURI ;; ret tt)) ;;
  m <- get_mapper ;;
  match baseURI m with
  | None => ret ""%string
  | Some baseURI =>
      r <- get_request ;;
      let docRoot := ap_document_root r in
      let len := strlen docRoot in
      if (0 <? len)%nat then
        let path :=
          if Ascii.eqb (char_at docRoot (len - 1)) "/"
          then take (len - 1) docRoot
          else take len docRoot in
        let path :=
          if negb (strcmp_eq baseURI "/") then path +++ baseURI else path in
        ret path
      else ret ""%string
  end.

Definition getApplicationType : M ApplicationType :=
  m <- get_mapper ;;
  (if baseURIKnown m then ret tt else (getBaseURI ;; ret tt)) ;;
  m <- get_mapper ;;
  ret (appType m).

Definition getApplicationTypeString : M cstr :=
  m <- get_mapper ;;
  (if baseURIKnown m then ret tt else (getBaseURI ;; ret tt)) ;;
  m <- get_mapper ;;
  ret (match appType m with
       | RAILS => Some "rails"%string
       | RACK => Some "rack"%string
       | WSGI => Some "wsgi"%string
       | NONE => None
       end).

(** ** [Hooks]: error reports (lines 308-335) *)

Definition ap_set_content_type (ct : string) : M unit := log (EvSetContentType ct).

Definition ap_rputs (str : string) : M unit := log (EvRputs str).

Definition ap_custom_response (status : Z) (message : string) : M unit :=
  log (EvCustomResponse status message).

Definition reportDocumentRootDeterminationError : M Z :=
  ap_set_content_type "text/html; charset=UTF-8" ;;
  ap_rputs ("<h1>Passenger error #1</h1>" +++ String "010" EmptyString) ;;
  ap_rputs "Cannot determine the document root for the current request." ;;
  ret OK.

(** [e] is the caught [FileSystemException]: [file] its [filename()],
    [what] its [what()], [code] its [code()]. *)
Definition reportFileSystemError (what : string) (code : Z) (file : string)
  : M Z :=
  ap_set_content_type "text/html; charset=UTF-8" ;;
  ap_rputs ("<h1>Passenger error #2</h1>" +++ String "010" EmptyString) ;;
  ap_rputs "An error occurred while trying to access '" ;;
  ap_rputs (ap_escape_html (c_str file)) ;;
  ap_rputs "': " ;;
  ap_rputs (ap_escape_html what) ;;
  (if (code =? EPERM)%Z then
     ap_rputs "<p>" ;;
     ap_rputs "Apache doesn't have read permissions to that file. " ;;
     ap_rputs "Please fix the relevant file permissions." ;;
     ap_rputs "</p>"
   else ret tt) ;;
  ret OK.

Definition reportBusyException : M Z :=
  ap_custom_response HTTP_SERVICE_UNAVAILABLE
    "This website is too busy right now.  Please try again later." ;;
  ret HTTP_SERVICE_UNAVAILABLE.

(** ** [Hooks]: request headers (lines 337-409) *)

Definition http2env (name : string) : string :=
  "HTTP_" +++
  map_chars (fun c => if Ascii.eqb c "-" then "_"%char else apr_toupper c) name.

Fixpoint lookupName (t : apr_table) (name : string) : cstr :=
  match t with
  | [] => None
  | (None, _) :: rest => lookupName rest name
  | (Some key, val) :: rest =>
      if strcasecmp_eq key name then val else lookupName rest name
  end.

Definition lookupHeader (r : request_rec) (name : string) : cstr :=
  lookupName (headers_in r) name.

Definition lookupEnv (r : request_rec) (name : string) : cstr :=
  lookupName (subprocess_env r) name.

Definition originalURI (r : request_rec) : cstr :=
  match the_request r with
  | None => Some EmptyString
  | Some line =>
      let first := skip_while (fun c => negb (apr_isspace c)) line in
      let first := skip_while apr_isspace first in
      Some (take_while (fun c => negb (apr_isspace c)) first)
  end.

Definition addHeader (table : apr_table) (name value : cstr) : apr_table :=
  match name, value with
  | Some n, Some v => apr_table_addn table n v
  | _, _ => table
  end.

(** ** [Hooks::sendHeaders] (lines 411-503) *)

(** Lines 418-437, [baseURI] not NULL. *)
Definition cgi_variables (r : request_rec) (baseURI : string)
  (headers : apr_table) : apr_table :=
  let headers := addHeader headers (Some "SERVER_SOFTWARE"%string) ap_get_server_version in
  let headers := addHeader headers (Some "SERVER_PROTOCOL"%string) (protocol r) in
  let headers := addHeader headers (Some "SERVER_NAME"%string) (ap_get_server_name r) in
  let headers := addHeader headers (Some "SERVER_ADMIN"%string) (server_admin r) in
  let headers := addHeader headers (Some "SERVER_ADDR"%string) (local_ip r) in
  let headers := addHeader headers (Some "SERVER_PORT"%string)
                   (Some (decimal (ap_get_server_port r))) in
  let headers := addHeader headers (Some "REMOTE_ADDR"%string) (remote_ip r) in
  let headers := addHeader headers (Some "REMOTE_PORT"%string)
                   (Some (decimal (remote_port r))) in
  let headers := addHeader headers (Some "REMOTE_USER"%string) (user r) in
  let headers := addHeader headers (Some "REQUEST_METHOD"%string) (method r) in
  let headers := addHeader headers (Some "REQUEST_URI"%string) (originalURI r) in
  let headers := addHeader headers (Some "QUERY_STRING"%string)
                   (match args r with
                    | Some a => Some a
                    | None => Some EmptyString
                    end) in
  let headers :=
    if negb (strcmp_eq baseURI "/")
    then addHeader headers (Some "SCRIPT_NAME"%string) (Some baseURI)
    else headers in
  let headers := addHeader headers (Some "HTTPS"%string) (lookupEnv r "HTTPS") in
  let headers := addHeader headers (Some "CONTENT_TYPE"%string)
                   (lookupHeader r "Content-type") in
  let headers := addHeader headers (Some "DOCUMENT_ROOT"%string)
                   (Some (ap_document_root r)) in
  let headers := addHeader headers (Some "PATH_INFO"%string) (parsed_uri_path r) in
  headers.

(** Lines 444-450: the loop over [r->headers_in]. *)
Fixpoint http_headers (hdrs : apr_table) (headers : apr_table) : apr_table :=
  match hdrs with
  | [] => headers
  | (Some key, val) :: rest =>
      http_headers rest (addHeader headers (Some (http2env key)) val)
  | (None, _) :: rest => http_headers rest headers
  end.

(** Lines 456-460: the loop over [r->subprocess_env]. *)
Fixpoint env_variables (env : apr_table) (headers : apr_table) : apr_table :=
  match env with
  | [] => headers
  | (key, val) :: rest => env_variables rest (addHeader headers key val)
  end.

(** The table [headers] as it stands at line 462. *)
Definition sendHeaders_table (r : request_rec) (baseURI : string) : apr_table :=
  env_variables (subprocess_env r)
    (http_headers (headers_in r) (cgi_variables r baseURI [])).

Definition sendHeaders (baseURI : cstr) : M Z :=
  r <- get_request ;;
  if negb apr_table_make_ok then ret APR_ENOMEM
  else
    match baseURI with
    | None => undefined
    | Some b =>
        match header_buffer (sendHeaders_table r b) with
        | None => undefined
        | Some buffer =>
            session_do (S_sendHeaders buffer) ;;
            ret APR_SUCCESS
        end
    end.

(** ** [Hooks]: the request body (lines 505-554) *)

Definition BLOCK : nat := 1024 * 32.

(** The [do ... while (written < len)] loop of lines 512-520 on the block
    [buf] of [len] bytes; [file] is the content of the temporary file.
    Every pass writes at least one byte or throws, so [len] passes are
    enough. *)
Fixpoint write_block (fuel : nat) (buf : string) (len written : nat)
  (file : string) : M string :=
  match fuel with
  | O => ret file
  | S fuel' =>
      let n := Nat.min (fwrite (String.length file) (len - written))
                       (len - written) in
      log (EvTempFileWrite (take n buf)) ;;
      if (n =? 0)%nat then
        throw (SystemException
                 "An error occured while writing HTTP upload data to a temporary file"
                 errno)
      else
        let file := file +++ take n buf in
        let written := written + n in
        if (written <? len)%nat
        then write_block fuel' buf len written file
        else ret file
  end.

Definition client_end : Z := if client_error then (-1)%Z else 0%Z.

(** The [while] loop of lines 510-521; returns the last [len] and the
    file. *)
Fixpoint receive_blocks (blocks : list string) (file : string)
  : M (Z * string) :=
  match blocks with
  | [] =>
      set_client [] ;; log (EvGetClientBlock EmptyString) ;;
      ret (client_end, file)
  | buf :: rest =>
      set_client rest ;; log (EvGetClientBlock buf) ;;
      let len := String.length buf in
      if (0 <? len)%nat then
        file <- write_block len buf len 0 file ;;
        receive_blocks rest file
      else ret (0%Z, file)
  end.

(** Returns the content of the temporary file. *)
Definition receiveRequestBody : M string :=
  lift (of_result TempFile_new) ;;
  log EvTempFileCreate ;;
  blocks <- get_client ;;
  res <- receive_blocks blocks EmptyString ;;
  let len := fst res in
  let file := snd res in
  if (len =? -1)%Z then
    throw (IOException "An error occurred while receiving HTTP upload data.")
  else
    r <- get_request ;;
    match lookupHeader r "Content-Length" with
    | None => undefined
    | Some cl =>
        if negb (Z.of_nat (String.length file) =? atol cl)%Z then
          throw (IOException "The HTTP client sent incomplete upload data.")
        else ret file
    end.

(** The loop of lines 534-541 on what is left of the file: [fread]
    reaches the end of the file when fewer than [BLOCK] bytes are left.
    Every pass but the last consumes [BLOCK] bytes, so one pass more than
    the file has bytes is enough. *)
Fixpoint send_file_blocks (fuel : nat) (rest : string) : M unit :=
  match fuel with
  | O => ret tt
  | S fuel' =>
      let size := Nat.min BLOCK (String.length rest) in
      session_do (S_sendBodyBlock (take size rest)) ;;
      if (String.length rest <? BLOCK)%nat then ret tt
      else send_file_blocks fuel' (drop size rest)
  end.

Definition sendRequestBody_file (uploadData : string) : M unit :=
  send_file_blocks (S (String.length uploadData)) uploadData.

Fixpoint stream_blocks (blocks : list string) : M Z :=
  match blocks with
  | [] =>
      set_client [] ;; log (EvGetClientBlock EmptyString) ;;
      ret client_end
  | buf :: rest =>
      set_client rest ;; log (EvGetClientBlock buf) ;;
      if (0 <? String.length buf)%nat then
        session_do (S_sendBodyBlock buf) ;;
        stream_blocks rest
      else ret 0%Z
  end.

Definition sendRequestBody : M unit :=
  blocks <- get_client ;;
  len <- stream_blocks blocks ;;
  if (len =? -1)%Z then
    throw (IOException "An error occurred while receiving HTTP upload data.")
  else ret tt.


(** ** [Hooks::handleRequest] (lines 630-772) *)

Definition getDirConfig (r : request_rec) : DirConfig := per_dir_config r.

Definition getServerConfig (r : request_rec) : ServerConfig :=
  server_module_config r.

Definition DEFAULT_RAILS_ENV : string := "production".
Definition DEFAULT_RACK_ENV : string := "production".
Definition DEFAULT_WSGI_ENV : string := "production".

(** The condition of line 633, [||] evaluated left to right. *)
Definition not_for_the_application : M bool :=
  r <- get_request ;;
  base <- getBaseURI ;;
  match base with
  | None => ret true
  | Some _ =>
      match filename r with
      | None => ret true
      | Some f => probe_call P_fileExists fileExists f
      end
  end.

(** Lines 637-643: [Some status] when the block returns. *)
Definition check_public_directory : M (option Z) :=
  try_catch
    (dir <- getPublicDirectory ;;
     if String.eqb dir EmptyString then
       status <- reportDocumentRootDeterminationError ;;
       ret (Some status)
     else ret None)
    (fun e =>
       match e with
       | FileSystemException what code file =>
           Some (status <- reportFileSystemError what code file ;;
                 ret (Some status))
       | _ => None
       end).

(** Lines 659-663: the upload is received into a temporary file, or
    [uploadData] stays NULL. *)
Definition accelerate_upload (expectingUploadData : bool)
  : M (option string) :=
  r <- get_request ;;
  if expectingUploadData then
    match lookupHeader r "Content-Length" with
    | None => undefined
    | Some cl =>
        if (UPLOAD_ACCELERATION_THRESHOLD <? atol cl)%Z then
          file <- receiveRequestBody ;;
          ret (Some file)
        else ret None
    end
  else ret None.

Definition applicationPool_get (a : pool_get_args) : M Z :=
  log (EvPoolGet a) ;; lift (of_result (pool_get a)).

(** Lines 665-713: [inl status] when the block returns, [inr pid] when
    it leaves a session. *)
Definition acquire_session : M (Z + Z) :=
  try_catch
    (r <- get_request ;;
     let config := getDirConfig r in
     let sconfig := getServerConfig r in
     let defaultUser :=
       match defaultUser sconfig with
       | Some u => u
       | None => "nobody"%string
       end in
     t <- getApplicationType ;;
     environment <-
       (match t with
        | RAILS =>
            ret (match railsEnv config with
                 | None => DEFAULT_RAILS_ENV
                 | Some e => e
                 end)
        | _ =>
            t <- getApplicationType ;;
            match t with
            | RACK =>
                ret (match rackEnv config with
                     | None => DEFAULT_RACK_ENV
                     | Some e => e
                     end)
            | _ => ret DEFAULT_WSGI_ENV
            end
        end) ;;
     let spawnMethod :=
       match spawnMethod config with
       | SM_CONSERVATIVE => "conservative"%string
       | _ => "smart"%string
       end in
     dir <- getPublicDirectory ;;
     root <- probe_call P_canonicalizePath canonicalizePath (dir +++ "/..") ;;
     type <- getApplicationTypeString ;;
     match type with
     | None => undefined
     | Some type =>
         pid <- applicationPool_get
                  {| pg_appRoot := root; pg_lowerPrivilege := true;
                     pg_user := defaultUser; pg_environment := environment;
                     pg_spawnMethod := spawnMethod; pg_appType := type |} ;;
         ret (inr pid)
     end)
    (fun e =>
       match e with
       | SpawnException _ page =>
           Some (match page with
                 | Some errorPage =>
                     ap_set_content_type "text/html; charset=utf-8" ;;
                     ap_rputs (c_str errorPage) ;;
                     ret (inl OK)
                 | None => throw e
                 end)
       | BusyException _ =>
           Some (status <- reportBusyException ;; ret (inl status))
       | _ => None
       end).

(** Lines 715-751. *)
Definition forward_request (expectingUploadData : bool)
  (uploadData : option string) : M Z :=
  r <- get_request ;;
  session_do (S_setReaderTimeout (Z.quot (server_timeout r) 1000)) ;;
  session_do (S_setWriterTimeout (Z.quot (server_timeout r) 1000)) ;;
  base <- getBaseURI ;;
  sendHeaders base ;;
  (if expectingUploadData then
     match uploadData with
     | Some file => sendRequestBody_file file
     | None => sendRequestBody
     end
   else ret tt) ;;
  session_do S_shutdownWriter ;;
  session_do S_getStream ;;
  log EvRelayResponse ;;
  log EvCleanupRegister ;;
  session_do S_discardStream ;;
  ret OK.

(** Lines 650-751: the body of the outer [try] block. *)
Definition serve_request : M Z :=
  r <- get_request ;;
  let expectingUploadData := ap_should_client_block r in
  uploadData <- accelerate_upload expectingUploadData ;;
  got <- acquire_session ;;
  match got with
  | inl status => ret status
  | inr _ => forward_request expectingUploadData uploadData
  end.

(** Lines 753-771: its [catch] clauses; [catch (...)] throws again. *)
Definition internal_error (e : exn) : option (M Z) :=
  match e with
  | thread_interrupted => Some (ret HTTP_INTERNAL_SERVER_ERROR)
  | foreign_exception => None
  | _ => Some (ret HTTP_INTERNAL_SERVER_ERROR)
  end.

Definition handleRequest : M Z :=
  set_mapper DirectoryMapper_new ;;
  declined <- not_for_the_application ;;
  if declined then ret DECLINED
  else
    early <- check_public_directory ;;
    match early with
    | Some status => ret status
    | None =>
        r <- get_request ;;
        log EvSetupClientBlock ;;
        let httpStatus := ap_setup_client_block r in
        if negb (httpStatus =? OK)%Z then ret httpStatus
        else try_catch serve_request internal_error
    end.

(** ** [Hooks::mapToStorage] (lines 774-860) *)

(** Lines 781-818: the value of [forwardToApplication]. *)
Definition forwardToApplication : M bool :=
  r <- get_request ;;
  base <- getBaseURI ;;
  static <-
    (match base with
     | None => ret true
     | Some _ =>
         match filename r with
         | None => undefined
         | Some f => probe_call P_fileExists fileExists f
         end
     end) ;;
  if static then ret false
  else if (method_number r =? M_GET)%Z then
    match filename r with
    | None => undefined
    | Some f =>
        let len := strlen f in
        let html_file :=
          if (0 <? len)%nat && Ascii.eqb (char_at f (len - 1)) "/"
          then f +++ "index.html"
          else f +++ ".html" in
        cached <- probe_call P_fileExists fileExists html_file ;;
        if cached then
          set_request
            (set_canonical_filename (set_filename r (Some html_file))
               (Some html_file)) ;;
          ret false
        else ret true
    end
  else ret true.

Definition mapToStorage : M Z :=
  set_mapper DirectoryMapper_new ;;
  try_catch
    (forward <- forwardToApplication ;;
     if forward then
       r <- get_request ;;
       let config := getDirConfig r in
       rails_only <-
         (if negb (Threeway_eqb (allowModRewrite config) ENABLED) then
            t <- getApplicationType ;;
            ret (match t with RAILS => true | _ => false end)
          else ret false) ;;
       if rails_only then ret OK
       else
         base <- getBaseURI ;;
         match base with
         | None => undefined
         | Some b => if strcmp_eq (uri r) b then ret OK else ret DECLINED
         end
     else ret DECLINED)
    (fun e =>
       match e with
       | FileSystemException _ _ _ => Some (ret DECLINED)
       | _ => None
       end).

(** A request as the host hands it to a hook. *)
Definition initial (r : request_rec) : state :=
  {| st_r := r; st_mapper := DirectoryMapper_new;
     st_client := client_blocks; st_trace := [] |}.


End Hooks.


(** ** The resolver and the public directory in the words of the
    specification *)

Module Resolver.

(** A base URI matches when it is ["/"], or the whole URI, or a proper
    prefix of the URI that ends where the URI has a ['/']. *)
Definition matches (uri base : string) : bool :=
  String.eqb base "/"
  || String.eqb base uri
  || String.prefix (base +++ "/") uri.

Definition enabled (t : Threeway) : bool :=
  match t with
  | DISABLED => false
  | _ => true
  end.

Definition resolution := option (string * ApplicationType).

(** Probe a marker when detection is enabled for the type, otherwise (or
    when the marker is not there) go on with [next]. *)
Definition detect (t : Threeway) (marker : fs_result bool)
  (type : ApplicationType) (next : outcome resolution) : outcome resolution :=
  if enabled t then
    match marker with
    | Found true => Ret (Some ("/"%string, type))
    | Found false => next
    | Failed what code file => Throw (FileSystemException what code file)
    end
  else next.

Definition resolve {host : Host} (r : request_rec) : outcome resolution :=
  let config := per_dir_config r in
  let root := ap_document_root r in
  match find (matches (uri r)) (railsBaseURIs config) with
  | Some base => Ret (Some (c_str base, RAILS))
  | None =>
      match find (matches (uri r)) (rackBaseURIs config) with
      | Some base => Ret (Some (c_str base, RACK))
      | None =>
          detect (autoDetectRails config) (verifyRailsDir root) RAILS
            (detect (autoDetectRack config) (verifyRackDir root) RACK
               (detect (autoDetectWSGI config) (verifyWSGIDir root) WSGI
                  (Ret None)))
      end
  end.

(** What a run of [getBaseURI] resolved: the base URI it returned and
    the application type it left in the mapper. *)
Definition resolved (res : outcome cstr * state) : outcome resolution :=
  match fst res with
  | Ret (Some b) => Ret (Some (b, appType (st_mapper (snd res))))
  | Ret None => Ret None
  | Throw e => Throw e
  | Undefined => Undefined
  end.

Definition begins_with_slash (uri : string) : Prop :=
  exists rest, uri = String "/" rest.

(** The probes of the document root that the detection makes, in order:
    one for each enabled type, up to the first that does not answer
    "no". *)
Fixpoint probe_seq (root : string)
  (l : list (Threeway * probe * fs_result bool)) : list event :=
  match l with
  | [] => []
  | (t, p, answer) :: rest =>
      if enabled t then
        EvFilesystem p root ::
        match answer with
        | Found false => probe_seq root rest
        | _ => []
        end
      else probe_seq root rest
  end.

Definition probes {host : Host} (r : request_rec) : list event :=
  let config := per_dir_config r in
  let root := ap_document_root r in
  match find (matches (uri r)) (railsBaseURIs config),
        find (matches (uri r)) (rackBaseURIs config) with
  | None, None =>
      probe_seq root
        [(autoDetectRails config, P_verifyRailsDir, verifyRailsDir root);
         (autoDetectRack config, P_verifyRackDir, verifyRackDir root);
         (autoDetectWSGI config, P_verifyWSGIDir, verifyWSGIDir root)]
  | _, _ => []
  end.

(** One trailing ['/'] removed, when there is one. *)
Fixpoint strip_slash (s : string) : string :=
  match s with
  | EmptyString => EmptyString
  | String c EmptyString => if Ascii.eqb c "/" then EmptyString else s
  | String c s' => String c (strip_slash s')
  end.

Definition public_directory (docRoot : string) (base : cstr) : string :=
  match base with
  | None => EmptyString
  | Some b =>
      if String.eqb docRoot EmptyString then EmptyString
      else if String.eqb b "/" then strip_slash docRoot
      else strip_slash docRoot +++ b
  end.

(** The page-cache file of a path. *)
Definition html_file (path : string) : string :=
  match last_char path with
  | Some "/"%char => path +++ "index.html"
  | _ => path +++ ".html"
  end.

End Resolver.

(** ** Reading a trace *)

(** The state [s] after one more call. *)
Definition logged (s : state) (e : event) : state :=
  {| st_r := st_r s; st_mapper := st_mapper s; st_client := st_client s;
     st_trace := st_trace s ++ [e] |}.


Definition is_filesystem (e : event) : bool :=
  match e with EvFilesystem _ _ => true | _ => false end.

Definition is_response (e : event) : bool :=
  match e with
  | EvSetContentType _ | EvRputs _ | EvCustomResponse _ _ => true
  | _ => false
  end.

Definition is_tempfile (e : event) : bool :=
  match e with EvTempFileCreate | EvTempFileWrite _ => true | _ => false end.

Definition is_client_read (e : event) : bool :=
  match e with EvGetClientBlock _ => true | _ => false end.

Definition is_pool_get (e : event) : bool :=
  match e with EvPoolGet _ => true | _ => false end.

Definition is_session (e : event) : bool :=
  match e with EvSession _ => true | _ => false end.

Definition is_body_block (e : event) : bool :=
  match e with EvSession (S_sendBodyBlock _) => true | _ => false end.

Definition is_setup (e : event) : bool :=
  match e with EvSetupClientBlock => true | _ => false end.

Definition is_relay (e : event) : bool :=
  match e with EvRelayResponse | EvCleanupRegister => true | _ => false end.

Definition is_upload (e : event) : bool := is_tempfile e || is_client_read e.

(** The response body written with [ap_rputs]. *)
Fixpoint response_body (tr : list event) : string :=
  match tr with
  | [] => EmptyString
  | EvRputs s :: rest => s +++ response_body rest
  | _ :: rest => response_body rest
  end.

(** The hint of [reportFileSystemError], as one string. *)
Definition permission_hint : string :=
  "<p>Apache doesn't have read permissions to that file. Please fix the relevant file permissions.</p>".

(** The content types set, in order. *)
Fixpoint content_types (tr : list event) : list string :=
  match tr with
  | [] => []
  | EvSetContentType ct :: rest => ct :: content_types rest
  | _ :: rest => content_types rest
  end.

(** The bytes written to the temporary file. *)
Fixpoint tempfile_content (tr : list event) : string :=
  match tr with
  | [] => EmptyString
  | EvTempFileWrite bytes :: rest => bytes +++ tempfile_content rest
  | _ :: rest => tempfile_content rest
  end.

(** The body the client sends: its blocks up to the end of the stream
    (an empty block is how [ap_get_client_block] says so). *)
Fixpoint body_of (blocks : list string) : string :=
  match blocks with
  | [] => EmptyString
  | EmptyString :: _ => EmptyString
  | b :: rest => b +++ body_of rest
  end.

Definition request_body {host : Host} : string := body_of client_blocks.

(** [fwrite] never writes fewer bytes than it is asked for. *)
Definition full_writes {host : Host} : Prop :=
  forall size n, n <= fwrite size n.

(** The upload is accelerated: the host expects a body and the
    advertised length is above the threshold. *)
Definition accelerated {host : Host} (r : request_rec) : bool :=
  ap_should_client_block r
  && match lookupHeader r "Content-Length" with
     | Some cl => (UPLOAD_ACCELERATION_THRESHOLD <? atol cl)%Z
     | None => false
     end.


(** Mappers as the constructor and [getBaseURI] leave them: no base URI
    is held before one is known. *)
Definition wf_mapper (m : DirectoryMapper) : Prop :=
  baseURIKnown m = false -> baseURI m = None.

(** What a request may do before it asks the pool for a session: probe
    the filesystem, set up the client block and, when the upload is
    accelerated, read the client and write the temporary file. *)
Definition before_pool {host : Host} (r : request_rec) (e : event) : bool :=
  is_filesystem e || is_setup e || (accelerated r && is_upload e).

(** What it may do once it holds a session: talk to the session, relay
    the response and, when the upload was not accelerated, read the
    client. *)
Definition after_pool {host : Host} (r : request_rec) (e : event) : bool :=
  is_session e || is_filesystem e || is_relay e
  || (negb (accelerated r) && is_client_read e).

(** [s'] is [s] after calls that all satisfy [P], the request untouched. *)
Definition grows (P : event -> bool) (s s' : state) : Prop :=
  st_r s' = st_r s /\
  exists evs, st_trace s' = st_trace s ++ evs /\ forallb P evs = true.

Definition emits {A} (P : event -> bool) (m : M A) : Prop :=
  forall s, grows P s (snd (m s)).

(** ** The shape of a run of [handleRequest] *)

Section Runs.

Context {host : Host}.

(** What a run of the upload code leaves of the state: the request and
    the mapper as they were, more events. *)
Definition uploads (s s' : state) (evs : list event) : Prop :=
  st_r s' = st_r s /\ st_mapper s' = st_mapper s /\
  st_trace s' = st_trace s ++ evs /\ forallb is_upload evs = true.

(** The state after [ap_get_client_block] delivered [buf]. *)
Definition read_block (s : state) (rest : list string) (buf : string)
  : state :=
  {| st_r := st_r s; st_mapper := st_mapper s; st_client := rest;
     st_trace := st_trace s ++ [EvGetClientBlock buf] |}.

(** The upload is in the temporary file: the file was created, holds as
    many bytes as the request advertises and, when [fwrite] never writes
    short, holds the body the client sent. *)
Definition upload_complete (r : request_rec) (blocks : list string)
  (evs : list event) : Prop :=
  In EvTempFileCreate evs /\
  (exists cl, lookupHeader r "Content-Length" = Some cl /\
              Z.of_nat (String.length (tempfile_content evs)) = atol cl) /\
  (full_writes -> tempfile_content evs = body_of blocks).

(** How the pool's answer ends [acquire_session]: the value of the block
    and the calls made after [get]. *)
Definition session_outcome (a : pool_get_args) (o : outcome (Z + Z))
  (post : list event) : Prop :=
  match pool_get a with
  | Ok pid => o = Ret (inr pid) /\ post = []
  | Raise (SpawnException _ (Some page)) =>
      o = Ret (inl OK) /\
      post = [EvSetContentType "text/html; charset=utf-8";
              EvRputs (c_str page)]
  | Raise (BusyException _) =>
      o = Ret (inl HTTP_SERVICE_UNAVAILABLE) /\
      post = [EvCustomResponse HTTP_SERVICE_UNAVAILABLE
                "This website is too busy right now.  Please try again later."]
  | Raise e => o = Throw e /\ post = []
  end.

(** What may happen before the pool is asked, once the client block is
    set up. *)
Definition serving (r : request_rec) (e : event) : bool :=
  is_filesystem e || (accelerated r && is_upload e).

(** How the pool's answer ends the [try] block. *)
Definition served (r : request_rec) (a : pool_get_args) (o : outcome Z)
  (post : list event) : Prop :=
  match pool_get a with
  | Ok _ => forallb (after_pool r) post = true
  | Raise (SpawnException _ (Some page)) =>
      o = Ret OK /\
      post = [EvSetContentType "text/html; charset=utf-8";
              EvRputs (c_str page)]
  | Raise (BusyException _) =>
      o = Ret HTTP_SERVICE_UNAVAILABLE /\
      post = [EvCustomResponse HTTP_SERVICE_UNAVAILABLE
                "This website is too busy right now.  Please try again later."]
  | Raise e => o = Throw e /\ post = []
  end.

(** How the pool's answer ends the request. *)
Definition answered (r : request_rec) (a : pool_get_args) (o : outcome Z)
  (post : list event) : Prop :=
  match pool_get a with
  | Ok _ => forallb (after_pool r) post = true
  | Raise (SpawnException _ (Some page)) =>
      o = Ret OK /\
      post = [EvSetContentType "text/html; charset=utf-8";
              EvRputs (c_str page)]
  | Raise (BusyException _) =>
      o = Ret HTTP_SERVICE_UNAVAILABLE /\
      post = [EvCustomResponse HTTP_SERVICE_UNAVAILABLE
                "This website is too busy right now.  Please try again later."]
  | Raise foreign_exception => o = Throw foreign_exception /\ post = []
  | Raise _ => o = Ret HTTP_INTERNAL_SERVER_ERROR /\ post = []
  end.

(** What may happen in a request that never asks the pool. *)
Definition quiet (r : request_rec) (e : event) : bool :=
  before_pool r e || is_response e.

End Runs.

(** ** The header table in the words of the specification *)

(** The CGI variables and where their values come from. *)
Definition cgi_sources {host : Host} (r : request_rec) (baseURI : string)
  : apr_table :=
  [(Some "SERVER_SOFTWARE"%string, ap_get_server_version);
   (Some "SERVER_PROTOCOL"%string, protocol r);
   (Some "SERVER_NAME"%string, ap_get_server_name r);
   (Some "SERVER_ADMIN"%string, server_admin r);
   (Some "SERVER_ADDR"%string, local_ip r);
   (Some "SERVER_PORT"%string, Some (decimal (ap_get_server_port r)));
   (Some "REMOTE_ADDR"%string, remote_ip r);
   (Some "REMOTE_PORT"%string, Some (decimal (remote_port r)));
   (Some "REMOTE_USER"%string, user r);
   (Some "REQUEST_METHOD"%string, method r);
   (Some "REQUEST_URI"%string, originalURI r);
   (Some "QUERY_STRING"%string,
    Some (match args r with Some a => a | None => EmptyString end))]
  ++ (if String.eqb baseURI "/" then []
      else [(Some "SCRIPT_NAME"%string, Some baseURI)])
  ++ [(Some "HTTPS"%string, lookupEnv r "HTTPS");
      (Some "CONTENT_TYPE"%string, lookupHeader r "Content-type");
      (Some "DOCUMENT_ROOT"%string, Some (ap_document_root r));
      (Some "PATH_INFO"%string, parsed_uri_path r)].

(** The request headers under their CGI names. *)
Definition http_sources (hdrs : apr_table) : apr_table :=
  flat_map (fun e => match fst e with
                     | Some key => [(Some (http2env key), snd e)]
                     | None => []
                     end) hdrs.

(** Everything [sendHeaders] considers sending. *)
Definition candidates {host : Host} (r : request_rec) (baseURI : string)
  : apr_table :=
  cgi_sources r baseURI ++ http_sources (headers_in r) ++ subprocess_env r.

Definition complete (e : cstr * cstr) : bool :=
  match e with
  | (Some _, Some _) => true
  | _ => false
  end.

(** The entries whose name and value are both there. *)
Definition present (t : apr_table) : apr_table := filter complete t.

Definition table_names (t : apr_table) : list cstr := map fst t.

Definition flat_pair (p : string * string) : string :=
  fst p +++ String NUL EmptyString +++ snd p +++ String NUL EmptyString.

Fixpoint flat_pairs (hs : list (string * string)) : string :=
  match hs with
  | [] => EmptyString
  | p :: rest => flat_pair p +++ flat_pairs rest
  end.

Fixpoint flat_fields (hs : list (string * string)) : list string :=
  match hs with
  | [] => []
  | p :: rest => fst p :: snd p :: flat_fields rest
  end.

(** ** A host and requests to run the hooks on *)

Module Example.

(** [ap_escape_html] of Apache 2.2. *)
Fixpoint escape_html (s : string) : string :=
  match s with
  | EmptyString => EmptyString
  | String c s' =>
      (if Ascii.eqb c "<" then "&lt;"
       else if Ascii.eqb c ">" then "&gt;"
       else if Ascii.eqb c "&" then "&amp;"
       else String c EmptyString) +++ escape_html s'
  end.

(** A host whose document root is [/website/public], where exactly the
    files [files] exist, whose Rails marker probe answers [rails], whose
    client sends [body] and whose pool answers [pool]. *)
Definition host (files : list string) (rails : fs_result bool)
  (expecting : bool) (body : list string) (pool : result Z) : Host :=
  {| ap_get_server_version := Some "Apache/2.2.9 (Unix)"%string;
     ap_get_server_name := fun _ => Some "test.com"%string;
     ap_get_server_port := fun _ => 80%N;
     ap_document_root := fun _ => "/website/public/"%string;
     ap_escape_html := escape_html;
     ap_setup_client_block := fun _ => OK;
     ap_should_client_block := fun _ => expecting;
     client_blocks := body;
     client_error := false;
     apr_table_make_ok := true;
     fileExists := fun path => Found (existsb (String.eqb path) files);
     verifyRailsDir := fun _ => rails;
     verifyRackDir := fun _ => Found false;
     verifyWSGIDir := fun _ => Found false;
     canonicalizePath := fun _ => Found "/website"%string;
     TempFile_new := Ok tt;
     fwrite := fun _ n => n;
     errno := 0%Z;
     pool_get := fun _ => pool;
     session_answer := fun _ => Ok tt |}.

Definition config (rails rack : list string) : DirConfig :=
  {| railsBaseURIs := rails; rackBaseURIs := rack;
     autoDetectRails := UNSET; autoDetectRack := UNSET;
     autoDetectWSGI := UNSET; allowModRewrite := UNSET;
     railsEnv := None; rackEnv := None; spawnMethod := SM_UNSET |}.

Definition M_POST : Z := 2.

Definition request (method_number : Z) (method uri : string)
  (filename : cstr) (headers : apr_table) (config : DirConfig)
  : request_rec :=
  {| the_request := Some (method +++ " " +++ uri +++ " HTTP/1.1");
     protocol := Some "HTTP/1.1"%string;
     method := Some method; method_number := method_number;
     uri := uri; filename := filename; canonical_filename := filename;
     args := None; user := None; parsed_uri_path := Some uri;
     headers_in := headers; subprocess_env := [];
     server_admin := Some "admin@test.com"%string;
     server_timeout := 300000000%Z;
     local_ip := Some "10.0.0.1"%string;
     remote_ip := Some "10.0.0.2"%string; remote_port := 40000%N;
     per_dir_config := config;
     server_module_config := {| defaultUser := None |} |}.

(** [n] bytes of upload. *)
Fixpoint bytes (n : nat) : string :=
  match n with
  | O => EmptyString
  | S n' => String "x" (bytes n')
  end.

Definition plain_host : Host := host [] (Found false) false [] (Ok 1%Z).

(** The document root is the [public] directory of a Rails application;
    [files] exist. *)
Definition rails_host (files : list string) : Host :=
  host files (Found true) false [] (Ok 1%Z).

(** The marker probe of the document root fails: [stat] says [EPERM]. *)
Definition denied : exn :=
  FileSystemException "Cannot stat '/website/config/environment.rb'" EPERM
    "/website/config/environment.rb".

Definition broken_host : Host :=
  host []
    (Failed "Cannot stat '/website/config/environment.rb'" EPERM
       "/website/config/environment.rb")
    false [] (Ok 1%Z).

(** A request below the second of two Rails base URIs. *)
Definition blog_request : request_rec :=
  request M_GET "GET" "/blog/posts" (Some "/website/public/blog/posts"%string)
    [] (config ["/blog"; "/shop"]%string ["/"]%string).

Definition M_OPTIONS : Z := 5.

(** [OPTIONS * HTTP/1.1], with the Rails base URI ["/"] configured. *)
Definition star_request : request_rec :=
  request M_OPTIONS "OPTIONS" "*" None [] (config ["/"]%string []).

(** The host expects a request body, which the client sends as [body]. *)
Definition upload_host (body : list string) : Host :=
  host [] (Found true) true body (Ok 1%Z).

Definition error_page : string :=
  "<html><body><h1>The application could not be started.</h1></body></html>".

(** The spawn server fails and sends an error page. *)
Definition failing_host : Host :=
  host [] (Found true) false []
    (Raise (SpawnException "The spawn server failed." (Some error_page))).

(** Every worker is busy. *)
Definition busy_host : Host :=
  host [] (Found true) false [] (Raise (BusyException "The pool is full.")).

(** What [handleRequest] asks the pool for on these hosts. *)
Definition rails_get : pool_get_args :=
  {| pg_appRoot := "/website"; pg_lowerPrivilege := true;
     pg_user := "nobody"; pg_environment := "production";
     pg_spawnMethod := "smart"; pg_appType := "rails" |}.

Definition a_get : request_rec :=
  request M_GET "GET" "/posts" (Some "/website/public/posts"%string) []
    (config [] []).

Definition a_post (length : string) : request_rec :=
  request M_POST "POST" "/posts" (Some "/website/public/posts"%string)
    [(Some "Host"%string, Some "test.com"%string);
     (Some "Content-Length"%string, Some length)]
    (config [] []).

End Example.


(** ** More ways to read strings and tables *)

(** Every character of [s] satisfies [p]. *)
Fixpoint all_chars (p : ascii -> bool) (s : string) : bool :=
  match s with
  | EmptyString => true
  | String c s' => p c && all_chars p s'
  end.

Definition no_space (s : string) : bool :=
  all_chars (fun c => negb (apr_isspace c)) s.

(** What ends a token of the request line: the end of the line or a
    white space character. *)
Definition token_end (s : string) : bool :=
  match s with
  | EmptyString => true
  | String c _ => apr_isspace c
  end.

(** The 256 characters. *)
Definition all_ascii : list ascii := map ascii_of_nat (seq 0 256).

(** The character of a CGI name that stands for [c]. *)
Definition env_char (c : ascii) : ascii :=
  if Ascii.eqb c "-" then "_"%char else apr_toupper c.

(** An entry of a table whose key is not NULL and is [name] up to
    case. *)
Definition names (name : string) (e : cstr * cstr) : bool :=
  match fst e with
  | Some key => strcasecmp_eq key name
  | None => false
  end.

(** ** The mapper, resolved *)

(** The invariant of a [DirectoryMapper]: it holds an application type
    exactly when it holds a base URI, and neither before the base URI is
    known. *)
Definition typed_mapper (m : DirectoryMapper) : Prop :=
  (baseURI m = None <-> appType m = NONE) /\
  (baseURIKnown m = false -> baseURI m = None).

(** The mapper of a request that goes to the application: it knows a
    base URI and a type. *)
Definition resolved_mapper (m : DirectoryMapper) : Prop :=
  baseURIKnown m = true /\ (exists b, baseURI m = Some b) /\
  appType m <> NONE.

Definition is_rails (t : ApplicationType) : bool :=
  match t with RAILS => true | _ => false end.

(** The name of an application type, as [getApplicationTypeString]
    returns it. *)
Definition type_name (t : ApplicationType) : cstr :=
  match t with
  | RAILS => Some "rails"%string
  | RACK => Some "rack"%string
  | WSGI => Some "wsgi"%string
  | NONE => None
  end.

(** ** The blocks of the request body *)

(** The blocks of the request body: what [ap_get_client_block] delivers
    before it says that the stream has ended. *)
Fixpoint body_blocks (blocks : list string) : list string :=
  match blocks with
  | [] => []
  | EmptyString :: _ => []
  | b :: rest => b :: body_blocks rest
  end.

(** The calls of the streaming [sendRequestBody] for these blocks: each
    is read, then sent. *)
Definition streamed (blocks : list string) : list event :=
  flat_map (fun b => [EvGetClientBlock b; EvSession (S_sendBodyBlock b)])
    blocks.

(** The blocks handed to [sendBodyBlock], in order. *)
Fixpoint sent_blocks (tr : list event) : list string :=
  match tr with
  | [] => []
  | EvSession (S_sendBodyBlock b) :: rest => b :: sent_blocks rest
  | _ :: rest => sent_blocks rest
  end.

Fixpoint concat_blocks (l : list string) : string :=
  match l with
  | [] => EmptyString
  | b :: rest => b +++ concat_blocks rest
  end.

(** ** What a request is served with *)

(** The page of [reportDocumentRootDeterminationError]. *)
Definition document_root_error : list event :=
  [EvSetContentType "text/html; charset=UTF-8";
   EvRputs ("<h1>Passenger error #1</h1>" +++ String "010" EmptyString);
   EvRputs "Cannot determine the document root for the current request."].

(** The state holds the request as the host handed it over, and the
    mapper has resolved an application. *)
Definition ready {host : Host} (r : request_rec) (s : state) : Prop :=
  st_r s = r /\ st_client s = client_blocks /\
  resolved_mapper (st_mapper s) /\
  fst (getBaseURI (initial r)) = Ret (baseURI (st_mapper s)) /\
  st_mapper (snd (getBaseURI (initial r))) = st_mapper s.

(** The state holds the request [r] and the mapper [m]. *)
Definition serves (r : request_rec) (m : DirectoryMapper) (s : state)
  : Prop :=
  st_r s = r /\ st_mapper s = m.

(** [m], run on the request [r] with the mapper [mp], changes neither
    and makes only calls that satisfy [P]; when [D] holds it does nothing
    that C++ leaves undefined. *)
Definition safe (r : request_rec) (mp : DirectoryMapper) (P : event -> bool)
  (D : Prop) {A} (m : M A) : Prop :=
  forall s, serves r mp s ->
    serves r mp (snd (m s)) /\ grows P s (snd (m s)) /\
    (D -> fst (m s) <> Undefined).

Definition is_headers (c : session_call) : bool :=
  match c with S_sendHeaders _ => true | _ => false end.

(** The arguments [a] are those with which to spawn the application of
    the request [r], resolved as the mapper [m] says: the root is the
    parent of the public directory, made canonical; the user is the
    default user and its privileges are dropped; the environment is the
    one configured for the type. *)
Definition spawn_check {host : Host} (r : request_rec) (m : DirectoryMapper)
  (a : pool_get_args) : bool :=
  match canonicalizePath
          (Resolver.public_directory (ap_document_root r) (baseURI m)
           +++ "/..") with
  | Found root => String.eqb (pg_appRoot a) root
  | Failed _ _ _ => false
  end
  && pg_lowerPrivilege a
  && String.eqb (pg_user a)
       (match defaultUser (server_module_config r) with
        | Some u => u
        | None => "nobody"%string
        end)
  && String.eqb (pg_spawnMethod a)
       (match spawnMethod (per_dir_config r) with
        | SM_CONSERVATIVE => "conservative"%string
        | _ => "smart"%string
        end)
  && match appType m with
     | RAILS =>
         String.eqb (pg_appType a) "rails"
         && String.eqb (pg_environment a)
              (match railsEnv (per_dir_config r) with
               | Some e => e
               | None => "production"%string
               end)
     | RACK =>
         String.eqb (pg_appType a) "rack"
         && String.eqb (pg_environment a)
              (match rackEnv (per_dir_config r) with
               | Some e => e
               | None => "production"%string
               end)
     | WSGI =>
         String.eqb (pg_appType a) "wsgi"
         && String.eqb (pg_environment a) "production"
     | NONE => false
     end.

(** The buffer is the payload of the header table of [r] for the base
    URI of [m]. *)
Definition payload_check {host : Host} (r : request_rec)
  (m : DirectoryMapper) (buffer : string) : bool :=
  match baseURI m with
  | Some b =>
      match header_buffer (sendHeaders_table r b) with
      | Some payload => String.eqb buffer payload
      | None => false
      end
  | None => false
  end.

(** What the pool and the session are given is what the request [r] and
    the mapper [m] say. *)
Definition as_resolved {host : Host} (r : request_rec) (m : DirectoryMapper)
  (e : event) : bool :=
  match e with
  | EvPoolGet a => spawn_check r m a
  | EvSession (S_sendHeaders buffer) => payload_check r m buffer
  | _ => true
  end.

(** ** The order of the calls on a session *)

(** The calls made on the session, in order. *)
Fixpoint session_calls (tr : list event) : list session_call :=
  match tr with
  | [] => []
  | EvSession c :: rest => c :: session_calls rest
  | _ :: rest => session_calls rest
  end.

(** The place of a call in the exchange of lines 715-751. *)
Definition rank (c : session_call) : nat :=
  match c with
  | S_setReaderTimeout _ => 0
  | S_setWriterTimeout _ => 1
  | S_sendHeaders _ => 2
  | S_sendBodyBlock _ => 3
  | S_shutdownWriter => 4
  | S_getStream => 5
  | S_discardStream => 6
  end.

(** The least rank of what may follow [c]: a body block may follow a
    body block, any other call is made once. *)
Definition next_rank (c : session_call) : nat :=
  match c with
  | S_sendBodyBlock _ => rank c
  | _ => S (rank c)
  end.

(** The calls [l] are in the order of the exchange, none before the
    place [lo]. *)
Fixpoint in_order (lo : nat) (l : list session_call) : bool :=
  match l with
  | [] => true
  | c :: rest => (lo <=? rank c)%nat && in_order (next_rank c) rest
  end.

(** [m], run on the request [r] with the mapper [mp], changes neither
    and makes its session calls in order, between the places [lo] and
    [hi]. *)
Definition ordered (r : request_rec) (mp : DirectoryMapper) (lo hi : nat)
  {A} (m : M A) : Prop :=
  forall s, serves r mp s ->
    serves r mp (snd (m s)) /\
    exists evs,
      st_trace (snd (m s)) = st_trace s ++ evs /\
      in_order lo (session_calls evs) = true /\
      forallb (fun c => (next_rank c <=? hi)%nat) (session_calls evs) = true.

(** ** More hosts to run the hooks on *)

Module Scenario.

(** A host whose document root is [root] and holds a Rails application,
    where no file exists, whose [ap_setup_client_block] answers [setup],
    whose client sends [body], whose [fwrite] writes as [writes] says and
    whose session answers as [answers] says. *)
Definition host (root : string) (setup : Z) (body : list string)
  (writes : nat -> nat -> nat) (answers : session_call -> result unit)
  : Host :=
  {| ap_get_server_version := Some "Apache/2.2.9 (Unix)"%string;
     ap_get_server_name := fun _ => Some "test.com"%string;
     ap_get_server_port := fun _ => 80%N;
     ap_document_root := fun _ => root;
     ap_escape_html := Example.escape_html;
     ap_setup_client_block := fun _ => setup;
     ap_should_client_block := fun _ => true;
     client_blocks := body;
     client_error := false;
     apr_table_make_ok := true;
     fileExists := fun _ => Found false;
     verifyRailsDir := fun _ => Found true;
     verifyRackDir := fun _ => Found false;
     verifyWSGIDir := fun _ => Found false;
     canonicalizePath := fun _ => Found "/website"%string;
     TempFile_new := Ok tt;
     fwrite := writes;
     errno := 0%Z;
     pool_get := fun _ => Ok 1%Z;
     session_answer := answers |}.

Definition HTTP_BAD_REQUEST : Z := 400.

(** [ap_setup_client_block] refuses the request body. *)
Definition refusing_host : Host :=
  host "/website/public/" HTTP_BAD_REQUEST [] (fun _ n => n)
    (fun _ => Ok tt).

(** No document root is configured. *)
Definition rootless_host : Host :=
  host "" OK [] (fun _ n => n) (fun _ => Ok tt).

(** An upload of 9000 bytes: an ['a'], then ['x'] all along. *)
Definition upload : string := String "a" (Example.bytes (90 * 100 - 1)).

(** What the temporary file holds of it after the short write. *)
Definition torn_upload : string :=
  String "a" (String "a" (Example.bytes (90 * 100 - 2))).

(** The client sends [upload] in one block; the first [fwrite] on the
    empty temporary file writes one byte only, the others write all they
    are asked for. *)
Definition short_writing_host : Host :=
  host "/website/public/" OK [upload]
    (fun size n => if (size =? 0)%nat then 1 else n) (fun _ => Ok tt).



End Scenario.

(** * Properties *)

(** ** The header payload *)

Section HeaderPayload.

Import Reference.

Lemma append_assoc (a b c : string) : (a +++ b) +++ c = a +++ b +++ c.
Proof. induction a as [|x a IH]; simpl; [reflexivity | now rewrite IH]. Qed.

Lemma append_empty_r (a : string) : a +++ EmptyString = a.
Proof. induction a as [|x a IH]; simpl; [reflexivity | now rewrite IH]. Qed.

Lemma append_headers_pairs (hs : list (string * string)) (acc : string) :
  append_headers acc (table_of_pairs hs) = Some (acc +++ flat_pairs hs).
Proof.
  revert acc; induction hs as [|[k v] hs IH]; intros acc; simpl.
  - now rewrite append_empty_r.
  - rewrite IH. f_equal. unfold flat_pair; simpl.
    now rewrite !append_assoc.
Qed.

Lemma fields_field (k rest : string) :
  nul_free k = true ->
  fields NUL (k +++ String NUL rest) = k :: fields NUL rest.
Proof.
  induction k as [|c k IH]; simpl; intros H.
  - reflexivity.
  - apply andb_prop in H as [Hc Hk].
    apply negb_true_iff in Hc. rewrite Hc, (IH Hk). reflexivity.
Qed.

Lemma fields_flat_pairs (hs : list (string * string)) (tail : string) :
  Forall pair_nul_free hs ->
  fields NUL (flat_pairs hs +++ tail) = flat_fields hs ++ fields NUL tail.
Proof.
  induction 1 as [|[k v] hs [Hk Hv] _ IH]; simpl in *.
  - reflexivity.
  - unfold flat_pair; simpl. rewrite !append_assoc; simpl.
    rewrite (fields_field k _ Hk). rewrite append_assoc; simpl.
    rewrite (fields_field v _ Hv). now rewrite IH.
Qed.

Lemma drop_trailing_empty_app (l tl : list string) :
  drop_trailing_empty tl <> [] ->
  drop_trailing_empty (l ++ tl) = l ++ drop_trailing_empty tl.
Proof.
  intros H; induction l as [|f l IH]; simpl; [reflexivity|].
  rewrite IH. destruct (l ++ drop_trailing_empty tl) eqn:E; [|reflexivity].
  apply app_eq_nil in E as [_ E]. contradiction.
Qed.

Lemma length_flat_fields (hs : list (string * string)) :
  length (flat_fields hs) = 2 * length hs.
Proof. induction hs as [|p hs IH]; simpl; [reflexivity | rewrite IH; lia]. Qed.

Lemma pairs_flat_fields (hs : list (string * string)) :
  pairs (flat_fields hs) = hs.
Proof.
  induction hs as [|[k v] hs IH]; simpl; [reflexivity | now rewrite IH].
Qed.

Lemma even_double (n : nat) : Nat.even (2 * n) = true.
Proof. rewrite Nat.even_mul. reflexivity. Qed.

(** C1.  For every sequence of (name, value) pairs of C strings, values
    (and names) possibly empty, the buffer that [sendHeaders] builds from
    the table holding them is defined, the reference splitter cuts it
    into an even number of fields that end with the two sentinel fields,
    and the fields before the sentinel, taken two by two, are the
    original pairs in their order. *)
Theorem sendHeaders_buffer_roundtrip (hs : list (string * string)) :
  Forall pair_nul_free hs ->
  exists buffer,
    header_buffer (table_of_pairs hs) = Some buffer /\
    let fs := split NUL buffer in
    Nat.even (length fs) = true /\
    skipn (length fs - 2) fs = [String "_" EmptyString; String "_" EmptyString] /\
    pairs (firstn (length fs - 2) fs) = hs.
Proof.
  intros Hhs. unfold header_buffer.
  rewrite append_headers_pairs; simpl.
  eexists; split; [reflexivity|].
  unfold split. rewrite (fields_flat_pairs hs sentinel Hhs).
  rewrite drop_trailing_empty_app by (simpl; discriminate).
  simpl drop_trailing_empty. cbv zeta.
  rewrite length_app, length_flat_fields; simpl length.
  replace (2 * length hs + 2 - 2) with (length (flat_fields hs))
    by (rewrite length_flat_fields; lia).
  repeat split.
  - replace (2 * length hs + 2) with (2 * (length hs + 1)) by lia.
    apply even_double.
  - rewrite skipn_app, skipn_all, Nat.sub_diag. reflexivity.
  - rewrite firstn_app, firstn_all, Nat.sub_diag; simpl.
    rewrite app_nil_r. apply pairs_flat_fields.
Qed.

Lemma sendHeaders_buffer_roundtrip_witness :
  let hs := [("SSL_CLIENT_CERT"%string, ""%string);
             (""%string, "x"%string)] in
  Forall pair_nul_free hs /\
  exists buffer,
    header_buffer (table_of_pairs hs) = Some buffer /\
    let fs := split NUL buffer in
    Nat.even (length fs) = true /\
    skipn (length fs - 2) fs = [String "_" EmptyString; String "_" EmptyString] /\
    pairs (firstn (length fs - 2) fs) = hs.
Proof.
  assert (H : Forall pair_nul_free
                [("SSL_CLIENT_CERT"%string, ""%string);
                 (""%string, "x"%string)])
    by (repeat constructor).
  split; [exact H|].
  exact (sendHeaders_buffer_roundtrip _ H).
Defined.

End HeaderPayload.

(** ** The directory resolver *)

Section ResolverProperties.

Context {host : Host}.

Lemma ascii_eqb_sym (a b : ascii) : Ascii.eqb a b = Ascii.eqb b a.
Proof.
  destruct (Ascii.eqb_spec a b) as [->|Hab].
  - now rewrite Ascii.eqb_refl.
  - symmetry. apply Ascii.eqb_neq. congruence.
Qed.

Lemma memcmp_cons (c d : ascii) (a b : string) (n : nat) :
  memcmp (String c a) (String d b) (S n) =
  if Ascii.eqb c d then memcmp a b n
  else if (nat_of_ascii c <? nat_of_ascii d)%nat then (-1)%Z else 1%Z.
Proof. reflexivity. Qed.

Lemma memcmp_differ (c d : ascii) :
  ((if (nat_of_ascii c <? nat_of_ascii d)%nat then (-1)%Z else 1%Z) =? 0)%Z
  = false.
Proof. destruct (nat_of_ascii c <? nat_of_ascii d)%nat; reflexivity. Qed.

(** The second disjunct of the source condition is equality. *)
Lemma whole_uri_matches (uri base : string) :
  (String.length uri =? String.length base)%nat
  && (memcmp uri base (String.length uri) =? 0)%Z
  = String.eqb base uri.
Proof.
  revert base; induction uri as [|c uri IH]; intros [|d base];
    try reflexivity.
  cbn [String.length Nat.eqb String.eqb]. rewrite memcmp_cons.
  rewrite (ascii_eqb_sym d c).
  destruct (Ascii.eqb c d).
  - apply IH.
  - rewrite memcmp_differ. apply andb_false_r.
Qed.

Lemma prefix_cons (a b : ascii) (s1 s2 : string) :
  String.prefix (String a s1) (String b s2) =
  if Ascii.eqb a b then String.prefix s1 s2 else false.
Proof.
  change (String.prefix (String a s1) (String b s2))
    with (match ascii_dec a b with
          | left _ => String.prefix s1 s2
          | right _ => false
          end).
  destruct (ascii_dec a b) as [->|Hab].
  - now rewrite Ascii.eqb_refl.
  - apply Ascii.eqb_neq in Hab. now rewrite Hab.
Qed.

Lemma prefix_empty (s : string) : String.prefix EmptyString s = true.
Proof. now destruct s. Qed.

(** The third one is a prefix that ends at a ['/'] of the URI. *)
Lemma prefix_uri_matches (uri base : string) :
  (String.length base <? String.length uri)%nat
  && (memcmp uri base (String.length base) =? 0)%Z
  && Ascii.eqb (char_at uri (String.length base)) "/"
  = String.prefix (base +++ "/") uri.
Proof.
  revert uri; induction base as [|d base IH]; intros [|c uri];
    try reflexivity.
  - cbn [String.length String.append]. rewrite prefix_cons, prefix_empty.
    change (char_at (String c uri) 0) with c.
    rewrite (ascii_eqb_sym "/" c). now destruct (Ascii.eqb c "/").
  - cbn [String.length String.append]. rewrite prefix_cons, memcmp_cons.
    change (S (String.length base) <? S (String.length uri))%nat
      with (String.length base <? String.length uri)%nat.
    change (char_at (String c uri) (S (String.length base)))
      with (char_at uri (String.length base)).
    rewrite (ascii_eqb_sym d c).
    destruct (Ascii.eqb c d).
    + apply IH.
    + rewrite memcmp_differ, andb_false_r. reflexivity.
Qed.

Lemma base_matches_spec (uri base : string) :
  base_matches uri base = Resolver.matches uri base.
Proof.
  unfold base_matches, Resolver.matches, strlen.
  now rewrite whole_uri_matches, prefix_uri_matches.
Qed.

Lemma find_base_spec (uri : string) (bases : list string) :
  find_base uri bases = find (Resolver.matches uri) bases.
Proof.
  induction bases as [|b bases IH]; simpl; [reflexivity|].
  rewrite base_matches_spec, IH. reflexivity.
Qed.

Lemma should_detect_rails (c : DirConfig) :
  shouldAutoDetectRails c = Resolver.enabled (autoDetectRails c).
Proof. unfold shouldAutoDetectRails. now destruct (autoDetectRails c). Qed.

Lemma should_detect_rack (c : DirConfig) :
  shouldAutoDetectRack c = Resolver.enabled (autoDetectRack c).
Proof. unfold shouldAutoDetectRack. now destruct (autoDetectRack c). Qed.

Lemma should_detect_wsgi (c : DirConfig) :
  shouldAutoDetectWSGI c = Resolver.enabled (autoDetectWSGI c).
Proof. unfold shouldAutoDetectWSGI. now destruct (autoDetectWSGI c). Qed.

Lemma slash_guard (u : string) :
  Resolver.begins_with_slash u <->
  (String.length u =? 0)%nat || negb (Ascii.eqb (char_at u 0) "/") = false.
Proof.
  unfold Resolver.begins_with_slash. destruct u as [|c u]; cbn.
  - split; [intros [? ?]|]; discriminate.
  - destruct (Ascii.eqb_spec c "/") as [->|Hc]; cbn; split; eauto.
    + intros [rest E]. congruence.
    + discriminate.
Qed.

Ltac run_probe ans :=
  destruct ans as [[|]|? ? ?]; cbn; try (split; reflexivity).

(** C5 (amended).  For every request whose URI begins with ['/'] and
    every configuration, a fresh [DirectoryMapper] resolves as the
    specification says: the first matching Rails base URI, else the first
    matching Rack base URI, else ["/"] with the first type among Rails,
    Rack and WSGI whose detection is enabled and whose marker probe of
    the document root succeeds, else NULL; and the filesystem is probed
    in exactly that order. *)
Theorem getBaseURI_resolves (r : request_rec) :
  Resolver.begins_with_slash (uri r) ->
  Resolver.resolved (getBaseURI (initial r)) = Resolver.resolve r /\
  st_trace (snd (getBaseURI (initial r))) = Resolver.probes r.
Proof.
  intros Hslash. apply slash_guard in Hslash.
  unfold Resolver.resolved, Resolver.resolve, Resolver.probes,
    getBaseURI, bind, get_mapper, get_request.
  cbn [initial st_mapper st_r DirectoryMapper_new baseURIKnown].
  unfold strlen. rewrite Hslash, !find_base_spec.
  destruct (find _ (railsBaseURIs _)) as [b|]; [split; reflexivity|].
  destruct (find _ (rackBaseURIs _)) as [b|]; [split; reflexivity|].
  rewrite should_detect_rails, should_detect_rack, should_detect_wsgi.
  unfold Resolver.detect, Resolver.probe_seq, probe_call, bind, log, lift,
    of_fs.
  destruct (Resolver.enabled (autoDetectRails _));
    [run_probe (verifyRailsDir (ap_document_root r))|];
    (destruct (Resolver.enabled (autoDetectRack _));
     [run_probe (verifyRackDir (ap_document_root r))|]);
    (destruct (Resolver.enabled (autoDetectWSGI _));
     [run_probe (verifyWSGIDir (ap_document_root r))|]);
    cbn; split; reflexivity.
Qed.

Ltac probe_cases ans :=
  destruct ans as [[|]|? ? ?]; cbn.

Ltac getBaseURI_cases s :=
  unfold getBaseURI, bind, get_mapper, get_request, strlen;
  destruct (baseURIKnown (st_mapper s)) eqn:Hknown; cbn;
  [|destruct ((String.length (uri (st_r s)) =? 0)%nat
              || negb (Ascii.eqb (char_at (uri (st_r s)) 0) "/")) eqn:Hguard;
    cbn;
    [|destruct (find_base (uri (st_r s))
                  (railsBaseURIs (per_dir_config (st_r s)))) eqn:Hrails;
      cbn;
      [|destruct (find_base (uri (st_r s))
                    (rackBaseURIs (per_dir_config (st_r s)))) eqn:Hrack;
        cbn;
        [|unfold probe_call, bind, log, lift, of_fs;
          destruct (shouldAutoDetectRails (per_dir_config (st_r s)));
          [probe_cases (verifyRailsDir (ap_document_root (st_r s)))|];
          try (destruct (shouldAutoDetectRack (per_dir_config (st_r s)));
               [probe_cases (verifyRackDir (ap_document_root (st_r s)))|]);
          try (destruct (shouldAutoDetectWSGI (per_dir_config (st_r s)));
               [probe_cases (verifyWSGIDir (ap_document_root (st_r s)))|]);
          cbn]]]].

Lemma getBaseURI_post (s s1 : state) (o : outcome cstr) :
  getBaseURI s = (o, s1) ->
  st_r s1 = st_r s /\ st_client s1 = st_client s /\
  forall base, o = Ret base ->
    baseURIKnown (st_mapper s1) = true /\
    (wf_mapper (st_mapper s) -> baseURI (st_mapper s1) = base).
Proof.
  unfold wf_mapper.
  getBaseURI_cases s; intros H; inversion H; subst; cbn;
    (split; [reflexivity|]); (split; [reflexivity|]);
    intros base E; inversion E; subst; auto.
Qed.

Lemma strip_slash_take (docRoot : string) :
  (0 < String.length docRoot)%nat ->
  (if Ascii.eqb (char_at docRoot (String.length docRoot - 1)) "/"
   then take (String.length docRoot - 1) docRoot
   else take (String.length docRoot) docRoot)
  = Resolver.strip_slash docRoot.
Proof.
  induction docRoot as [|c [|d rest] IH]; intros Hlen.
  - inversion Hlen.
  - cbn. now destruct (Ascii.eqb c "/").
  - assert (IH' := IH ltac:(cbn; lia)). clear IH.
    cbn [String.length Nat.sub] in *. rewrite Nat.sub_0_r in *.
    change (char_at (String c (String d rest)) (S (String.length rest)))
      with (char_at (String d rest) (String.length rest)).
    change (Resolver.strip_slash (String c (String d rest)))
      with (String c (Resolver.strip_slash (String d rest))).
    rewrite <- IH'.
    destruct (Ascii.eqb (char_at (String d rest) (String.length rest)) "/");
      reflexivity.
Qed.

Lemma public_directory_code (docRoot b : string) :
  (if (0 <? strlen docRoot)%nat then
     (if negb (strcmp_eq b "/")
      then (if Ascii.eqb (char_at docRoot (strlen docRoot - 1)) "/"
            then take (strlen docRoot - 1) docRoot
            else take (strlen docRoot) docRoot) +++ b
      else (if Ascii.eqb (char_at docRoot (strlen docRoot - 1)) "/"
            then take (strlen docRoot - 1) docRoot
            else take (strlen docRoot) docRoot))
   else EmptyString)
  = Resolver.public_directory docRoot (Some b).
Proof.
  unfold Resolver.public_directory, strlen, strcmp_eq.
  destruct docRoot as [|c rest]; [reflexivity|].
  change (String.eqb (String c rest) EmptyString) with false.
  change (0 <? String.length (String c rest))%nat with true.
  cbv iota. rewrite strip_slash_take by (cbn; lia).
  now destruct (String.eqb b "/").
Qed.

(** C6.  With a mapper as the constructor or [getBaseURI] left it:
    whenever [getBaseURI] resolves (to a base URI or to NULL),
    [getPublicDirectory] returns the document root with one trailing
    ['/'] stripped and the base URI appended unless it is ["/"]; it
    returns the empty string when no base URI was resolved or the
    document root is empty. *)
Theorem getPublicDirectory_spec (s s1 : state) (base : cstr) :
  wf_mapper (st_mapper s) ->
  getBaseURI s = (Ret base, s1) ->
  getPublicDirectory s =
    (Ret (Resolver.public_directory (ap_document_root (st_r s)) base), s1).
Proof.
  intros Hwf Hbase.
  destruct (getBaseURI_post _ _ _ Hbase) as (Hr & _ & Hpost).
  destruct (Hpost base eq_refl) as [Hknown Hb]. specialize (Hb Hwf).
  assert (Htail :
    (m <- get_mapper ;;
     match baseURI m with
     | None => ret ""%string
     | Some baseURI =>
         r <- get_request ;;
         let docRoot := ap_document_root r in
         let len := strlen docRoot in
         if (0 <? len)%nat then
           let path :=
             if Ascii.eqb (char_at docRoot (len - 1)) "/"
             then take (len - 1) docRoot
             else take len docRoot in
           let path :=
             if negb (strcmp_eq baseURI "/") then path +++ baseURI else path in
           ret path
         else ret ""%string
     end) s1
    = (Ret (Resolver.public_directory (ap_document_root (st_r s)) base), s1)).
  { unfold bind, get_mapper, get_request, ret. rewrite Hb.
    destruct base as [b|]; [|reflexivity].
    rewrite Hr, <- public_directory_code.
    destruct (0 <? strlen (ap_document_root (st_r s)))%nat; [|reflexivity].
    destruct (negb (strcmp_eq b "/")); reflexivity. }
  unfold getPublicDirectory. unfold bind at 1. unfold get_mapper at 1.
  destruct (baseURIKnown (st_mapper s)) eqn:K.
  - assert (s1 = s) as ->.
    { unfold getBaseURI, bind, get_mapper in Hbase. rewrite K in Hbase.
      unfold ret in Hbase. now inversion Hbase. }
    unfold bind at 1. unfold ret at 1. exact Htail.
  - unfold bind at 1. unfold bind at 1. rewrite Hbase.
    unfold ret at 1. exact Htail.
Qed.

Lemma no_slash_guard (u : string) :
  ~ Resolver.begins_with_slash u ->
  (String.length u =? 0)%nat || negb (Ascii.eqb (char_at u 0) "/") = true.
Proof.
  intros H.
  destruct ((String.length u =? 0)%nat || negb (Ascii.eqb (char_at u 0) "/"))
    eqn:E; [reflexivity|].
  apply slash_guard in E. contradiction.
Qed.

(** C10.  For every request whose URI is empty or does not begin with
    ['/'], whatever the configuration and the filesystem, a fresh mapper's
    [getBaseURI] returns NULL and only marks the base URI as known, with
    no call made outside the module (the trace stays empty: no filesystem
    probe); [handleRequest] and [mapToStorage] then decline the request,
    likewise without any call. *)
Theorem getBaseURI_needs_slash (r : request_rec) :
  ~ Resolver.begins_with_slash (uri r) ->
  let declined :=
    {| st_r := r; st_mapper := mapper_known DirectoryMapper_new;
       st_client := client_blocks; st_trace := [] |} in
  getBaseURI (initial r) = (Ret None, declined) /\
  handleRequest (initial r) = (Ret DECLINED, declined) /\
  mapToStorage (initial r) = (Ret DECLINED, declined).
Proof.
  intros H. apply no_slash_guard in H.
  assert (Hbase : getBaseURI (initial r)
                  = (Ret None,
                     {| st_r := r; st_mapper := mapper_known DirectoryMapper_new;
                        st_client := client_blocks; st_trace := [] |})).
  { unfold getBaseURI, bind, get_mapper, get_request, strlen.
    cbn [initial st_mapper st_r DirectoryMapper_new baseURIKnown].
    rewrite H. reflexivity. }
  cbv zeta. split; [exact Hbase|]. split.
  - unfold handleRequest. unfold bind at 1.
    change (set_mapper DirectoryMapper_new (initial r))
      with (Ret tt, initial r). cbv iota beta.
    unfold bind at 1. unfold not_for_the_application.
    unfold bind at 1. unfold get_request at 1. cbv iota beta.
    unfold bind at 1. rewrite Hbase. reflexivity.
  - unfold mapToStorage. unfold bind at 1.
    change (set_mapper DirectoryMapper_new (initial r))
      with (Ret tt, initial r). cbv iota beta.
    unfold try_catch. unfold bind at 1. unfold forwardToApplication.
    unfold bind at 1. unfold get_request at 1. cbv iota beta.
    unfold bind at 1. rewrite Hbase. reflexivity.
Qed.

End ResolverProperties.

(** Runs of the resolver on the requests of [Example]. *)

Lemma getBaseURI_resolves_witness :
  Resolver.begins_with_slash (uri Example.blog_request) /\
  (Resolver.resolved
     (@getBaseURI Example.plain_host
        (@initial Example.plain_host Example.blog_request))
   = @Resolver.resolve Example.plain_host Example.blog_request /\
   st_trace
     (snd (@getBaseURI Example.plain_host
             (@initial Example.plain_host Example.blog_request)))
   = @Resolver.probes Example.plain_host Example.blog_request).
Proof.
  assert (H : Resolver.begins_with_slash (uri Example.blog_request))
    by (eexists; reflexivity).
  split; [exact H|].
  exact (@getBaseURI_resolves Example.plain_host Example.blog_request H).
Defined.

(** Counterexample to C5 as stated: the URI ["*"] of an [OPTIONS *]
    request does not begin with ['/'], so [getBaseURI] returns NULL
    although the Rails base URI ["/"] is configured and matches every
    URI. *)
Lemma getBaseURI_ignores_bases_without_slash :
  @Resolver.resolve Example.plain_host Example.star_request
  = Ret (Some ("/"%string, RAILS)) /\
  Resolver.resolved
    (@getBaseURI Example.plain_host
       (@initial Example.plain_host Example.star_request))
  = Ret None.
Proof. split; reflexivity. Qed.

Lemma getPublicDirectory_spec_witness :
  wf_mapper (st_mapper (@initial Example.plain_host Example.blog_request)) /\
  @getPublicDirectory Example.plain_host
    (@initial Example.plain_host Example.blog_request)
  = (Ret "/website/public/blog"%string,
     {| st_r := Example.blog_request;
        st_mapper := mapper_found "/blog" RAILS;
        st_client := []; st_trace := [] |}).
Proof.
  assert (H : wf_mapper
                (st_mapper (@initial Example.plain_host Example.blog_request)))
    by (intros _; reflexivity).
  split; [exact H|].
  exact (@getPublicDirectory_spec Example.plain_host
           (@initial Example.plain_host Example.blog_request)
           _ (Some "/blog"%string) H eq_refl).
Defined.

Lemma getBaseURI_needs_slash_witness :
  ~ Resolver.begins_with_slash (uri Example.star_request) /\
  @handleRequest Example.plain_host
    (@initial Example.plain_host Example.star_request)
  = (Ret DECLINED,
     {| st_r := Example.star_request;
        st_mapper := mapper_known DirectoryMapper_new;
        st_client := []; st_trace := [] |}).
Proof.
  assert (H : ~ Resolver.begins_with_slash (uri Example.star_request))
    by (intros [rest E]; discriminate E).
  split; [exact H|].
  exact (proj1 (proj2 (@getBaseURI_needs_slash Example.plain_host
                         Example.star_request H))).
Defined.

(** ** The CGI variable set *)

Section HeaderTable.

Context {host : Host}.

Lemma addHeader_present (t : apr_table) (n v : cstr) :
  addHeader t n v = t ++ present [(n, v)].
Proof.
  unfold addHeader, present, apr_table_addn.
  destruct n as [n|], v as [v|]; cbn; now rewrite ?app_nil_r.
Qed.

Lemma present_app (a b : apr_table) :
  present (a ++ b) = present a ++ present b.
Proof. apply filter_app. Qed.

Lemma present_cons (e e' : cstr * cstr) (t : apr_table) :
  present (e :: e' :: t) = present [e] ++ present (e' :: t).
Proof. exact (present_app [e] (e' :: t)). Qed.

Lemma cgi_variables_present (r : request_rec) (b : string) :
  cgi_variables r b [] = present (cgi_sources r b).
Proof.
  unfold cgi_variables, cgi_sources, strcmp_eq. cbv zeta.
  destruct (String.eqb b "/"); cbn [negb];
    rewrite !addHeader_present, !present_app, !present_cons, <- !app_assoc;
    destruct (args r); reflexivity.
Qed.

Lemma http_headers_present (hdrs t : apr_table) :
  http_headers hdrs t = t ++ present (http_sources hdrs).
Proof.
  revert t; induction hdrs as [|[[k|] v] hdrs IH]; intros t;
    cbn [http_headers].
  - cbn. now rewrite app_nil_r.
  - rewrite IH, addHeader_present.
    change (http_sources ((Some k, v) :: hdrs))
      with ([(Some (http2env k), v)] ++ http_sources hdrs).
    now rewrite present_app, app_assoc.
  - apply IH.
Qed.

Lemma env_variables_present (env t : apr_table) :
  env_variables env t = t ++ present env.
Proof.
  revert t; induction env as [|[k v] env IH]; intros t; cbn [env_variables].
  - cbn. now rewrite app_nil_r.
  - rewrite IH, addHeader_present.
    change (present ((k, v) :: env)) with (present ([(k, v)] ++ env)).
    now rewrite present_app, app_assoc.
Qed.

Lemma present_pairs (t : apr_table) :
  exists hs, present t = table_of_pairs hs.
Proof.
  induction t as [|[[n|] [v|]] t [hs IH]].
  - now exists [].
  - exists ((n, v) :: hs).
    change (present ((Some n, Some v) :: t))
      with ((Some n, Some v) :: present t).
    now rewrite IH.
  - now exists hs.
  - now exists hs.
  - now exists hs.
Qed.

(** C9.  For every request, the table that [sendHeaders] serialises is
    the list of everything it considers (the CGI variables, the request
    headers under their [HTTP_] names, the subprocess environment) with
    each entry whose name or value is NULL left out, in the same order: a
    variable without a value is omitted, no entry pairs a name with a
    missing value, and the payload is therefore always defined. *)
Theorem sendHeaders_omits_null (r : request_rec) (b : string) :
  sendHeaders_table r b = present (candidates r b) /\
  (forall name value, In (name, value) (sendHeaders_table r b) ->
     name <> None /\ value <> None /\ In (name, value) (candidates r b)) /\
  (forall name, In (Some name, None) (cgi_sources r b) ->
     ~ In (Some name) (table_names (cgi_variables r b []))) /\
  exists hs buffer,
    sendHeaders_table r b = table_of_pairs hs /\
    header_buffer (sendHeaders_table r b) = Some buffer.
Proof.
  assert (E : sendHeaders_table r b = present (candidates r b)).
  { unfold sendHeaders_table, candidates.
    rewrite env_variables_present, http_headers_present,
      cgi_variables_present, !present_app.
    now rewrite app_assoc. }
  split; [exact E|]. split; [|split].
  - intros name value Hin. rewrite E in Hin.
    apply filter_In in Hin as [Hin Hc].
    destruct name, value; try discriminate Hc.
    repeat split; try discriminate. exact Hin.
  - intros name Hnull Hin. rewrite cgi_variables_present in Hin.
    unfold table_names in Hin. apply in_map_iff in Hin as [[n v] [En Hin]].
    cbn in En; subst n. apply filter_In in Hin as [Hin Hc].
    destruct v as [v|]; [|discriminate Hc].
    revert Hnull Hin. unfold cgi_sources.
    destruct (String.eqb b "/"); cbn [app In];
      intros Hnull Hin;
      repeat (destruct Hnull as [Hnull|Hnull];
              [inversion Hnull; subst;
               repeat (destruct Hin as [Hin|Hin];
                       [inversion Hin; congruence|]);
               contradiction|]);
      contradiction.
  - destruct (present_pairs (candidates r b)) as [hs Hhs].
    rewrite E, Hhs. exists hs. unfold header_buffer.
    rewrite append_headers_pairs. eauto.
Qed.

End HeaderTable.

(** An anonymous request over plain HTTP without a body: no
    [REMOTE_USER], [HTTPS] or [CONTENT_TYPE] in the table. *)
Lemma sendHeaders_table_example :
  table_names (@sendHeaders_table Example.plain_host Example.a_get "/")
  = map Some
      ["SERVER_SOFTWARE"; "SERVER_PROTOCOL"; "SERVER_NAME"; "SERVER_ADMIN";
       "SERVER_ADDR"; "SERVER_PORT"; "REMOTE_ADDR"; "REMOTE_PORT";
       "REQUEST_METHOD"; "REQUEST_URI"; "QUERY_STRING"; "DOCUMENT_ROOT";
       "PATH_INFO"]%string.
Proof. reflexivity. Qed.

(** ** The static-file shortcut *)

Section StaticFiles.

Context {host : Host}.

Lemma probe_call_run {A} (p : probe) (f : string -> fs_result A)
  (path : string) (s : state) :
  probe_call p f path s = (of_fs (f path), logged s (EvFilesystem p path)).
Proof. reflexivity. Qed.

Lemma last_char_at (f : string) :
  last_char f =
  if (0 <? strlen f)%nat then Some (char_at f (strlen f - 1)) else None.
Proof.
  unfold strlen.
  induction f as [|c [|d rest] IH]; try reflexivity.
  change (last_char (String c (String d rest)))
    with (last_char (String d rest)).
  rewrite IH. cbn [String.length Nat.ltb Nat.leb Nat.sub].
  now rewrite Nat.sub_0_r.
Qed.

Lemma html_file_code (f : string) :
  (if (0 <? strlen f)%nat && Ascii.eqb (char_at f (strlen f - 1)) "/"
   then f +++ "index.html" else f +++ ".html")
  = Resolver.html_file f.
Proof.
  unfold Resolver.html_file. rewrite last_char_at.
  destruct (0 <? strlen f)%nat; cbn [andb]; [|reflexivity].
  destruct (Ascii.eqb_spec (char_at f (strlen f - 1)) "/") as [->|Hc];
    [reflexivity|].
  destruct (char_at f (strlen f - 1)) as [[] [] [] [] [] [] [] []];
    try reflexivity.
  now contradiction Hc.
Qed.

Ltac start_hook Hbase :=
  unfold bind at 1; unfold get_request at 1; cbv iota beta;
  unfold bind at 1; rewrite Hbase; cbv iota beta.

Ltac enter_forward Hbase Hfile :=
  unfold forwardToApplication; start_hook Hbase; cbn [initial st_r];
  rewrite Hfile; unfold bind at 1; rewrite probe_call_run.

Ltac enter_mapToStorage Hreset Hbase Hfile :=
  unfold mapToStorage; unfold bind at 1; rewrite Hreset; cbv iota beta;
  unfold try_catch; unfold bind at 1; enter_forward Hbase Hfile.

(** C3 (amended).  For an application request (a base URI is resolved)
    with a filename: when the resolved path exists the request is
    declined, by [mapToStorage] and by [handleRequest], whatever the
    method; when it does not exist and the request is a GET, the
    page-cache file (the path with [.html] appended, or [index.html] when
    the path ends in ['/']) is probed and, if it exists, the filename is
    rewritten to it and the request declined; a GET with no page-cache
    file and a non-GET request whose path does not exist are forwarded to
    the application, the latter without a probe of the page cache. *)
Theorem static_file_shortcut (r : request_rec) (b f : string) (s1 : state) :
  getBaseURI (initial r) = (Ret (Some b), s1) ->
  filename r = Some f ->
  (fileExists f = Found true ->
     forwardToApplication (initial r)
       = (Ret false, logged s1 (EvFilesystem P_fileExists f)) /\
     mapToStorage (initial r)
       = (Ret DECLINED, logged s1 (EvFilesystem P_fileExists f)) /\
     handleRequest (initial r)
       = (Ret DECLINED, logged s1 (EvFilesystem P_fileExists f))) /\
  (fileExists f = Found false -> method_number r = M_GET ->
     fileExists (Resolver.html_file f) = Found true ->
     fst (forwardToApplication (initial r)) = Ret false /\
     fst (mapToStorage (initial r)) = Ret DECLINED /\
     filename (st_r (snd (mapToStorage (initial r))))
       = Some (Resolver.html_file f) /\
     canonical_filename (st_r (snd (mapToStorage (initial r))))
       = Some (Resolver.html_file f)) /\
  (fileExists f = Found false -> method_number r = M_GET ->
     fileExists (Resolver.html_file f) = Found false ->
     fst (forwardToApplication (initial r)) = Ret true /\
     st_r (snd (forwardToApplication (initial r))) = r /\
     fst (not_for_the_application (initial r)) = Ret false) /\
  (fileExists f = Found false -> method_number r <> M_GET ->
     forwardToApplication (initial r)
       = (Ret true, logged s1 (EvFilesystem P_fileExists f)) /\
     fst (not_for_the_application (initial r)) = Ret false).
Proof.
  intros Hbase Hfile.
  destruct (getBaseURI_post _ _ _ Hbase) as (Hr & _ & _).
  cbn [initial st_r] in Hr.
  assert (Hreset : set_mapper DirectoryMapper_new (initial r)
                   = (Ret tt, initial r)) by reflexivity.
  assert (Hprobe : forall o,
    fileExists f = Found o ->
    not_for_the_application (initial r)
      = (Ret o, logged s1 (EvFilesystem P_fileExists f))).
  { intros o Ho. unfold not_for_the_application. start_hook Hbase.
    cbn [initial st_r]. rewrite Hfile, probe_call_run, Ho. reflexivity. }
  repeat split.
  - (* the path exists *)
    enter_forward Hbase Hfile. rewrite H. reflexivity.
  - enter_mapToStorage Hreset Hbase Hfile. rewrite H. reflexivity.
  - unfold handleRequest. unfold bind at 1. rewrite Hreset. cbv iota beta.
    unfold bind at 1. rewrite (Hprobe true H). reflexivity.
  - (* a GET served from the page cache *)
    enter_forward Hbase Hfile. rewrite H. cbn [of_fs]. cbv iota beta.
    rewrite H0. cbn [Z.eqb M_GET]. rewrite html_file_code.
    unfold bind at 1. rewrite probe_call_run, H1. reflexivity.
  - enter_mapToStorage Hreset Hbase Hfile. rewrite H. cbn [of_fs]. cbv iota beta.
    rewrite H0. cbn [Z.eqb M_GET]. rewrite html_file_code.
    unfold bind at 1. rewrite probe_call_run, H1. reflexivity.
  - enter_mapToStorage Hreset Hbase Hfile. rewrite H. cbn [of_fs]. cbv iota beta.
    rewrite H0. cbn [Z.eqb M_GET]. rewrite html_file_code.
    unfold bind at 1. rewrite probe_call_run, H1. reflexivity.
  - enter_mapToStorage Hreset Hbase Hfile. rewrite H. cbn [of_fs]. cbv iota beta.
    rewrite H0. cbn [Z.eqb M_GET]. rewrite html_file_code.
    unfold bind at 1. rewrite probe_call_run, H1. reflexivity.
  - (* a GET with no page-cache file *)
    enter_forward Hbase Hfile. rewrite H. cbn [of_fs]. cbv iota beta.
    rewrite H0. cbn [Z.eqb M_GET]. rewrite html_file_code.
    unfold bind at 1. rewrite probe_call_run, H1. reflexivity.
  - enter_forward Hbase Hfile. rewrite H. cbn [of_fs]. cbv iota beta.
    rewrite H0. cbn [Z.eqb M_GET]. rewrite html_file_code.
    unfold bind at 1. rewrite probe_call_run, H1. cbn. exact Hr.
  - now rewrite (Hprobe false H).
  - (* another method *)
    enter_forward Hbase Hfile. rewrite H. cbn [of_fs]. cbv iota beta.
    apply Z.eqb_neq in H0. rewrite H0. reflexivity.
  - now rewrite (Hprobe false H).
Qed.

End StaticFiles.

(** Runs of the shortcut on the requests of [Example]. *)

Lemma static_file_shortcut_witness :
  (@mapToStorage (Example.rails_host ["/website/public/posts"%string])
     (@initial (Example.rails_host ["/website/public/posts"%string])
        (Example.a_post "3"))
   = (Ret DECLINED,
      {| st_r := Example.a_post "3"; st_mapper := mapper_found "/" RAILS;
         st_client := [];
         st_trace := [EvFilesystem P_verifyRailsDir "/website/public/";
                      EvFilesystem P_fileExists "/website/public/posts"] |}))
  /\
  filename
    (st_r (snd (@mapToStorage
                  (Example.rails_host ["/website/public/posts.html"%string])
                  (@initial
                     (Example.rails_host ["/website/public/posts.html"%string])
                     Example.a_get))))
  = Some "/website/public/posts.html"%string
  /\
  fst (@forwardToApplication (Example.rails_host [])
         (@initial (Example.rails_host []) Example.a_get)) = Ret true
  /\
  fst (@forwardToApplication (Example.rails_host [])
         (@initial (Example.rails_host []) (Example.a_post "3"))) = Ret true.
Proof.
  split; [|split; [|split]].
  - exact (proj1 (proj2
      (proj1 (@static_file_shortcut
                (Example.rails_host ["/website/public/posts"%string])
                (Example.a_post "3") "/" "/website/public/posts" _
                eq_refl eq_refl)
         eq_refl))).
  - exact (proj1 (proj2 (proj2
      (proj1 (proj2
         (@static_file_shortcut
            (Example.rails_host ["/website/public/posts.html"%string])
            Example.a_get "/" "/website/public/posts" _ eq_refl eq_refl))
         eq_refl eq_refl eq_refl)))).
  - exact (proj1
      (proj1 (proj2 (proj2
         (@static_file_shortcut (Example.rails_host []) Example.a_get
            "/" "/website/public/posts" _ eq_refl eq_refl)))
         eq_refl eq_refl eq_refl)).
  - exact (f_equal fst (proj1
      (proj2 (proj2 (proj2
         (@static_file_shortcut (Example.rails_host []) (Example.a_post "3")
            "/" "/website/public/posts" _ eq_refl eq_refl)))
         eq_refl ltac:(discriminate)))).
Defined.

(** Counterexample to C3 as stated: a POST to a path that exists as a
    file is not forwarded to the application; [mapToStorage] and
    [handleRequest] both decline it, as they do for a GET. *)
Lemma existing_file_declines_a_post :
  method_number (Example.a_post "3") <> M_GET /\
  @fileExists (Example.rails_host ["/website/public/posts"%string])
    "/website/public/posts" = Found true /\
  fst (@forwardToApplication
         (Example.rails_host ["/website/public/posts"%string])
         (@initial (Example.rails_host ["/website/public/posts"%string])
            (Example.a_post "3"))) = Ret false /\
  fst (@mapToStorage
         (Example.rails_host ["/website/public/posts"%string])
         (@initial (Example.rails_host ["/website/public/posts"%string])
            (Example.a_post "3"))) = Ret DECLINED /\
  fst (@handleRequest
         (Example.rails_host ["/website/public/posts"%string])
         (@initial (Example.rails_host ["/website/public/posts"%string])
            (Example.a_post "3"))) = Ret DECLINED.
Proof. repeat split; try reflexivity. discriminate. Qed.

(** ** Filesystem errors *)

Section FilesystemErrors.

Context {host : Host}.

(** What [reportFileSystemError] (lines 315-329) writes and returns: the
    diagnostic names the file and the error, both HTML-escaped, with the
    hint about Apache's read permissions exactly when the code is
    [EPERM], and the status is [OK]. *)
Lemma reportFileSystemError_run (s : state) (what : string) (code : Z)
  (file : string) :
  fst (reportFileSystemError what code file s) = Ret OK /\
  exists evs,
    st_trace (snd (reportFileSystemError what code file s))
      = st_trace s ++ evs /\
    forallb is_response evs = true /\
    content_types evs = ["text/html; charset=UTF-8"%string] /\
    response_body evs
      = "<h1>Passenger error #2</h1>" +++ String "010" EmptyString
        +++ "An error occurred while trying to access '"
        +++ ap_escape_html (c_str file) +++ "': " +++ ap_escape_html what
        +++ (if (code =? EPERM)%Z then permission_hint else EmptyString).
Proof.
  unfold reportFileSystemError, ap_set_content_type, ap_rputs.
  destruct (code =? EPERM)%Z; cbn; rewrite <- !app_assoc; cbn [app];
    (split; [reflexivity|]); eexists; (split; [reflexivity|]);
    repeat split.
Qed.

End FilesystemErrors.

(** ** The request dispatcher *)

Section Dispatcher.

Context {host : Host}.

Lemma grows_refl (P : event -> bool) (s : state) : grows P s s.
Proof. split; [reflexivity|]. exists []. now rewrite app_nil_r. Qed.

Lemma grows_trans (P : event -> bool) (a b c : state) :
  grows P a b -> grows P b c -> grows P a c.
Proof.
  intros [Hr1 (e1 & H1 & F1)] [Hr2 (e2 & H2 & F2)]. split; [congruence|].
  exists (e1 ++ e2). rewrite H2, H1, app_assoc, forallb_app, F1, F2.
  now split.
Qed.

Lemma emits_ret {A} (P : event -> bool) (a : A) : emits P (ret a).
Proof. intros s. apply grows_refl. Qed.

Lemma emits_throw {A} (P : event -> bool) (e : exn) : emits P (@throw A e).
Proof. intros s. apply grows_refl. Qed.

Lemma emits_undefined {A} (P : event -> bool) : emits P (@undefined A).
Proof. intros s. apply grows_refl. Qed.

Lemma emits_lift {A} (P : event -> bool) (o : outcome A) : emits P (lift o).
Proof. intros s. apply grows_refl. Qed.

Lemma emits_get_request (P : event -> bool) : emits P get_request.
Proof. intros s. apply grows_refl. Qed.

Lemma emits_get_mapper (P : event -> bool) : emits P get_mapper.
Proof. intros s. apply grows_refl. Qed.

Lemma emits_get_client (P : event -> bool) : emits P get_client.
Proof. intros s. apply grows_refl. Qed.

Lemma emits_set_mapper (P : event -> bool) (m : DirectoryMapper) :
  emits P (set_mapper m).
Proof.
  intros s. split; [reflexivity|]. exists []. cbn. now rewrite app_nil_r.
Qed.

Lemma emits_set_client (P : event -> bool) (c : list string) :
  emits P (set_client c).
Proof.
  intros s. split; [reflexivity|]. exists []. cbn. now rewrite app_nil_r.
Qed.

Lemma emits_log (P : event -> bool) (e : event) :
  P e = true -> emits P (log e).
Proof.
  intros He s. split; [reflexivity|]. exists [e]. cbn. now rewrite He.
Qed.

Lemma emits_bind {A B} (P : event -> bool) (m : M A) (k : A -> M B) :
  emits P m -> (forall a, emits P (k a)) -> emits P (bind m k).
Proof.
  intros Hm Hk s. unfold bind. specialize (Hm s).
  destruct (m s) as [[a| |] s1]; cbn [snd] in *; try exact Hm.
  eapply grows_trans; [exact Hm|apply Hk].
Qed.

Ltac emit :=
  repeat first
    [ apply emits_ret | apply emits_throw | apply emits_undefined
    | apply emits_lift | apply emits_get_request | apply emits_get_mapper
    | apply emits_get_client | apply emits_set_mapper
    | apply emits_set_client
    | apply emits_log; reflexivity
    | solve [apply emits_log; auto]
    | apply emits_bind; [|intros ?]
    | match goal with
      | |- emits _ (if ?c then _ else _) => destruct c
      | |- emits _ (match ?x with _ => _ end) => destruct x
      end ].

Lemma emits_getBaseURI (P : event -> bool) :
  (forall e, is_filesystem e = true -> P e = true) ->
  emits P getBaseURI.
Proof. intros HP. unfold getBaseURI. emit. Qed.

Lemma emits_sendHeaders (P : event -> bool) (base : cstr) :
  (forall e, is_session e = true -> P e = true) ->
  emits P (sendHeaders base).
Proof. intros HP. unfold sendHeaders. emit. Qed.

Lemma emits_send_file_blocks (P : event -> bool) (fuel : nat) (rest : string) :
  (forall e, is_session e = true -> P e = true) ->
  emits P (send_file_blocks fuel rest).
Proof.
  intros HP. revert rest. induction fuel as [|fuel IH]; intros rest;
    cbn [send_file_blocks]; emit. apply IH.
Qed.

Lemma emits_stream_blocks (P : event -> bool) (blocks : list string) :
  (forall e, is_session e = true -> P e = true) ->
  (forall e, is_client_read e = true -> P e = true) ->
  emits P (stream_blocks blocks).
Proof.
  intros HS HC. induction blocks as [|buf rest IH]; cbn [stream_blocks];
    emit. exact IH.
Qed.

Lemma after_pool_session (r : request_rec) (e : event) :
  is_session e = true -> after_pool r e = true.
Proof. unfold after_pool. now intros ->. Qed.

Lemma after_pool_filesystem (r : request_rec) (e : event) :
  is_filesystem e = true -> after_pool r e = true.
Proof. unfold after_pool. intros ->. now rewrite orb_true_r. Qed.

Lemma after_pool_client (r : request_rec) (e : event) :
  accelerated r = false -> is_client_read e = true -> after_pool r e = true.
Proof. unfold after_pool. intros -> ->. now rewrite !orb_true_r. Qed.

#[local] Hint Resolve after_pool_session after_pool_filesystem
  after_pool_client : core.

Lemma emits_forward_request (r : request_rec) (expecting : bool)
  (uploadData : option string) :
  (expecting = true -> uploadData = None -> accelerated r = false) ->
  emits (after_pool r) (forward_request expecting uploadData).
Proof.
  intros Hstream. unfold forward_request.
  apply emits_bind; [apply emits_get_request|intros r0].
  apply emits_bind; [emit|intros _].
  apply emits_bind; [emit|intros _].
  apply emits_bind; [apply emits_getBaseURI; auto|intros base].
  apply emits_bind; [apply emits_sendHeaders; auto|intros _].
  apply emits_bind.
  - destruct expecting; [|apply emits_ret].
    destruct uploadData as [file|].
    + apply emits_send_file_blocks; auto.
    + unfold sendRequestBody.
      apply emits_bind; [apply emits_get_client|intros blocks].
      apply emits_bind; [apply emits_stream_blocks; auto|intros len].
      emit.
  - intros _. emit.
Qed.

(** *** Receiving the upload *)

Lemma take_length (s : string) : take (String.length s) s = s.
Proof. induction s as [|c s IH]; cbn; [reflexivity|now rewrite IH]. Qed.

Lemma tempfile_content_app (a b : list event) :
  tempfile_content (a ++ b) = tempfile_content a +++ tempfile_content b.
Proof.
  induction a as [|e a IH]; [reflexivity|].
  destruct e; cbn; rewrite IH; try reflexivity.
  now rewrite append_assoc.
Qed.

Lemma write_block_run (fuel : nat) (buf : string) (len written : nat)
  (file : string) (s : state) :
  exists evs,
    uploads s (snd (write_block fuel buf len written file s)) evs /\
    forall file',
      fst (write_block fuel buf len written file s) = Ret file' ->
      file' = file +++ tempfile_content evs.
Proof.
  revert written file s.
  induction fuel as [|fuel IH]; intros written file s; cbn [write_block].
  - exists []. unfold uploads, ret. cbn. rewrite app_nil_r.
    repeat split. intros file' E. inversion E. now rewrite append_empty_r.
  - set (n := Nat.min (fwrite (String.length file) (len - written))
                      (len - written)).
    unfold bind, log. cbv iota beta.
    destruct (n =? 0)%nat.
    + exists [EvTempFileWrite (take n buf)]. unfold uploads, throw. cbn.
      repeat split. intros file' E. discriminate E.
    + destruct (written + n <? len)%nat.
      * match goal with
        | |- context [write_block fuel buf len ?w ?f ?s0] =>
            destruct (IH w f s0) as (evs & (Hr & Hm & Ht & Hf) & Hfile)
        end.
        exists (EvTempFileWrite (take n buf) :: evs). split.
        -- unfold uploads. rewrite Hr, Hm, Ht. cbn [st_r st_mapper st_trace].
           rewrite <- app_assoc. cbn. now rewrite Hf.
        -- intros file' E. rewrite (Hfile file' E). cbn.
           now rewrite append_assoc.
      * exists [EvTempFileWrite (take n buf)]. unfold uploads, ret. cbn.
        repeat split. intros file' E. inversion E.
        now rewrite append_empty_r.
Qed.

(** The fuel of [write_block] never runs out: any amount that covers the
    bytes still to write gives the same run. *)
Lemma write_block_fuel (fuel fuel' : nat) (buf : string) (len written : nat)
  (file : string) (s : state) :
  (len - written <= fuel)%nat -> (len - written <= fuel')%nat ->
  (written < len)%nat ->
  write_block fuel buf len written file s
  = write_block fuel' buf len written file s.
Proof.
  revert fuel' written file s.
  induction fuel as [|fuel IH]; intros [|fuel'] written file s H1 H2 H3;
    try lia.
  cbn [write_block].
  set (n := Nat.min (fwrite (String.length file) (len - written))
                    (len - written)).
  unfold bind, log. cbv iota beta.
  destruct (n =? 0)%nat eqn:Hn; [reflexivity|].
  apply Nat.eqb_neq in Hn.
  destruct (written + n <? len)%nat eqn:Hlt; [|reflexivity].
  apply Nat.ltb_lt in Hlt. apply IH; lia.
Qed.

Lemma length_drop (n : nat) (s : string) :
  String.length (drop n s) = String.length s - n.
Proof.
  revert s. induction n as [|n IH]; intros [|c s]; cbn; auto.
Qed.

(** Neither does the fuel of [send_file_blocks]. *)
Lemma send_file_blocks_fuel (fuel fuel' : nat) (rest : string) (s : state) :
  (String.length rest < fuel)%nat -> (String.length rest < fuel')%nat ->
  send_file_blocks fuel rest s = send_file_blocks fuel' rest s.
Proof.
  assert (HB : (0 < BLOCK)%nat) by (unfold BLOCK; lia).
  revert fuel' rest s.
  induction fuel as [|fuel IH]; intros [|fuel'] rest s H1 H2; try lia.
  cbn [send_file_blocks]. unfold bind.
  destruct (session_do _ s) as [[[]| |] s1]; try reflexivity.
  destruct (String.length rest <? BLOCK)%nat eqn:Hlt; [reflexivity|].
  apply Nat.ltb_ge in Hlt.
  apply IH; rewrite length_drop, Nat.min_l by lia; lia.
Qed.

Lemma write_block_full (buf file : string) (s : state) :
  full_writes -> (0 < String.length buf)%nat ->
  write_block (String.length buf) buf (String.length buf) 0 file s
  = (Ret (file +++ buf), logged s (EvTempFileWrite buf)).
Proof.
  intros Hfull Hlen.
  destruct (String.length buf) as [|k] eqn:E; [inversion Hlen|].
  cbn [write_block]. rewrite Nat.sub_0_r.
  rewrite (Nat.min_r _ (S k)) by apply Hfull.
  rewrite <- E, take_length, E. unfold bind, log. cbv iota beta.
  cbn [Nat.eqb Nat.add]. rewrite Nat.ltb_irrefl. reflexivity.
Qed.

Lemma receive_blocks_cons (buf : string) (rest : list string)
  (file : string) (s : state) :
  receive_blocks (buf :: rest) file s =
  if (0 <? String.length buf)%nat then
    match write_block (String.length buf) buf (String.length buf) 0 file
            (read_block s rest buf) with
    | (Ret file1, s1) => receive_blocks rest file1 s1
    | (Throw e, s1) => (Throw e, s1)
    | (Undefined, s1) => (Undefined, s1)
    end
  else (Ret (0%Z, file), read_block s rest buf).
Proof.
  cbn [receive_blocks]. unfold bind, set_client, log.
  destruct (0 <? String.length buf)%nat; reflexivity.
Qed.

Lemma receive_blocks_run (blocks : list string) (file : string) (s : state) :
  exists evs,
    uploads s (snd (receive_blocks blocks file s)) evs /\
    forall len file',
      fst (receive_blocks blocks file s) = Ret (len, file') ->
      file' = file +++ tempfile_content evs /\
      (full_writes -> file' = file +++ body_of blocks).
Proof.
  revert file s. induction blocks as [|buf rest IH]; intros file s.
  - exists [EvGetClientBlock EmptyString].
    cbn [receive_blocks]. unfold uploads, bind, set_client, log, ret. cbn.
    repeat split; inversion H; now rewrite append_empty_r.
  - rewrite receive_blocks_cons.
    destruct (0 <? String.length buf)%nat eqn:Hlen.
    + destruct (write_block_run (String.length buf) buf
                  (String.length buf) 0 file (read_block s rest buf))
        as (e1 & (Hr1 & Hm1 & Ht1 & Hf1) & Hfile1).
      pose proof (write_block_full buf file (read_block s rest buf))
        as Hfull1.
      destruct (write_block (String.length buf) buf
                  (String.length buf) 0 file (read_block s rest buf))
        as [[file1| |] s1]; cbn [fst snd] in *.
      * destruct (IH file1 s1) as (e2 & (Hr2 & Hm2 & Ht2 & Hf2) & Hfile2).
        exists (EvGetClientBlock buf :: e1 ++ e2). split.
        -- unfold uploads. rewrite Hr2, Hm2, Ht2, Hr1, Hm1, Ht1.
           cbn [read_block st_r st_mapper st_trace].
           rewrite <- !app_assoc. cbn.
           now rewrite forallb_app, Hf1, Hf2.
        -- intros len file' E. destruct (Hfile2 len file' E) as [Ec Eb].
           split.
           ++ rewrite Ec, (Hfile1 file1 eq_refl). cbn.
              now rewrite tempfile_content_app, append_assoc.
           ++ intros Hfull. rewrite (Eb Hfull).
              apply Nat.ltb_lt in Hlen.
              specialize (Hfull1 Hfull Hlen). inversion Hfull1; subst.
              rewrite append_assoc. destruct buf; [inversion Hlen|].
              reflexivity.
      * exists (EvGetClientBlock buf :: e1). split.
        -- unfold uploads. rewrite Hr1, Hm1, Ht1.
           cbn [read_block st_r st_mapper st_trace].
           rewrite <- !app_assoc. cbn. now rewrite Hf1.
        -- intros len file' E. discriminate E.
      * exists (EvGetClientBlock buf :: e1). split.
        -- unfold uploads. rewrite Hr1, Hm1, Ht1.
           cbn [read_block st_r st_mapper st_trace].
           rewrite <- !app_assoc. cbn. now rewrite Hf1.
        -- intros len file' E. discriminate E.
    + exists [EvGetClientBlock buf]. unfold uploads. cbn.
      repeat split; inversion H; subst.
      * now rewrite append_empty_r.
      * destruct buf; [|discriminate Hlen]. cbn.
        now rewrite append_empty_r.
Qed.

Lemma receiveRequestBody_eq (s : state) :
  receiveRequestBody s =
  match TempFile_new with
  | Raise e => (Throw e, s)
  | Ok _ =>
      match receive_blocks (st_client s) EmptyString
              (logged s EvTempFileCreate) with
      | (Ret res, s1) =>
          if (fst res =? -1)%Z then
            (Throw (IOException
                      "An error occurred while receiving HTTP upload data."),
             s1)
          else
            match lookupHeader (st_r s1) "Content-Length" with
            | None => (Undefined, s1)
            | Some cl =>
                if negb (Z.of_nat (String.length (snd res)) =? atol cl)%Z
                then
                  (Throw (IOException
                            "The HTTP client sent incomplete upload data."),
                   s1)
                else (Ret (snd res), s1)
            end
      | (Throw e, s1) => (Throw e, s1)
      | (Undefined, s1) => (Undefined, s1)
      end
  end.
Proof.
  unfold receiveRequestBody, bind, lift, log, get_client, get_request.
  destruct TempFile_new as [[]|e]; cbn [of_result]; [|reflexivity].
  change {| st_r := st_r s; st_mapper := st_mapper s;
            st_client := st_client s;
            st_trace := st_trace s ++ [EvTempFileCreate] |}
    with (logged s EvTempFileCreate).
  change (st_client (logged s EvTempFileCreate)) with (st_client s).
  destruct (receive_blocks (st_client s) EmptyString
              (logged s EvTempFileCreate)) as [[res| |] s1];
    try reflexivity.
  destruct (fst res =? -1)%Z; [reflexivity|].
  destruct (lookupHeader (st_r s1) "Content-Length"); [|reflexivity].
  destruct (negb _); reflexivity.
Qed.

Lemma receiveRequestBody_run (s : state) :
  exists evs,
    uploads s (snd (receiveRequestBody s)) evs /\
    forall file,
      fst (receiveRequestBody s) = Ret file ->
      upload_complete (st_r s) (st_client s) evs.
Proof.
  rewrite receiveRequestBody_eq.
  destruct TempFile_new as [[]|e].
  2:{ exists []. unfold uploads. cbn. rewrite app_nil_r.
      split; [repeat split|]. intros ? E; discriminate E. }
  destruct (receive_blocks_run (st_client s) EmptyString
              (logged s EvTempFileCreate))
    as (evs & (Hr & Hm & Ht & Hf) & Hfile).
  destruct (receive_blocks (st_client s) EmptyString
              (logged s EvTempFileCreate))
    as [[[len file1]| |] s1]; cbn [fst snd logged st_r st_mapper st_trace] in *.
  - assert (Hup : forall o, uploads s (snd (o : outcome string, s1))
                              (EvTempFileCreate :: evs)).
    { intros o. unfold uploads. cbn [snd]. rewrite Hr, Hm, Ht.
      rewrite <- app_assoc. cbn. now rewrite Hf. }
    exists (EvTempFileCreate :: evs).
    destruct (len =? -1)%Z; [split; [apply Hup|discriminate]|].
    rewrite Hr.
    destruct (lookupHeader (st_r s) "Content-Length") as [cl|] eqn:Hhdr;
      [|split; [apply Hup|discriminate]].
    destruct (Z.of_nat (String.length file1) =? atol cl)%Z eqn:Hcl;
      cbn [negb]; [|split; [apply Hup|discriminate]].
    split; [apply Hup|]. intros file0 E. clear E.
    destruct (Hfile len file1 eq_refl) as [Ec Eb]. cbn in Ec.
    unfold upload_complete. cbn [tempfile_content]. rewrite <- Ec.
    split; [now left|]. split.
    + exists cl. split; [exact Hhdr|]. now apply Z.eqb_eq.
    + intros Hfull. exact (Eb Hfull).
  - exists (EvTempFileCreate :: evs). split; [|discriminate].
    unfold uploads. cbn [snd]. rewrite Hr, Hm, Ht.
    rewrite <- app_assoc. cbn. now rewrite Hf.
  - exists (EvTempFileCreate :: evs). split; [|discriminate].
    unfold uploads. cbn [snd]. rewrite Hr, Hm, Ht.
    rewrite <- app_assoc. cbn. now rewrite Hf.
Qed.

(** [accelerate_upload] receives the upload exactly when the host
    expects a body longer than the threshold. *)
Lemma accelerate_upload_run (expecting : bool) (s : state) :
  let acc :=
    expecting
    && match lookupHeader (st_r s) "Content-Length" with
       | Some cl => (UPLOAD_ACCELERATION_THRESHOLD <? atol cl)%Z
       | None => false
       end in
  exists evs,
    uploads s (snd (accelerate_upload expecting s)) evs /\
    (acc = false ->
       evs = [] /\
       forall file, fst (accelerate_upload expecting s) <> Ret (Some file)) /\
    (acc = true ->
       forall ud, fst (accelerate_upload expecting s) = Ret ud ->
         ud <> None /\ upload_complete (st_r s) (st_client s) evs).
Proof.
  cbv zeta. unfold accelerate_upload, bind, get_request.
  assert (Hnone : forall o : outcome (option string),
            uploads s (snd (o, s)) []).
  { intros o. unfold uploads. cbn. now rewrite app_nil_r. }
  destruct expecting; cbn [andb].
  2:{ exists []. split; [apply Hnone|]. split; [|discriminate].
      intros _. split; [reflexivity|]. intros ? E; discriminate E. }
  destruct (lookupHeader (st_r s) "Content-Length") as [cl|].
  2:{ exists []. split; [apply Hnone|]. split; [|discriminate].
      intros _. split; [reflexivity|]. intros ? E; discriminate E. }
  destruct (UPLOAD_ACCELERATION_THRESHOLD <? atol cl)%Z.
  2:{ exists []. split; [apply Hnone|]. split; [|discriminate].
      intros _. split; [reflexivity|]. intros ? E; discriminate E. }
  destruct (receiveRequestBody_run s) as (evs & Hup & Hfile).
  exists evs.
  destruct (receiveRequestBody s) as [[file| |] s1]; cbn [fst snd] in *;
    (split; [exact Hup|]); (split; [discriminate|]); intros _ ud E;
    try discriminate E.
  inversion E; subst ud. split; [discriminate|]. now apply (Hfile file).
Qed.

(** *** A mapper that knows its base URI *)

Lemma getPublicDirectory_known (s : state) :
  baseURIKnown (st_mapper s) = true ->
  exists dir, getPublicDirectory s = (Ret dir, s).
Proof.
  intros K. unfold getPublicDirectory, bind, get_mapper, get_request, ret.
  rewrite K.
  destruct (baseURI (st_mapper s)); [|eauto].
  destruct (0 <? strlen (ap_document_root (st_r s)))%nat; eauto.
Qed.

Lemma getApplicationType_known (s : state) :
  baseURIKnown (st_mapper s) = true ->
  getApplicationType s = (Ret (appType (st_mapper s)), s).
Proof.
  intros K. unfold getApplicationType, bind, get_mapper, ret.
  now rewrite K.
Qed.

Lemma getApplicationTypeString_known (s : state) :
  baseURIKnown (st_mapper s) = true ->
  exists type, getApplicationTypeString s = (Ret type, s).
Proof.
  intros K. unfold getApplicationTypeString, bind, get_mapper, ret.
  rewrite K. eauto.
Qed.

Lemma bind_pure {A B} (m : M A) (k : A -> M B) (s : state) (a : A) :
  m s = (Ret a, s) -> bind m k s = k a s.
Proof. intros H. unfold bind. now rewrite H. Qed.

Lemma bind_run {A B} (m : M A) (k : A -> M B) (s : state) :
  bind m k s =
  match m s with
  | (Ret a, s') => k a s'
  | (Throw e, s') => (Throw e, s')
  | (Undefined, s') => (Undefined, s')
  end.
Proof. reflexivity. Qed.

Lemma try_catch_run {A} (m m' : M A) (h : exn -> option (M A)) (s : state) :
  m s = m' s -> try_catch m h s = try_catch m' h s.
Proof. unfold try_catch. now intros ->. Qed.

Lemma acquire_session_known (s : state) :
  baseURIKnown (st_mapper s) = true ->
  st_r (snd (acquire_session s)) = st_r s /\
  exists path,
    (st_trace (snd (acquire_session s))
       = st_trace s ++ [EvFilesystem P_canonicalizePath path] /\
     forall x, fst (acquire_session s) <> Ret x)
    \/
    exists a post,
      st_trace (snd (acquire_session s))
        = st_trace s ++ EvFilesystem P_canonicalizePath path
                     :: EvPoolGet a :: post /\
      session_outcome a (fst (acquire_session s)) post.
Proof.
  intros K.
  destruct (getPublicDirectory_known s K) as [dir Hdir].
  destruct (getApplicationTypeString_known s K) as [type Htype].
  pose proof (getApplicationType_known s K) as Htyp.
  assert (Henv : exists env,
    (match appType (st_mapper s) with
     | RAILS =>
         ret (match railsEnv (getDirConfig (st_r s)) with
              | None => DEFAULT_RAILS_ENV
              | Some e => e
              end)
     | _ =>
         t <- getApplicationType ;;
         match t with
         | RACK =>
             ret (match rackEnv (getDirConfig (st_r s)) with
                  | None => DEFAULT_RACK_ENV
                  | Some e => e
                  end)
         | _ => ret DEFAULT_WSGI_ENV
         end
     end) s = (Ret env, s)).
  { destruct (appType (st_mapper s)) eqn:T;
      try rewrite (bind_pure _ _ s _ Htyp); unfold ret; eauto. }
  destruct Henv as [env Henv].
  assert (Hrun : acquire_session s =
    try_catch
      (root <- probe_call P_canonicalizePath canonicalizePath (dir +++ "/..") ;;
       match type with
       | None => undefined
       | Some type =>
           pid <- applicationPool_get
                    {| pg_appRoot := root; pg_lowerPrivilege := true;
                       pg_user := match defaultUser (getServerConfig (st_r s)) with
                                  | Some u => u
                                  | None => "nobody"%string
                                  end;
                       pg_environment := env;
                       pg_spawnMethod :=
                         match spawnMethod (getDirConfig (st_r s)) with
                         | SM_CONSERVATIVE => "conservative"%string
                         | _ => "smart"%string
                         end;
                       pg_appType := type |} ;;
           ret (inr pid)
       end)
      (fun e =>
         match e with
         | SpawnException _ page =>
             Some (match page with
                   | Some errorPage =>
                       ap_set_content_type "text/html; charset=utf-8" ;;
                       ap_rputs (c_str errorPage) ;;
                       ret (inl OK)
                   | None => throw e
                   end)
         | BusyException _ =>
             Some (status <- reportBusyException ;; ret (inl status))
         | _ => None
         end) s).
  { unfold acquire_session. apply try_catch_run.
    rewrite (bind_pure get_request _ s (st_r s) eq_refl). cbv zeta.
    rewrite (bind_pure _ _ s _ Htyp).
    rewrite (bind_pure _ _ s _ Henv).
    rewrite (bind_pure _ _ s _ Hdir).
    rewrite !(bind_run
                (probe_call P_canonicalizePath canonicalizePath
                   (dir +++ "/.."))).
    rewrite probe_call_run.
    destruct (canonicalizePath (dir +++ "/..")) as [root|w c f];
      cbn [of_fs]; [|reflexivity].
    rewrite (bind_pure _ _ _ type); [reflexivity|].
    unfold getApplicationTypeString, bind, get_mapper, ret in *.
    cbn [logged st_mapper]. rewrite K in *. now inversion Htype. }
  rewrite Hrun. clear Hrun.
  unfold try_catch.
  rewrite !(bind_run
              (probe_call P_canonicalizePath canonicalizePath
                 (dir +++ "/.."))).
  rewrite !probe_call_run.
  split.
  - destruct (canonicalizePath (dir +++ "/..")) as [root|w c f];
      cbn [of_fs]; [|reflexivity].
    destruct type as [type|]; [|reflexivity].
    unfold bind, applicationPool_get, log, lift, reportBusyException,
      ap_set_content_type, ap_rputs, ap_custom_response, throw, ret.
    destruct (pool_get _) as [pid|[? ? ?|? ?|?|? [page|]|?| |?|]];
      reflexivity.
  - exists (dir +++ "/..").
    destruct (canonicalizePath (dir +++ "/..")) as [root|w c f];
      cbn [of_fs]; [|left; split; [reflexivity|discriminate]].
    destruct type as [type|]; [|left; split; [reflexivity|discriminate]].
    right.
    unfold session_outcome, bind, applicationPool_get, log, lift,
      reportBusyException, ap_set_content_type, ap_rputs,
      ap_custom_response, throw, ret.
    match goal with |- context [pool_get ?x] => exists x end.
    destruct (pool_get _) as [pid|[? ? ?|? ?|?|? [page|]|?| |?|]];
      cbn [of_result];
      (eexists; cbn; rewrite <- ?app_assoc; cbn [app];
       split; [reflexivity|]; split; reflexivity).
Qed.

(** *** The body of the [try] block *)

Lemma serving_upload (r : request_rec) (evs : list event) :
  (accelerated r = false -> evs = []) ->
  forallb is_upload evs = true ->
  forallb (serving r) evs = true.
Proof.
  intros Hno Hup. unfold serving. destruct (accelerated r).
  - rewrite forallb_forall in *. intros e He. rewrite (Hup e He).
    apply orb_true_r.
  - now rewrite Hno.
Qed.

Lemma serve_request_run (s : state) :
  baseURIKnown (st_mapper s) = true ->
  exists evs,
    st_trace (snd (serve_request s)) = st_trace s ++ evs /\
    ((forallb (serving (st_r s)) evs = true /\
      forall x, fst (serve_request s) <> Ret x)
     \/
     exists pre a post,
       evs = pre ++ EvPoolGet a :: post /\
       forallb (serving (st_r s)) pre = true /\
       (accelerated (st_r s) = true ->
        upload_complete (st_r s) (st_client s) pre) /\
       served (st_r s) a (fst (serve_request s)) post).
Proof.
  intros K. unfold serve_request.
  rewrite (bind_pure get_request _ s (st_r s) eq_refl). cbv zeta.
  rewrite (bind_run (accelerate_upload _)).
  destruct (accelerate_upload_run (ap_should_client_block (st_r s)) s)
    as (e1 & (Hr1 & Hm1 & Ht1 & Hf1) & Hno & Hyes).
  fold (accelerated (st_r s)) in Hno, Hyes.
  assert (Hs1 : forallb (serving (st_r s)) e1 = true).
  { apply serving_upload; [|exact Hf1]. intros Hacc. now apply Hno. }
  destruct (accelerate_upload (ap_should_client_block (st_r s)) s)
    as [[ud| |] s1]; cbn [fst snd] in *.
  2,3: exists e1; split; [exact Ht1|]; left; split;
       [exact Hs1|discriminate].
  rewrite (bind_run acquire_session).
  assert (K1 : baseURIKnown (st_mapper s1) = true) by now rewrite Hm1.
  destruct (acquire_session_known s1 K1)
    as (Hr2 & path & [(Ht2 & Hne) | (a & post & Ht2 & Hout)]).
  - (* the pool is not asked *)
    exists (e1 ++ [EvFilesystem P_canonicalizePath path]).
    assert (Hs2 : forallb (serving (st_r s))
                    (e1 ++ [EvFilesystem P_canonicalizePath path]) = true)
      by (rewrite forallb_app, Hs1; reflexivity).
    destruct (acquire_session s1) as [[got| |] s2]; cbn [fst snd] in *.
    + now contradiction (Hne got).
    + split; [now rewrite Ht2, Ht1, app_assoc|].
      left. split; [exact Hs2|discriminate].
    + split; [now rewrite Ht2, Ht1, app_assoc|].
      left. split; [exact Hs2|discriminate].
  - (* the pool is asked *)
    assert (Hpre : forallb (serving (st_r s))
                     (e1 ++ [EvFilesystem P_canonicalizePath path]) = true)
      by (rewrite forallb_app, Hs1; reflexivity).
    assert (Hup : accelerated (st_r s) = true ->
                  upload_complete (st_r s) (st_client s)
                    (e1 ++ [EvFilesystem P_canonicalizePath path])).
    { intros Hacc. destruct (Hyes Hacc ud eq_refl) as [_ (Hc & Hl & Hb)].
      unfold upload_complete.
      rewrite tempfile_content_app. cbn [tempfile_content].
      rewrite append_empty_r. repeat split; auto.
      apply in_or_app. now left. }
    assert (Hstream : ap_should_client_block (st_r s) = true ->
                      ud = None -> accelerated (st_r s) = false).
    { intros _ Hud. destruct (accelerated (st_r s)) eqn:Hacc; [|reflexivity].
      destruct (Hyes eq_refl ud eq_refl) as [Hsome _]. contradiction. }
    unfold session_outcome in Hout. unfold served.
    destruct (acquire_session s1) as [o s2]; cbn [fst snd] in *.
    destruct (pool_get a) as [pid|[? ? ?|? ?|?|? [page|]|?| |?|]] eqn:Hpool;
      destruct Hout as [-> ->]; cbv beta iota; unfold ret; cbn [fst snd];
      try (exists (e1 ++ EvFilesystem P_canonicalizePath path
                      :: [EvPoolGet a]);
           split; [now rewrite Ht2, Ht1, <- app_assoc|];
           right;
           exists (e1 ++ [EvFilesystem P_canonicalizePath path]), a, [];
           split; [now rewrite <- app_assoc|];
           split; [exact Hpre|]; split; [exact Hup|];
           rewrite Hpool; split; reflexivity).
    + (* a session *)
      destruct (emits_forward_request (st_r s)
                  (ap_should_client_block (st_r s)) ud Hstream s2)
        as [_ (e3 & Ht3 & Hf3)].
      exists (e1 ++ EvFilesystem P_canonicalizePath path
                 :: EvPoolGet a :: e3).
      split.
      * rewrite Ht3, Ht2, Ht1, <- !app_assoc. reflexivity.
      * right.
        exists (e1 ++ [EvFilesystem P_canonicalizePath path]), a, e3.
        split; [now rewrite <- app_assoc|].
        split; [exact Hpre|]. split; [exact Hup|].
        rewrite Hpool. exact Hf3.
    + (* an error page *)
      exists (e1 ++ EvFilesystem P_canonicalizePath path
                 :: EvPoolGet a
                 :: [EvSetContentType "text/html; charset=utf-8";
                     EvRputs (c_str page)]).
      split; [now rewrite Ht2, Ht1, <- app_assoc|].
      right. exists (e1 ++ [EvFilesystem P_canonicalizePath path]), a.
      eexists. split; [now rewrite <- app_assoc|].
      split; [exact Hpre|]. split; [exact Hup|].
      rewrite Hpool. split; reflexivity.
    + (* the pool is busy *)
      eexists. split; [rewrite Ht2, Ht1, <- app_assoc; reflexivity|].
      right. exists (e1 ++ [EvFilesystem P_canonicalizePath path]), a.
      eexists. split; [now rewrite <- app_assoc|].
      split; [exact Hpre|]. split; [exact Hup|].
      rewrite Hpool. split; reflexivity.
Qed.

(** *** The whole of [handleRequest] *)

Lemma classify_run (r : request_rec) :
  st_r (snd (not_for_the_application (initial r))) = r /\
  st_client (snd (not_for_the_application (initial r))) = client_blocks /\
  forallb is_filesystem
    (st_trace (snd (not_for_the_application (initial r)))) = true /\
  (fst (not_for_the_application (initial r)) = Ret false ->
   baseURIKnown (st_mapper (snd (not_for_the_application (initial r))))
   = true).
Proof.
  unfold not_for_the_application.
  rewrite (bind_pure get_request _ (initial r) r eq_refl).
  rewrite (bind_run getBaseURI).
  destruct (emits_getBaseURI is_filesystem (fun e H => H) (initial r))
    as [_ (evs & Ht & Hf)].
  destruct (getBaseURI (initial r)) as [o s1] eqn:E.
  destruct (getBaseURI_post _ _ _ E) as (Hr & Hc & Hpost).
  cbn [initial st_r st_client st_trace snd app] in *.
  destruct o as [[b|]| |]; unfold ret; cbn [fst snd];
    try (rewrite Ht; repeat split; auto; discriminate).
  destruct (Hpost (Some b) eq_refl) as [K _].
  destruct (filename r) as [f|].
  - rewrite probe_call_run. cbn [fst snd logged st_r st_client st_trace
                                  st_mapper].
    rewrite Ht, forallb_app, Hf. repeat split; auto.
  - unfold ret. cbn [fst snd]. rewrite Ht. repeat split; auto.
Qed.

Lemma check_public_directory_known (s : state) :
  baseURIKnown (st_mapper s) = true ->
  check_public_directory s = (Ret None, s) \/
  exists status evs,
    fst (check_public_directory s) = Ret (Some status) /\
    st_trace (snd (check_public_directory s)) = st_trace s ++ evs /\
    forallb is_response evs = true.
Proof.
  intros K. destruct (getPublicDirectory_known s K) as [dir Hdir].
  unfold check_public_directory, try_catch.
  rewrite (bind_pure _ _ s dir Hdir).
  destruct (String.eqb dir EmptyString); [right|left; reflexivity].
  cbn. do 2 eexists. split; [reflexivity|].
  rewrite <- !app_assoc. cbn [app]. split; reflexivity.
Qed.

Lemma internal_error_run (s : state) :
  st_trace (snd (try_catch serve_request internal_error s))
  = st_trace (snd (serve_request s)) /\
  fst (try_catch serve_request internal_error s)
  = match fst (serve_request s) with
    | Throw foreign_exception => Throw foreign_exception
    | Throw _ => Ret HTTP_INTERNAL_SERVER_ERROR
    | o => o
    end.
Proof.
  unfold try_catch.
  destruct (serve_request s) as [[x|[]|] s1]; split; reflexivity.
Qed.

Lemma tempfile_content_none (l : list event) :
  forallb (fun e => negb (is_tempfile e)) l = true ->
  tempfile_content l = EmptyString.
Proof.
  induction l as [|e l IH]; [reflexivity|]. cbn [forallb].
  intros H. apply andb_prop in H as [He Hl].
  destruct e; try discriminate He; cbn; auto.
Qed.

Lemma upload_complete_after (r : request_rec) (blocks : list string)
  (l pre : list event) :
  forallb (fun e => negb (is_tempfile e)) l = true ->
  upload_complete r blocks pre -> upload_complete r blocks (l ++ pre).
Proof.
  intros Hl (Hc & Hlen & Hb). unfold upload_complete.
  rewrite tempfile_content_app, (tempfile_content_none l Hl).
  repeat split; auto. apply in_or_app. now right.
Qed.

Lemma forallb_impl {A} (P Q : A -> bool) (l : list A) :
  (forall x, P x = true -> Q x = true) ->
  forallb P l = true -> forallb Q l = true.
Proof. intros H. rewrite !forallb_forall. auto. Qed.

Lemma handleRequest_run (r : request_rec) :
  forallb (quiet r) (st_trace (snd (handleRequest (initial r)))) = true
  \/
  exists pre a post,
    st_trace (snd (handleRequest (initial r))) = pre ++ EvPoolGet a :: post /\
    forallb (before_pool r) pre = true /\
    (accelerated r = true -> upload_complete r client_blocks pre) /\
    answered r a (fst (handleRequest (initial r))) post.
Proof.
  unfold handleRequest.
  rewrite (bind_pure (set_mapper DirectoryMapper_new) _ (initial r) tt eq_refl).
  rewrite (bind_run not_for_the_application).
  destruct (classify_run r) as (Hr1 & Hc1 & Hf1 & HK1).
  destruct (not_for_the_application (initial r)) as [o1 s1];
    cbn [fst snd] in *.
  assert (Hq1 : forallb (quiet r) (st_trace s1) = true).
  { revert Hf1. apply forallb_impl. intros e He. unfold quiet, before_pool.
    now rewrite He. }
  assert (Hb1 : forallb (before_pool r) (st_trace s1) = true).
  { revert Hf1. apply forallb_impl. intros e He. unfold before_pool.
    now rewrite He. }
  assert (Hn1 : forallb (fun e => negb (is_tempfile e)) (st_trace s1) = true).
  { revert Hf1. apply forallb_impl. intros e He. now destruct e. }
  destruct o1 as [[|]| |]; try (left; exact Hq1).
  specialize (HK1 eq_refl).
  rewrite (bind_run check_public_directory).
  destruct (check_public_directory_known s1 HK1)
    as [Hcheck | (status & evs & Hst & Ht2 & Hf2)].
  2:{ left.
      destruct (check_public_directory s1) as [o2 s2]; cbn [fst snd] in *.
      subst o2. unfold ret. cbn [snd].
      rewrite Ht2, forallb_app, Hq1. revert Hf2. apply forallb_impl.
      intros e He. unfold quiet. rewrite He. apply orb_true_r. }
  rewrite Hcheck. clear Hcheck.
  rewrite (bind_pure get_request _ s1 (st_r s1) eq_refl).
  rewrite (bind_run (log EvSetupClientBlock)).
  change (log EvSetupClientBlock s1)
    with (Ret tt, logged s1 EvSetupClientBlock).
  cbv beta iota zeta.
  assert (Hq2 : forallb (quiet r) (st_trace s1 ++ [EvSetupClientBlock])
                = true) by (rewrite forallb_app, Hq1; reflexivity).
  assert (Hb2 : forallb (before_pool r) (st_trace s1 ++ [EvSetupClientBlock])
                = true) by (rewrite forallb_app, Hb1; reflexivity).
  assert (Hn2 : forallb (fun e => negb (is_tempfile e))
                  (st_trace s1 ++ [EvSetupClientBlock]) = true)
    by (rewrite forallb_app, Hn1; reflexivity).
  destruct (negb _); [left; exact Hq2|].
  destruct (internal_error_run (logged s1 EvSetupClientBlock)) as [Et Eo].
  rewrite Et, Eo. clear Et Eo.
  destruct (serve_request_run (logged s1 EvSetupClientBlock) HK1)
    as (e3 & Ht3 & Hserve).
  cbn [logged st_r st_client st_trace] in Ht3, Hserve.
  rewrite Hr1, ?Hc1 in Hserve. rewrite Ht3.
  assert (Hsb : forall e, serving r e = true -> before_pool r e = true).
  { intros e. unfold serving, before_pool.
    destruct (is_filesystem e); [reflexivity|]. cbn. intros ->.
    apply orb_true_r. }
  destruct Hserve as [[Hf3 Hne] | (pre & a & post & -> & Hf3 & Hup & Hout)].
  - left. rewrite forallb_app, Hq2. revert Hf3. apply forallb_impl.
    intros e He. unfold quiet. now rewrite (Hsb e He).
  - right. exists ((st_trace s1 ++ [EvSetupClientBlock]) ++ pre), a, post.
    split; [now rewrite <- !app_assoc|]. split; [|split].
    + rewrite forallb_app, Hb2. revert Hf3. apply forallb_impl. exact Hsb.
    + intros Hacc. apply upload_complete_after; auto.
    + unfold served in Hout. unfold answered.
      destruct (pool_get a) as [pid|[? ? ?|? ?|?|? [page|]|?| |?|]];
        try exact Hout;
        try (destruct Hout as [-> ->]; split; reflexivity);
        destruct Hout as [Ho ->]; rewrite Ho; split; reflexivity.
Qed.

(** *** Reading the run *)

Lemma app_cons_split {A} (l1 l2 m1 m2 : list A) (a b : A) :
  l1 ++ a :: l2 = m1 ++ b :: m2 ->
  (exists k, m1 = l1 ++ a :: k /\ l2 = k ++ b :: m2) \/
  (l1 = m1 /\ a = b /\ l2 = m2) \/
  (exists k, l1 = m1 ++ b :: k /\ m2 = k ++ a :: l2).
Proof.
  revert m1. induction l1 as [|x l1 IH]; intros [|y m1] E; cbn in E.
  - inversion E. right. left. auto.
  - inversion E. left. exists m1. auto.
  - inversion E. right. right. exists l1. auto.
  - inversion E as [[Exy E']]. subst y.
    destruct (IH m1 E') as [(k & -> & ->) | [(-> & -> & ->) | (k & -> & ->)]].
    + left. exists k. auto.
    + right. left. auto.
    + right. right. exists k. auto.
Qed.

Lemma forallb_mid {A} (P : A -> bool) (l1 l2 : list A) (a : A) :
  forallb P (l1 ++ a :: l2) = true -> P a = true.
Proof.
  rewrite forallb_app. cbn. intros H.
  apply andb_prop in H as [_ H]. now apply andb_prop in H as [H _].
Qed.

Lemma before_pool_not_pool (r : request_rec) (e : event) :
  before_pool r e = true -> is_pool_get e = false.
Proof. destruct e; try reflexivity. unfold before_pool. cbn.
       now rewrite andb_false_r. Qed.

Lemma before_pool_not_response (r : request_rec) (e : event) :
  before_pool r e = true -> is_response e = false.
Proof.
  destruct e; try reflexivity; unfold before_pool; cbn;
    now rewrite andb_false_r.
Qed.

Lemma before_pool_not_session (r : request_rec) (e : event) :
  before_pool r e = true -> is_session e = false.
Proof.
  destruct e; try reflexivity; unfold before_pool; cbn;
    now rewrite andb_false_r.
Qed.

Lemma after_pool_not_pool (r : request_rec) (e : event) :
  after_pool r e = true -> is_pool_get e = false.
Proof. destruct e; try reflexivity. unfold after_pool. cbn.
       now rewrite andb_false_r. Qed.

Lemma after_pool_not_tempfile (r : request_rec) (e : event) :
  after_pool r e = true -> is_tempfile e = false.
Proof.
  destruct e; try reflexivity; unfold after_pool; cbn;
    now rewrite andb_false_r.
Qed.

Lemma answered_not_pool (r : request_rec) (a : pool_get_args)
  (o : outcome Z) (post : list event) :
  answered r a o post ->
  forallb (fun e => negb (is_pool_get e)) post = true.
Proof.
  unfold answered.
  destruct (pool_get a) as [pid|[? ? ?|? ?|?|? [page|]|?| |?|]].
  1:{ apply forallb_impl. intros e He.
      now rewrite (after_pool_not_pool r e He). }
  all: intros [_ ->]; reflexivity.
Qed.

(** The pool is asked at most once: a call to [get] found in the trace
    is the one of the run. *)
Lemma pool_get_once (pre0 post0 pre post : list event) (a0 a : pool_get_args) :
  forallb (fun e => negb (is_pool_get e)) pre0 = true ->
  forallb (fun e => negb (is_pool_get e)) post0 = true ->
  pre0 ++ EvPoolGet a0 :: post0 = pre ++ EvPoolGet a :: post ->
  pre = pre0 /\ a = a0 /\ post = post0.
Proof.
  intros Hpre Hpost E.
  destruct (app_cons_split _ _ _ _ _ _ E)
    as [(k & -> & ->) | [(-> & Ea & ->) | (k & -> & ->)]].
  - apply forallb_mid in Hpost. discriminate Hpost.
  - inversion Ea. auto.
  - apply forallb_mid in Hpre. discriminate Hpre.
Qed.



Lemma no_response (l : list event) :
  forallb (fun e => negb (is_response e)) l = true ->
  response_body l = EmptyString /\ content_types l = [].
Proof.
  induction l as [|e l IH]; [now split|]. cbn [forallb].
  intros H. apply andb_prop in H as [He Hl].
  destruct e; try discriminate He; cbn; auto.
Qed.


(** A call to [get] in the trace splits it at the one call of the run. *)
Lemma pool_get_in_run (r : request_rec) (a : pool_get_args) :
  In (EvPoolGet a) (st_trace (snd (handleRequest (initial r)))) ->
  exists pre post,
    st_trace (snd (handleRequest (initial r))) = pre ++ EvPoolGet a :: post /\
    forallb (before_pool r) pre = true /\
    (accelerated r = true -> upload_complete r client_blocks pre) /\
    answered r a (fst (handleRequest (initial r))) post.
Proof.
  intros Hin.
  destruct (handleRequest_run r) as [Hq | (pre & a0 & post & E & Hb & Hu & Ha)].
  - rewrite forallb_forall in Hq. specialize (Hq _ Hin).
    unfold quiet, before_pool in Hq. cbn in Hq.
    rewrite andb_false_r in Hq. discriminate Hq.
  - destruct (in_split _ _ Hin) as (l1 & l2 & E').
    rewrite E in E'.
    destruct (pool_get_once pre post l1 l2 a0 a) as (-> & -> & ->); auto.
    + revert Hb. apply forallb_impl. intros e He.
      now rewrite (before_pool_not_pool r e He).
    + now apply (answered_not_pool r a0 (fst (handleRequest (initial r)))).
    + exists pre, post. auto.
Qed.


(** C8.  Whenever the pool's [get], called by [handleRequest], throws a
    [BusyException], the request ends with status 503 (Service
    Unavailable), the retry-later message being registered as the body
    of that status with [ap_custom_response], as the last call of the
    request and its only response call. *)
Theorem busy_pool (r : request_rec) (a : pool_get_args) (what : string) :
  In (EvPoolGet a) (st_trace (snd (handleRequest (initial r)))) ->
  pool_get a = Raise (BusyException what) ->
  fst (handleRequest (initial r)) = Ret 503%Z /\
  exists pre,
    st_trace (snd (handleRequest (initial r)))
    = pre ++ [EvPoolGet a;
              EvCustomResponse 503
                "This website is too busy right now.  Please try again later."]
    /\ forallb (fun e => negb (is_response e)) pre = true.
Proof.
  intros Hin Hpool.
  destruct (pool_get_in_run r a Hin) as (pre & post & E & Hb & _ & Ha).
  unfold answered in Ha. rewrite Hpool in Ha. destruct Ha as [Ho ->].
  split; [exact Ho|]. exists pre. split; [exact E|].
  revert Hb. apply forallb_impl. intros e He.
  now rewrite (before_pool_not_response r e He).
Qed.

Lemma quiet_not_session (r : request_rec) (e : event) :
  quiet r e = true -> is_session e = false.
Proof.
  destruct e; try reflexivity; unfold quiet, before_pool; cbn;
    now rewrite andb_false_r.
Qed.

Lemma quiet_not_tempfile (r : request_rec) (e : event) :
  accelerated r = false -> quiet r e = true -> is_tempfile e = false.
Proof.
  intros Hacc. destruct e; try reflexivity; unfold quiet, before_pool;
    rewrite Hacc; cbn; discriminate.
Qed.

Lemma before_pool_not_tempfile (r : request_rec) (e : event) :
  accelerated r = false -> before_pool r e = true -> is_tempfile e = false.
Proof.
  intros Hacc. destruct e; try reflexivity; unfold before_pool;
    rewrite Hacc; cbn; discriminate.
Qed.

Lemma after_pool_not_upload (r : request_rec) (e : event) :
  accelerated r = true -> after_pool r e = true -> is_upload e = false.
Proof.
  intros Hacc. destruct e; try reflexivity; unfold after_pool;
    rewrite Hacc; cbn; discriminate.
Qed.

Lemma body_block_is_session (e : event) :
  is_body_block e = true -> is_session e = true.
Proof. destruct e; try discriminate. reflexivity. Qed.

(** The order of the upload, whatever [fwrite] does.  For every request
    for which the host expects a body of the
    advertised length [atol cl]: when the length is above 8192, a call
    of the pool's [get] finds the temporary file created and holding as
    many bytes as advertised - the whole body the client sent, provided
    [fwrite] never writes short - with nothing read from the client nor
    written to the file afterwards; when the length is 8192 or less, no
    temporary file is created or written, and a block of the body goes
    to the session only after a call of [get] that returned a
    session. *)
Theorem upload_acceleration (r : request_rec) (cl : string) :
  ap_should_client_block r = true ->
  lookupHeader r "Content-Length" = Some cl ->
  ((8192 < atol cl)%Z ->
   forall pre a post,
     st_trace (snd (handleRequest (initial r))) = pre ++ EvPoolGet a :: post ->
     In EvTempFileCreate pre /\
     Z.of_nat (String.length (tempfile_content pre)) = atol cl /\
     (full_writes -> tempfile_content pre = request_body) /\
     forallb (fun e => negb (is_upload e)) post = true)
  /\
  ((atol cl <= 8192)%Z ->
   forallb (fun e => negb (is_tempfile e))
     (st_trace (snd (handleRequest (initial r)))) = true /\
   forall pre e post,
     st_trace (snd (handleRequest (initial r))) = pre ++ e :: post ->
     is_body_block e = true ->
     exists pre' a post' pid,
       pre = pre' ++ EvPoolGet a :: post' /\ pool_get a = Ok pid).
Proof.
  intros Hexp Hcl. split.
  - intros Hlong pre a post E.
    assert (Hacc : accelerated r = true).
    { unfold accelerated. rewrite Hexp, Hcl. cbn.
      now apply Z.ltb_lt. }
    assert (Hin : In (EvPoolGet a)
                    (st_trace (snd (handleRequest (initial r))))).
    { rewrite E. apply in_or_app. right. now left. }
    destruct (pool_get_in_run r a Hin)
      as (pre0 & post0 & E0 & Hb & Hup & Ha).
    destruct (Hup Hacc) as (Hc & (cl' & Hcl' & Hlen) & Hbody).
    rewrite Hcl in Hcl'. inversion Hcl'; subst cl'.
    rewrite E0 in E.
    destruct (pool_get_once pre0 post0 pre post a a) as (-> & _ & ->); auto.
    { revert Hb. apply forallb_impl. intros e He.
      now rewrite (before_pool_not_pool r e He). }
    { now apply (answered_not_pool r a (fst (handleRequest (initial r)))). }
    repeat split; auto.
    unfold answered in Ha.
    destruct (pool_get a) as [pid|[? ? ?|? ?|?|? [page|]|?| |?|]].
    1:{ revert Ha. apply forallb_impl. intros e He.
        now rewrite (after_pool_not_upload r e Hacc He). }
    all: destruct Ha as [_ ->]; reflexivity.
  - intros Hshort.
    assert (Hacc : accelerated r = false).
    { unfold accelerated. rewrite Hexp, Hcl. cbn.
      apply Z.ltb_ge. exact Hshort. }
    destruct (handleRequest_run r)
      as [Hq | (pre0 & a0 & post0 & E0 & Hb & _ & Ha)].
    + split.
      * revert Hq. apply forallb_impl. intros e He.
        now rewrite (quiet_not_tempfile r e Hacc He).
      * intros pre e post E He. rewrite E in Hq.
        apply forallb_mid in Hq. apply quiet_not_session in Hq.
        apply body_block_is_session in He. congruence.
    + assert (Hpost : forallb (fun e => negb (is_tempfile e)) post0 = true
                      /\ (forall e, In e post0 -> is_session e = true ->
                          exists pid, pool_get a0 = Ok pid)).
      { unfold answered in Ha.
        destruct (pool_get a0) as [pid|[? ? ?|? ?|?|? [page|]|?| |?|]].
        1:{ split; [|eauto]. revert Ha. apply forallb_impl. intros e He.
            now rewrite (after_pool_not_tempfile r e He). }
        all: destruct Ha as [_ ->]; (split; [reflexivity|]);
          intros e Hin;
          repeat (destruct Hin as [<-|Hin]; [discriminate|]);
          destruct Hin. }
      destruct Hpost as [Hpt Hps]. split.
      * rewrite E0, forallb_app. cbn. rewrite Hpt, andb_true_r.
        revert Hb. apply forallb_impl. intros e He.
        now rewrite (before_pool_not_tempfile r e Hacc He).
      * intros pre e post E He. rewrite E0 in E.
        apply body_block_is_session in He.
        destruct (app_cons_split _ _ _ _ _ _ E)
          as [(k & -> & ->) | [(-> & Ea & ->) | (k & -> & ->)]].
        -- destruct (Hps e) as [pid Hpid]; auto.
           { apply in_or_app. right. now left. }
           exists pre0, a0, k, pid. auto.
        -- subst e. discriminate He.
        -- apply forallb_mid in Hb. apply before_pool_not_session in Hb.
           congruence.
Qed.

End Dispatcher.

(** Runs of the dispatcher on the requests of [Example]: an upload of
    9000 bytes and one of 3 bytes, a failed spawn, a busy pool. *)

Lemma upload_acceleration_witness :
  (let tr :=
     st_trace
       (snd (@handleRequest (Example.upload_host [Example.bytes (90 * 100)])
               (@initial (Example.upload_host [Example.bytes (90 * 100)])
                  (Example.a_post "9000")))) in
   In EvTempFileCreate (firstn 8 tr) /\
   Z.of_nat (String.length (tempfile_content (firstn 8 tr))) = 9000%Z /\
   tempfile_content (firstn 8 tr)
   = @request_body (Example.upload_host [Example.bytes (90 * 100)]) /\
   forallb (fun e => negb (is_upload e)) (skipn 9 tr) = true)
  /\
  forallb (fun e => negb (is_tempfile e))
    (st_trace
       (snd (@handleRequest (Example.upload_host ["abc"%string])
               (@initial (Example.upload_host ["abc"%string])
                  (Example.a_post "3"))))) = true.
Proof.
  split.
  - cbv zeta.
    assert (Hfull : @full_writes
                      (Example.upload_host [Example.bytes (90 * 100)]))
      by (intros size n; apply le_n).
    assert (Hsplit :
      st_trace
        (snd (@handleRequest (Example.upload_host [Example.bytes (90 * 100)])
                (@initial (Example.upload_host [Example.bytes (90 * 100)])
                   (Example.a_post "9000"))))
      = firstn 8
          (st_trace
             (snd (@handleRequest
                     (Example.upload_host [Example.bytes (90 * 100)])
                     (@initial
                        (Example.upload_host [Example.bytes (90 * 100)])
                        (Example.a_post "9000")))))
        ++ EvPoolGet Example.rails_get
        :: skipn 9
             (st_trace
                (snd (@handleRequest
                        (Example.upload_host [Example.bytes (90 * 100)])
                        (@initial
                           (Example.upload_host [Example.bytes (90 * 100)])
                           (Example.a_post "9000"))))))
      by (vm_compute; reflexivity).
    destruct (proj1 (@upload_acceleration
                       (Example.upload_host [Example.bytes (90 * 100)])
                       (Example.a_post "9000") "9000" eq_refl eq_refl)
                eq_refl _ Example.rails_get _ Hsplit)
      as (Hcreated & Hlength & Hbody & Hafter).
    exact (conj Hcreated (conj Hlength (conj (Hbody Hfull) Hafter))).
  - refine (proj1 (proj2 (@upload_acceleration
                            (Example.upload_host ["abc"%string])
                            (Example.a_post "3") "3" eq_refl eq_refl) _)).
    vm_compute. discriminate.
Defined.



Lemma busy_pool_witness :
  In (EvPoolGet Example.rails_get)
    (st_trace (snd (@handleRequest Example.busy_host
                      (@initial Example.busy_host Example.a_get)))) /\
  fst (@handleRequest Example.busy_host
         (@initial Example.busy_host Example.a_get)) = Ret 503%Z.
Proof.
  assert (Hin : In (EvPoolGet Example.rails_get)
                  (st_trace (snd (@handleRequest Example.busy_host
                                    (@initial Example.busy_host
                                       Example.a_get)))))
    by (vm_compute; do 4 right; left; reflexivity).
  split; [exact Hin|].
  exact (proj1 (@busy_pool Example.busy_host Example.a_get
                  Example.rails_get _ Hin eq_refl)).
Defined.

(** ** Where the code parts from what it sets out to do *)

Section Divergences.

Context {host : Host}.

(** C4.  A filesystem error raised while [handleRequest] classifies the
    request is not reported: the test of line 633 runs before the [try]
    block of line 637, so the [FileSystemException] of [getBaseURI] or
    [fileExists] leaves [handleRequest] as it is; no status is
    returned, no content type is set and nothing is written, neither a
    diagnostic nor a hint. *)
Theorem filesystem_error_escapes (r : request_rec) (what : string)
  (code : Z) (file : string) :
  fst (not_for_the_application (initial r))
  = Throw (FileSystemException what code file) ->
  fst (handleRequest (initial r))
  = Throw (FileSystemException what code file) /\
  forallb is_filesystem (st_trace (snd (handleRequest (initial r)))) = true /\
  response_body (st_trace (snd (handleRequest (initial r)))) = EmptyString /\
  content_types (st_trace (snd (handleRequest (initial r)))) = [].
Proof.
  intros Hthrow.
  assert (Hrun : handleRequest (initial r)
                 = (Throw (FileSystemException what code file),
                    snd (not_for_the_application (initial r)))).
  { unfold handleRequest.
    rewrite (bind_pure (set_mapper DirectoryMapper_new) _ (initial r) tt
               eq_refl), bind_run.
    destruct (not_for_the_application (initial r)) as [o s1].
    cbn [fst] in Hthrow. subst o. reflexivity. }
  destruct (classify_run r) as (_ & _ & Hfs & _).
  rewrite Hrun. cbn [fst snd].
  split; [reflexivity|]. split; [exact Hfs|].
  apply no_response. revert Hfs. apply forallb_impl. now intros [].
Qed.

End Divergences.

Lemma filesystem_error_escapes_witness :
  @handleRequest Example.broken_host
    (@initial Example.broken_host Example.a_get)
  = (Throw Example.denied,
     {| st_r := Example.a_get; st_mapper := DirectoryMapper_new;
        st_client := [];
        st_trace := [EvFilesystem P_verifyRailsDir "/website/public/"] |})
  /\
  response_body
    (st_trace (snd (@handleRequest Example.broken_host
                      (@initial Example.broken_host Example.a_get))))
  = EmptyString.
Proof.
  split; [reflexivity|].
  exact (proj1 (proj2 (proj2
           (@filesystem_error_escapes Example.broken_host Example.a_get
              _ _ _ eq_refl)))).
Defined.

(** C2.  A short write spoils an accelerated upload.  The client sends
    9000 bytes, an ['a'] and then ['x'] all along, and the first
    [fwrite] writes one byte only: the loop of lines 512-520 writes the
    rest from the start of the buffer again (line 513 passes [buf], not
    [buf + written]), so that the temporary file has the advertised
    length but not the body; [handleRequest] asks the pool all the same,
    sends what the file holds to the session and returns [OK]. *)
Theorem short_write_corrupts_upload :
  @accelerated Scenario.short_writing_host (Example.a_post "9000") = true /\
  @request_body Scenario.short_writing_host = Scenario.upload /\
  fst (@handleRequest Scenario.short_writing_host
         (@initial Scenario.short_writing_host (Example.a_post "9000")))
  = Ret OK /\
  In (EvPoolGet Example.rails_get)
    (st_trace
       (snd (@handleRequest Scenario.short_writing_host
               (@initial Scenario.short_writing_host
                  (Example.a_post "9000"))))) /\
  tempfile_content
    (st_trace
       (snd (@handleRequest Scenario.short_writing_host
               (@initial Scenario.short_writing_host
                  (Example.a_post "9000")))))
  = Scenario.torn_upload /\
  sent_blocks
    (st_trace
       (snd (@handleRequest Scenario.short_writing_host
               (@initial Scenario.short_writing_host
                  (Example.a_post "9000")))))
  = [Scenario.torn_upload] /\
  String.length Scenario.torn_upload = String.length Scenario.upload /\
  Scenario.torn_upload <> Scenario.upload.
Proof.
  split; [reflexivity|]. split; [reflexivity|].
  split; [vm_compute; reflexivity|].
  split; [vm_compute; tauto|].
  split; [vm_compute; reflexivity|].
  split; [vm_compute; reflexivity|].
  split; [vm_compute; reflexivity|].
  unfold Scenario.torn_upload, Scenario.upload. intros E.
  inversion E.
Qed.

(** * Further properties of the hooks *)

(** ** Header names and the request line *)

Section HeaderNames.

Lemma all_ascii_complete (c : ascii) : In c all_ascii.
Proof.
  unfold all_ascii. rewrite <- (ascii_nat_embedding c).
  apply in_map, in_seq. pose proof (nat_ascii_bounded c). lia.
Qed.

Lemma for_all_ascii (P : ascii -> bool) :
  forallb P all_ascii = true -> forall c, P c = true.
Proof.
  intros H c. rewrite forallb_forall in H. apply H, all_ascii_complete.
Qed.

Lemma env_char_lower (c d : ascii) :
  apr_tolower c = apr_tolower d -> env_char c = env_char d.
Proof.
  intros H.
  assert (Hall : forallb
            (fun c => forallb
               (fun d => implb (Ascii.eqb (apr_tolower c) (apr_tolower d))
                               (Ascii.eqb (env_char c) (env_char d)))
               all_ascii) all_ascii = true) by (vm_compute; reflexivity).
  pose proof (for_all_ascii _ Hall c) as Hc. cbv beta in Hc.
  pose proof (for_all_ascii _ Hc d) as Hd. cbv beta in Hd.
  rewrite H, Ascii.eqb_refl in Hd. now apply Ascii.eqb_eq.
Qed.

Lemma map_chars_lower (a b : string) :
  map_chars apr_tolower a = map_chars apr_tolower b ->
  map_chars env_char a = map_chars env_char b.
Proof.
  revert b. induction a as [|c a IH]; intros [|d b] H; cbn in *;
    try discriminate; [reflexivity|].
  inversion H as [[Hc Hab]].
  now rewrite (env_char_lower c d Hc), (IH b Hab).
Qed.

(** X1.  Two header names that differ only by the case of their letters
    get the same CGI name. *)
Theorem http2env_ignores_case (a b : string) :
  strcasecmp_eq a b = true -> http2env a = http2env b.
Proof.
  unfold strcasecmp_eq, http2env. intros H. apply String.eqb_eq in H.
  f_equal. exact (map_chars_lower a b H).
Qed.

Lemma http2env_ignores_case_witness :
  strcasecmp_eq "Content-Type" "content-type" = true /\
  http2env "Content-Type" = http2env "content-type".
Proof.
  split; [reflexivity|].
  exact (http2env_ignores_case "Content-Type" "content-type" eq_refl).
Defined.

Lemma env_char_shape (c : ascii) :
  negb (Ascii.eqb (env_char c) "-") && negb (is_lower (env_char c)) = true.
Proof.
  revert c. apply for_all_ascii. vm_compute. reflexivity.
Qed.

Lemma length_map_chars (f : ascii -> ascii) (s : string) :
  String.length (map_chars f s) = String.length s.
Proof. induction s as [|c s IH]; cbn; [reflexivity|now rewrite IH]. Qed.

(** X2.  The CGI name of a header is ["HTTP_"] followed by as many
    characters as the header name has, none of them a ['-'] or a
    lower-case letter. *)
Theorem http2env_shape (name : string) :
  exists tail,
    http2env name = "HTTP_" +++ tail /\
    String.length tail = String.length name /\
    all_chars (fun c => negb (Ascii.eqb c "-") && negb (is_lower c)) tail
    = true.
Proof.
  exists (map_chars env_char name). split; [reflexivity|].
  split; [apply length_map_chars|].
  induction name as [|c name IH]; [reflexivity|].
  cbn [map_chars all_chars]. now rewrite env_char_shape, IH.
Qed.

(** *** [lookupName] *)

(** X3.  [lookupName] returns the value, NULL or not, of the first entry
    whose key is the name up to case; entries with a NULL key and the
    entries after the first match are never looked at. *)
Theorem lookupName_first_match (before after : apr_table) (key name : string)
  (val : cstr) :
  forallb (fun e => negb (names name e)) before = true ->
  strcasecmp_eq key name = true ->
  lookupName (before ++ (Some key, val) :: after) name = val.
Proof.
  intros Hbefore Hkey.
  induction before as [|[[k|] v] before IH]; cbn [app lookupName].
  - now rewrite Hkey.
  - cbn in Hbefore. apply andb_prop in Hbefore as [Hk Hrest].
    apply negb_true_iff in Hk. unfold names in Hk. cbn in Hk.
    rewrite Hk. now apply IH.
  - cbn in Hbefore. now apply IH.
Qed.

Lemma lookupName_first_match_witness :
  lookupName
    ([(None, Some "x"%string); (Some "Host"%string, Some "test.com"%string)]
     ++ (Some "HTTPS"%string, None)
     :: [(Some "https"%string, Some "on"%string)]) "https" = None.
Proof.
  exact (lookupName_first_match
           [(None, Some "x"%string);
            (Some "Host"%string, Some "test.com"%string)]
           [(Some "https"%string, Some "on"%string)]
           "HTTPS" "https" None eq_refl eq_refl).
Defined.

(** X4.  When no entry has the name as its key, up to case, [lookupName]
    returns NULL. *)
Theorem lookupName_missing (t : apr_table) (name : string) :
  forallb (fun e => negb (names name e)) t = true ->
  lookupName t name = None.
Proof.
  induction t as [|[[k|] v] t IH]; cbn [lookupName forallb]; intros H.
  - reflexivity.
  - apply andb_prop in H as [Hk Hrest].
    apply negb_true_iff in Hk. unfold names in Hk. cbn in Hk.
    rewrite Hk. now apply IH.
  - apply andb_prop in H as [_ Hrest]. now apply IH.
Qed.

Lemma lookupName_missing_witness :
  lookupName [(Some "Host"%string, Some "test.com"%string); (None, None)]
    "Content-Length" = None.
Proof.
  exact (lookupName_missing
           [(Some "Host"%string, Some "test.com"%string); (None, None)]
           "Content-Length" eq_refl).
Defined.

(** X5.  [lookupName] does not tell apart two names that differ only by
    case. *)
Theorem lookupName_ignores_case (t : apr_table) (a b : string) :
  strcasecmp_eq a b = true -> lookupName t a = lookupName t b.
Proof.
  unfold strcasecmp_eq. intros H. apply String.eqb_eq in H.
  induction t as [|[[k|] v] t IH]; cbn [lookupName]; auto.
  unfold strcasecmp_eq. rewrite H, IH. reflexivity.
Qed.

Lemma lookupName_ignores_case_witness :
  lookupName [(Some "Content-Length"%string, Some "3"%string)]
    "content-length"
  = lookupName [(Some "Content-Length"%string, Some "3"%string)]
      "CONTENT-LENGTH".
Proof.
  exact (lookupName_ignores_case
           [(Some "Content-Length"%string, Some "3"%string)]
           "content-length" "CONTENT-LENGTH" eq_refl).
Defined.

End HeaderNames.


(** ** The request line *)

Section RequestLine.

Lemma skip_while_app (p : ascii -> bool) (a b : string) :
  all_chars p a = true -> skip_while p (a +++ b) = skip_while p b.
Proof.
  induction a as [|c a IH]; cbn; [reflexivity|]. intros H.
  apply andb_prop in H as [Hc Ha]. rewrite Hc. now apply IH.
Qed.

Lemma take_while_app (p : ascii -> bool) (a b : string) :
  all_chars p a = true -> take_while p (a +++ b) = a +++ take_while p b.
Proof.
  induction a as [|c a IH]; cbn; [reflexivity|]. intros H.
  apply andb_prop in H as [Hc Ha]. rewrite Hc. f_equal. now apply IH.
Qed.

Lemma all_chars_take_while (p : ascii -> bool) (s : string) :
  all_chars p (take_while p s) = true.
Proof.
  induction s as [|c s IH]; cbn; [reflexivity|].
  destruct (p c) eqn:E; cbn; [now rewrite E|reflexivity].
Qed.

(** X6.  From a request line made of a method, white space, a URI and,
    after more white space, anything else, [originalURI] returns the URI
    as the client wrote it. *)
Theorem originalURI_of_request_line (r : request_rec)
  (verb space target rest : string) :
  the_request r = Some (verb +++ space +++ target +++ rest) ->
  no_space verb = true ->
  all_chars apr_isspace space = true -> space <> EmptyString ->
  no_space target = true -> target <> EmptyString ->
  token_end rest = true ->
  originalURI r = Some target.
Proof.
  unfold originalURI, no_space.
  intros -> Hverb Hspace Hsome Htarget Hany Hrest. f_equal.
  rewrite (skip_while_app _ verb _ Hverb).
  destruct space as [|c space]; [contradiction|].
  cbn in Hspace. apply andb_prop in Hspace as [Hc Hspace].
  cbn [String.append skip_while]. cbv beta. rewrite Hc.
  cbn [negb skip_while]. rewrite Hc.
  rewrite (skip_while_app _ space _ Hspace).
  destruct target as [|t target]; [contradiction|].
  cbn in Htarget. apply andb_prop in Htarget as [Ht Htarget].
  cbn [String.append skip_while].
  apply negb_true_iff in Ht. rewrite Ht.
  change (String t (target +++ rest)) with (String t target +++ rest).
  rewrite take_while_app.
  - destruct rest as [|x rest]; cbn [take_while token_end] in *.
    + apply append_empty_r.
    + rewrite Hrest. apply append_empty_r.
  - cbn. now rewrite Ht, Htarget.
Qed.

Lemma originalURI_of_request_line_witness :
  originalURI (Example.request M_GET "GET" "/posts?page=2" None []
                 (Example.config [] []))
  = Some "/posts?page=2"%string.
Proof.
  apply (originalURI_of_request_line _ "GET" " " "/posts?page=2" " HTTP/1.1");
    try reflexivity; discriminate.
Defined.

(** X7.  [originalURI] never returns NULL, and what it returns holds no
    white space; without a request line it is the empty string. *)
Theorem originalURI_shape (r : request_rec) :
  exists target,
    originalURI r = Some target /\ no_space target = true /\
    (the_request r = None -> target = EmptyString).
Proof.
  unfold originalURI, no_space. destruct (the_request r) as [line|].
  - eexists. split; [reflexivity|]. split; [|discriminate].
    apply all_chars_take_while.
  - exists EmptyString. repeat split.
Qed.

End RequestLine.


(** ** The directory mapper, once more *)

Section MapperInvariant.

Context {host : Host}.

Ltac answer_cases ans := destruct ans as [[|]|? ? ?]; cbn.

Ltac mapper_cases s :=
  unfold getBaseURI, bind, get_mapper, get_request, strlen;
  destruct (baseURIKnown (st_mapper s)) eqn:Hknown; cbn;
  [|destruct ((String.length (uri (st_r s)) =? 0)%nat
              || negb (Ascii.eqb (char_at (uri (st_r s)) 0) "/")) eqn:Hguard;
    cbn;
    [|destruct (find_base (uri (st_r s))
                  (railsBaseURIs (per_dir_config (st_r s)))) eqn:Hrails;
      cbn;
      [|destruct (find_base (uri (st_r s))
                    (rackBaseURIs (per_dir_config (st_r s)))) eqn:Hrack;
        cbn;
        [|unfold probe_call, bind, log, lift, of_fs;
          destruct (shouldAutoDetectRails (per_dir_config (st_r s)));
          [answer_cases (verifyRailsDir (ap_document_root (st_r s)))|];
          try (destruct (shouldAutoDetectRack (per_dir_config (st_r s)));
               [answer_cases (verifyRackDir (ap_document_root (st_r s)))|]);
          try (destruct (shouldAutoDetectWSGI (per_dir_config (st_r s)));
               [answer_cases (verifyWSGIDir (ap_document_root (st_r s)))|]);
          cbn]]]].

Lemma getBaseURI_mapper (s s1 : state) (o : outcome cstr) :
  getBaseURI s = (o, s1) ->
  (baseURIKnown (st_mapper s) = true /\ s1 = s /\
   o = Ret (baseURI (st_mapper s)))
  \/ (baseURIKnown (st_mapper s) = false /\
      st_mapper s1 = mapper_known (st_mapper s) /\ o = Ret None)
  \/ (exists b t,
        st_mapper s1 = mapper_found b t /\ t <> NONE /\ o = Ret (Some b))
  \/ (st_mapper s1 = st_mapper s /\
      exists what code file, o = Throw (FileSystemException what code file)).
Proof.
  mapper_cases s; intros H; inversion H; subst; cbn;
    solve [ left; auto
          | right; left; auto
          | right; right; left; do 2 eexists;
            split; [reflexivity|]; split; [discriminate|reflexivity]
          | right; right; right; split; eauto ].
Qed.

(** X8.  [getBaseURI] remembers its answer: once it has returned, a
    further call returns the same base URI and neither probes the
    filesystem nor changes anything else. *)
Theorem getBaseURI_memoised (s s1 : state) (base : cstr) :
  wf_mapper (st_mapper s) ->
  getBaseURI s = (Ret base, s1) ->
  getBaseURI s1 = (Ret base, s1).
Proof.
  intros Hwf Hrun.
  destruct (getBaseURI_post _ _ _ Hrun) as (_ & _ & Hpost).
  destruct (Hpost base eq_refl) as [Hknown Hbase].
  unfold getBaseURI, bind, get_mapper.
  now rewrite Hknown, (Hbase Hwf).
Qed.

(** X9.  [getBaseURI] keeps the invariant of the mapper, whatever its
    outcome; so the application type is [NONE], and its name NULL,
    exactly when the base URI is NULL. *)
Theorem getBaseURI_keeps_type (s s1 : state) (o : outcome cstr) :
  typed_mapper (st_mapper s) ->
  getBaseURI s = (o, s1) ->
  typed_mapper (st_mapper s1) /\
  forall base, o = Ret base ->
    (base = None <-> appType (st_mapper s1) = NONE) /\
    exists type,
      getApplicationTypeString s1 = (Ret type, s1) /\
      (type = None <-> base = None).
Proof.
  intros Htyped Hrun.
  assert (Hstring : forall s2 : state,
    baseURIKnown (st_mapper s2) = true ->
    getApplicationTypeString s2
    = (Ret (match appType (st_mapper s2) with
            | RAILS => Some "rails"%string
            | RACK => Some "rack"%string
            | WSGI => Some "wsgi"%string
            | NONE => None
            end), s2)).
  { intros s2 H2. unfold getApplicationTypeString, bind, get_mapper.
    now rewrite H2. }
  assert (Hname : forall t : ApplicationType,
    match t with
    | RAILS => Some "rails"%string
    | RACK => Some "rack"%string
    | WSGI => Some "wsgi"%string
    | NONE => None
    end = None <-> t = NONE).
  { intros []; split; intros; auto; discriminate. }
  destruct Htyped as [Htype Hwf].
  destruct (getBaseURI_mapper _ _ _ Hrun)
    as [(Hknown & -> & ->)|[(Hknown & Hm & ->)|[(b & t & Hm & Ht & ->)
       |(Hm & what & code & file & ->)]]].
  - split; [split; assumption|]. intros base E; inversion E; subst.
    split; [exact Htype|]. eexists. split; [apply Hstring, Hknown|].
    rewrite Hname. symmetry. exact Htype.
  - assert (Hnone : baseURI (st_mapper s) = None) by auto.
    assert (Hty : appType (st_mapper s1) = NONE).
    { rewrite Hm. cbn. now apply Htype. }
    split.
    + unfold typed_mapper. rewrite Hm. cbn. split; [exact Htype|discriminate].
    + intros base E; inversion E; subst. split; [tauto|].
      eexists. split; [apply Hstring; now rewrite Hm|].
      rewrite Hname. tauto.
  - split.
    + unfold typed_mapper. rewrite Hm. cbn.
      split; [split; intros; [discriminate|contradiction]|discriminate].
    + intros base E; inversion E; subst. rewrite Hm. cbn.
      split; [split; intros; [discriminate|contradiction]|].
      eexists. split; [apply Hstring; now rewrite Hm|].
      rewrite Hname, Hm. cbn. split; intros; [contradiction|discriminate].
  - split; [unfold typed_mapper; rewrite Hm; split; assumption|].
    intros base E. discriminate.
Qed.

(** *** [mapToStorage], the forwarded requests *)

Lemma forwardToApplication_run (s : state) :
  wf_mapper (st_mapper s) ->
  match forwardToApplication s with
  | (Ret true, s1) =>
      st_r s1 = st_r s /\ baseURIKnown (st_mapper s1) = true /\
      exists b, baseURI (st_mapper s1) = Some b
  | (Ret false, _) => True
  | (Throw e, _) =>
      exists what code file, e = FileSystemException what code file
  | (Undefined, _) => filename (st_r s) = None
  end.
Proof.
  intros Hwf. unfold forwardToApplication, bind, get_request.
  destruct (getBaseURI s) as [o s0] eqn:Hbase.
  destruct (getBaseURI_post _ _ _ Hbase) as (Hr & _ & Hpost).
  destruct (getBaseURI_mapper _ _ _ Hbase)
    as [(_ & _ & ->)|[(_ & _ & ->)|[(b & t & _ & _ & ->)
       |(_ & what & code & file & ->)]]];
    [destruct (baseURI (st_mapper s)) as [b|] eqn:Hb| |
    |eauto]; [|exact I|exact I|].
  all: destruct (Hpost _ eq_refl) as [Hknown Hsome];
    specialize (Hsome Hwf);
    destruct (filename (st_r s)) as [f|] eqn:Hf; [|reflexivity];
    unfold probe_call, bind, log, lift;
    cbv beta iota;
    (destruct (fileExists f) as [[|]|? ? ?]; cbn [of_fs];
     [exact I| |eauto]);
    (destruct (method_number (st_r s) =? M_GET)%Z;
     [|cbn; rewrite Hr; eauto]);
    (match goal with
     | |- context [fileExists ?p] =>
         destruct (fileExists p) as [[|]|? ? ?]; cbn [of_fs]
     end; [exact I| |eauto]);
    cbn; rewrite Hr; eauto.
Qed.

Lemma mapToStorage_forwarded (r : request_rec) (s1 : state) :
  forwardToApplication (initial r) = (Ret true, s1) ->
  exists b,
    baseURI (st_mapper s1) = Some b /\
    mapToStorage (initial r)
    = (Ret (if (negb (Threeway_eqb (allowModRewrite (per_dir_config r))
                        ENABLED)
                && is_rails (appType (st_mapper s1)))
               || String.eqb (uri r) b
            then OK else DECLINED), s1).
Proof.
  intros Hforward.
  assert (Hwf : wf_mapper (st_mapper (initial r))) by (intros _; reflexivity).
  pose proof (forwardToApplication_run (initial r) Hwf) as Hrun.
  rewrite Hforward in Hrun. destruct Hrun as (Hr & Hknown & b & Hb).
  cbn [initial st_r] in Hr.
  exists b. split; [exact Hb|].
  unfold mapToStorage.
  rewrite (bind_pure (set_mapper DirectoryMapper_new) _ (initial r) tt eq_refl).
  unfold try_catch. rewrite bind_run, Hforward.
  rewrite (bind_pure get_request _ s1 (st_r s1) eq_refl), Hr.
  unfold getDirConfig.
  assert (Hbase : getBaseURI s1 = (Ret (Some b), s1)).
  { unfold getBaseURI, bind, get_mapper. now rewrite Hknown, Hb. }
  destruct (Threeway_eqb (allowModRewrite (per_dir_config r)) ENABLED);
    cbn [negb andb orb].
  - rewrite (bind_pure (ret false) _ s1 false eq_refl).
    rewrite (bind_pure getBaseURI _ s1 (Some b) Hbase).
    unfold strcmp_eq. now destruct (String.eqb (uri r) b).
  - rewrite bind_run. unfold bind at 1.
    rewrite (getApplicationType_known s1 Hknown). unfold ret at 1.
    destruct (appType (st_mapper s1)); cbn [is_rails orb]; try reflexivity;
      rewrite (bind_pure getBaseURI _ s1 (Some b) Hbase);
      unfold strcmp_eq; now destruct (String.eqb (uri r) b).
Qed.

(** X10.  What [mapToStorage] answers for a request that is to be
    forwarded to the application: [OK], which keeps Apache from mapping
    the URI to a file itself, when the application is a Rails application
    and [allowModRewrite] is not enabled, or when the URI is the base URI
    of the application; [DECLINED] otherwise.  Nothing is probed for
    this, and the request is left as it came. *)
Theorem mapToStorage_takes_over (r : request_rec) (s1 : state) :
  forwardToApplication (initial r) = (Ret true, s1) ->
  st_r (snd (mapToStorage (initial r))) = r /\
  st_trace (snd (mapToStorage (initial r))) = st_trace s1 /\
  exists b,
    fst (getBaseURI (initial r)) = Ret (Some b) /\
    fst (mapToStorage (initial r))
    = Ret (if (negb (Threeway_eqb (allowModRewrite (per_dir_config r))
                       ENABLED)
               && is_rails (appType (st_mapper s1)))
              || String.eqb (uri r) b
           then OK else DECLINED).
Proof.
  intros Hforward.
  assert (Hwf : wf_mapper (st_mapper (initial r))) by (intros _; reflexivity).
  pose proof (forwardToApplication_run (initial r) Hwf) as Hrun.
  rewrite Hforward in Hrun. destruct Hrun as (Hr & _).
  destruct (mapToStorage_forwarded r s1 Hforward) as (b & Hb & ->).
  cbn [fst snd]. split; [exact Hr|]. split; [reflexivity|].
  exists b. split; [|reflexivity].
  revert Hforward. unfold forwardToApplication.
  rewrite (bind_pure get_request _ (initial r) r eq_refl), bind_run.
  destruct (getBaseURI (initial r)) as [o s0] eqn:Hbase.
  destruct (getBaseURI_post _ _ _ Hbase) as (_ & _ & Hpost).
  destruct o as [[b0|]| |]; try discriminate.
  - destruct (Hpost _ eq_refl) as [_ Hb0]. specialize (Hb0 Hwf).
    intros Hrest. cbn [fst]. f_equal. f_equal.
    assert (Hm : st_mapper s1 = st_mapper s0).
    { revert Hrest. cbn [initial st_r].
      destruct (filename r) as [f|]; [|discriminate].
      rewrite bind_run, probe_call_run.
      destruct (fileExists f) as [[|]|? ? ?]; cbn [of_fs]; try discriminate.
      destruct (method_number r =? M_GET)%Z.
      - rewrite bind_run, probe_call_run.
        match goal with
        | |- context [fileExists ?p] =>
            destruct (fileExists p) as [[|]|? ? ?]; cbn [of_fs]
        end; try discriminate.
        intros E; inversion E. reflexivity.
      - intros E; inversion E. reflexivity. }
    rewrite Hm, Hb0 in Hb. now inversion Hb.
Qed.

(** X11.  [mapToStorage] lets no exception out: a filesystem helper that
    fails makes it decline.  For a request with a filename it returns
    [OK] or [DECLINED]. *)
Theorem mapToStorage_never_throws (r : request_rec) :
  (forall e, fst (mapToStorage (initial r)) <> Throw e) /\
  (filename r <> None ->
   fst (mapToStorage (initial r)) = Ret OK \/
   fst (mapToStorage (initial r)) = Ret DECLINED).
Proof.
  assert (Hwf : wf_mapper (st_mapper (initial r))) by (intros _; reflexivity).
  pose proof (forwardToApplication_run (initial r) Hwf) as Hrun.
  destruct (forwardToApplication (initial r)) as [[[|]|e|] s1] eqn:Hforward.
  - destruct (mapToStorage_forwarded r s1 Hforward) as (b & _ & ->).
    cbn [fst].
    destruct (_ || _); split; try discriminate; auto.
  - unfold mapToStorage.
    rewrite (bind_pure (set_mapper DirectoryMapper_new) _ (initial r) tt
               eq_refl).
    unfold try_catch. rewrite bind_run, Hforward. cbn.
    split; [discriminate|auto].
  - destruct Hrun as (what & code & file & ->).
    unfold mapToStorage.
    rewrite (bind_pure (set_mapper DirectoryMapper_new) _ (initial r) tt
               eq_refl).
    unfold try_catch. rewrite bind_run, Hforward. cbn.
    split; [discriminate|auto].
  - cbn [initial st_r] in Hrun.
    unfold mapToStorage.
    rewrite (bind_pure (set_mapper DirectoryMapper_new) _ (initial r) tt
               eq_refl).
    unfold try_catch. rewrite bind_run, Hforward. cbn.
    split; [discriminate|]. intros H. contradiction.
Qed.

End MapperInvariant.


Lemma getBaseURI_memoised_witness :
  @getBaseURI (Example.rails_host [])
    (snd (@getBaseURI (Example.rails_host [])
            (@initial (Example.rails_host []) Example.a_get)))
  = (Ret (Some "/"%string),
     snd (@getBaseURI (Example.rails_host [])
            (@initial (Example.rails_host []) Example.a_get))).
Proof.
  apply (@getBaseURI_memoised (Example.rails_host [])
           (@initial (Example.rails_host []) Example.a_get)).
  - intros _. reflexivity.
  - vm_compute. reflexivity.
Defined.

Lemma getBaseURI_keeps_type_witness :
  typed_mapper
    (st_mapper (snd (@getBaseURI (Example.rails_host [])
                       (@initial (Example.rails_host []) Example.a_get)))) /\
  exists type,
    @getApplicationTypeString (Example.rails_host [])
      (snd (@getBaseURI (Example.rails_host [])
              (@initial (Example.rails_host []) Example.a_get)))
    = (Ret type,
       snd (@getBaseURI (Example.rails_host [])
              (@initial (Example.rails_host []) Example.a_get))) /\
    (type = None <-> Some "/"%string = None).
Proof.
  destruct (@getBaseURI_keeps_type (Example.rails_host [])
              (@initial (Example.rails_host []) Example.a_get)
              (snd (@getBaseURI (Example.rails_host [])
                      (@initial (Example.rails_host []) Example.a_get)))
              (Ret (Some "/"%string))) as [Htyped Hpost].
  - split; [split; reflexivity|reflexivity].
  - vm_compute. reflexivity.
  - split; [exact Htyped|]. exact (proj2 (Hpost _ eq_refl)).
Defined.

Lemma mapToStorage_takes_over_witness :
  fst (@mapToStorage (Example.rails_host [])
         (@initial (Example.rails_host []) Example.a_get))
  = Ret OK.
Proof.
  destruct (@mapToStorage_takes_over (Example.rails_host []) Example.a_get
              (snd (@forwardToApplication (Example.rails_host [])
                      (@initial (Example.rails_host []) Example.a_get))))
    as (_ & _ & b & _ & Hrun).
  - vm_compute. reflexivity.
  - rewrite Hrun. vm_compute. reflexivity.
Defined.

Lemma mapToStorage_never_throws_witness :
  fst (@mapToStorage Example.broken_host
         (@initial Example.broken_host Example.a_get)) = Ret OK \/
  fst (@mapToStorage Example.broken_host
         (@initial Example.broken_host Example.a_get)) = Ret DECLINED.
Proof.
  apply (proj2 (@mapToStorage_never_throws Example.broken_host
                  Example.a_get)).
  discriminate.
Defined.


(** ** The stages of [handleRequest] *)

Section Stages.

Context {host : Host}.

Lemma not_for_the_application_run (r : request_rec) :
  match not_for_the_application (initial r) with
  | (Ret false, s1) =>
      ready r s1 /\ forallb is_filesystem (st_trace s1) = true
  | (Ret true, s1) => forallb is_filesystem (st_trace s1) = true
  | (Throw e, s1) =>
      forallb is_filesystem (st_trace s1) = true /\
      exists what code file, e = FileSystemException what code file
  | (Undefined, _) => False
  end.
Proof.
  unfold not_for_the_application, bind, get_request.
  destruct (getBaseURI (initial r)) as [o s0] eqn:Hbase.
  destruct (getBaseURI_post _ _ _ Hbase) as (Hr & Hc & Hpost).
  destruct (emits_getBaseURI is_filesystem (fun e H => H) (initial r))
    as (_ & evs & Htrace & Hevs).
  rewrite Hbase in Htrace. cbn [snd initial st_trace app] in Htrace.
  cbn [initial st_r st_client] in Hr, Hc.
  assert (Hfs : forallb is_filesystem (st_trace s0) = true)
    by now rewrite Htrace.
  destruct (getBaseURI_mapper _ _ _ Hbase)
    as [(Hknown & _ & _)|[(_ & _ & ->)|[(b & t & Hm & Ht & ->)
       |(_ & what & code & file & ->)]]].
  - discriminate Hknown.
  - exact Hfs.
  - cbn [initial st_r]. destruct (filename r) as [f|]; [|exact Hfs].
    rewrite probe_call_run.
    assert (Hfs' : forallb is_filesystem
                     (st_trace (logged s0 (EvFilesystem P_fileExists f)))
                   = true).
    { cbn [logged st_trace]. rewrite forallb_app, Hfs. reflexivity. }
    destruct (fileExists f) as [[|]|what code file]; cbn [of_fs].
    + exact Hfs'.
    + split; [|exact Hfs']. unfold ready. rewrite Hbase.
      split; [exact Hr|]. split; [exact Hc|].
      cbn [logged st_mapper fst snd]. rewrite Hm.
      split; [|split; reflexivity].
      split; [reflexivity|]. split; [now exists b|exact Ht].
    + split; [exact Hfs'|eauto].
  - split; [exact Hfs|eauto].
Qed.

Lemma getPublicDirectory_resolved (s : state) (b : string) :
  baseURIKnown (st_mapper s) = true ->
  baseURI (st_mapper s) = Some b ->
  getPublicDirectory s
  = (Ret (Resolver.public_directory (ap_document_root (st_r s)) (Some b)),
     s).
Proof.
  intros Hknown Hb.
  unfold getPublicDirectory, bind, get_mapper, get_request, ret.
  rewrite Hknown. cbv beta iota. rewrite Hb.
  rewrite <- public_directory_code.
  destruct (0 <? strlen (ap_document_root (st_r s)))%nat; [|reflexivity].
  now destruct (negb (strcmp_eq b "/")).
Qed.

Lemma check_public_directory_run (s : state) (dir : string) :
  getPublicDirectory s = (Ret dir, s) ->
  check_public_directory s
  = if String.eqb dir EmptyString
    then (Ret (Some OK),
          {| st_r := st_r s; st_mapper := st_mapper s;
             st_client := st_client s;
             st_trace := st_trace s ++ document_root_error |})
    else (Ret None, s).
Proof.
  intros Hdir. unfold check_public_directory, try_catch.
  rewrite bind_run, Hdir.
  destruct (String.eqb dir EmptyString); [|reflexivity].
  cbn. now rewrite <- !app_assoc.
Qed.

(** How far [handleRequest] gets: it stops at the test of line 633, or
    reports that there is no public directory, or is refused the request
    body, or enters the [try] block of line 650. *)
Lemma handleRequest_stages (r : request_rec) :
  (fst (not_for_the_application (initial r)) <> Ret false /\
   forallb is_filesystem (st_trace (snd (handleRequest (initial r)))) = true /\
   (fst (handleRequest (initial r)) = Ret DECLINED \/
    exists what code file,
      fst (handleRequest (initial r))
      = Throw (FileSystemException what code file)))
  \/
  exists s1 dir,
    not_for_the_application (initial r) = (Ret false, s1) /\
    ready r s1 /\ forallb is_filesystem (st_trace s1) = true /\
    getPublicDirectory s1 = (Ret dir, s1) /\
    ((dir = EmptyString /\
      fst (handleRequest (initial r)) = Ret OK /\
      st_trace (snd (handleRequest (initial r)))
      = st_trace s1 ++ document_root_error)
     \/
     (dir <> EmptyString /\
      ap_setup_client_block r <> OK /\
      handleRequest (initial r)
      = (Ret (ap_setup_client_block r), logged s1 EvSetupClientBlock))
     \/
     (dir <> EmptyString /\
      ap_setup_client_block r = OK /\
      handleRequest (initial r)
      = try_catch serve_request internal_error
          (logged s1 EvSetupClientBlock))).
Proof.
  pose proof (not_for_the_application_run r) as Hrun.
  unfold handleRequest.
  rewrite (bind_pure (set_mapper DirectoryMapper_new) _ (initial r) tt eq_refl).
  rewrite bind_run.
  destruct (not_for_the_application (initial r)) as [[[|]|e|] s1] eqn:Hfirst.
  - left. cbn. split; [discriminate|]. split; [exact Hrun|now left].
  - right. destruct Hrun as [Hready Hfs].
    pose proof Hready as (Hr & Hc & (Hknown & [b Hb] & Ht) & _).
    pose proof (getPublicDirectory_resolved s1 b Hknown Hb) as Hdir.
    rewrite Hr in Hdir.
    exists s1, (Resolver.public_directory (ap_document_root r) (Some b)).
    split; [reflexivity|].
    split; [exact Hready|]. split; [exact Hfs|].
    split; [exact Hdir|].
    rewrite bind_run, (check_public_directory_run s1 _ Hdir).
    destruct (Resolver.public_directory (ap_document_root r) (Some b))
      as [|c dir] eqn:Edir.
    + left. split; [reflexivity|]. now split.
    + right. change (String.eqb (String c dir) EmptyString) with false.
      cbv iota.
      rewrite (bind_pure get_request _ s1 (st_r s1) eq_refl), Hr.
      rewrite bind_run.
      change (log EvSetupClientBlock s1)
        with (Ret tt, logged s1 EvSetupClientBlock).
      cbv iota.
      destruct (ap_setup_client_block r =? OK)%Z eqn:Esetup; cbn [negb].
      * right. apply Z.eqb_eq in Esetup.
        split; [discriminate|]. now split.
      * left. apply Z.eqb_neq in Esetup.
        split; [discriminate|]. now split.
  - left. destruct Hrun as (Hfs & what & code & file & ->). cbn.
    split; [discriminate|]. split; [exact Hfs|right; eauto].
  - contradiction.
Qed.

End Stages.


(** ** What [handleRequest] never does *)

Section Safety.

Context {host : Host}.

Variable r : request_rec.
Variable mp : DirectoryMapper.
Variable P : event -> bool.
Variable D : Prop.

Lemma safe_ret {A} (a : A) : safe r mp P D (ret a).
Proof.
  intros s Hs. cbn. split; [exact Hs|].
  split; [apply grows_refl|discriminate].
Qed.

Lemma safe_throw {A} (e : exn) : safe r mp P D (@throw A e).
Proof.
  intros s Hs. cbn. split; [exact Hs|]. split; [apply grows_refl|discriminate].
Qed.

Lemma safe_lift {A} (o : outcome A) : o <> Undefined -> safe r mp P D (lift o).
Proof.
  intros Ho s Hs. cbn. split; [exact Hs|].
  split; [apply grows_refl|intros _; exact Ho].
Qed.

Lemma of_fs_defined {A} (x : fs_result A) : of_fs x <> Undefined.
Proof. destruct x; discriminate. Qed.

Lemma of_result_defined {A} (x : result A) : of_result x <> Undefined.
Proof. destruct x; discriminate. Qed.

Lemma safe_log (e : event) : P e = true -> safe r mp P D (log e).
Proof.
  intros He s Hs. cbn. split; [exact Hs|]. split; [|discriminate].
  split; [reflexivity|]. exists [e]. cbn. now rewrite He.
Qed.

Lemma safe_get_client : safe r mp P D get_client.
Proof.
  intros s Hs. cbn. split; [exact Hs|]. split; [apply grows_refl|discriminate].
Qed.

Lemma safe_set_client (c : list string) : safe r mp P D (set_client c).
Proof.
  intros s Hs. cbn. split; [exact Hs|]. split; [|discriminate].
  split; [reflexivity|]. exists []. cbn. now rewrite app_nil_r.
Qed.

Lemma safe_bind {A B} (m : M A) (k : A -> M B) :
  safe r mp P D m -> (forall a, safe r mp P D (k a)) -> safe r mp P D (bind m k).
Proof.
  intros Hm Hk s Hs. unfold bind.
  destruct (Hm s Hs) as (H1 & H2 & H3).
  destruct (m s) as [[a| |] s1]; cbn [fst snd] in *.
  - destruct (Hk a s1 H1) as (H4 & H5 & H6).
    split; [exact H4|]. split; [exact (grows_trans _ _ _ _ H2 H5)|exact H6].
  - split; [exact H1|]. split; [exact H2|discriminate].
  - split; [exact H1|]. split; [exact H2|].
    intros HD. now destruct (H3 HD).
Qed.

(** A call that only reads the state: what follows is run with its
    value. *)
Lemma safe_read {A B} (m : M A) (a : A) (k : A -> M B) :
  (forall s, serves r mp s -> m s = (Ret a, s)) ->
  safe r mp P D (k a) -> safe r mp P D (bind m k).
Proof.
  intros Hm Hk s Hs. unfold bind. rewrite (Hm s Hs). exact (Hk s Hs).
Qed.

Lemma safe_request {B} (k : request_rec -> M B) :
  safe r mp P D (k r) -> safe r mp P D (bind get_request k).
Proof.
  apply safe_read. intros s [Hr _]. unfold get_request. now rewrite Hr.
Qed.

Lemma safe_mapper {B} (k : DirectoryMapper -> M B) :
  safe r mp P D (k mp) -> safe r mp P D (bind get_mapper k).
Proof.
  apply safe_read. intros s [_ Hm]. unfold get_mapper. now rewrite Hm.
Qed.

Lemma safe_try_catch {A} (m : M A) (h : exn -> option (M A)) :
  safe r mp P D m ->
  (forall e k, h e = Some k -> safe r mp P D k) ->
  safe r mp P D (try_catch m h).
Proof.
  intros Hm Hh s Hs. unfold try_catch.
  destruct (Hm s Hs) as (H1 & H2 & H3).
  destruct (m s) as [[a|e|] s1]; cbn [fst snd] in *.
  - split; [exact H1|]. split; [exact H2|discriminate].
  - destruct (h e) as [k|] eqn:E.
    + destruct (Hh e k E s1 H1) as (H4 & H5 & H6).
      split; [exact H4|]. split; [exact (grows_trans _ _ _ _ H2 H5)|exact H6].
    + split; [exact H1|]. split; [exact H2|discriminate].
  - split; [exact H1|]. split; [exact H2|exact H3].
Qed.

Hypothesis Hfilesystem : forall e, is_filesystem e = true -> P e = true.
Hypothesis Hsession :
  forall c, is_headers c = false -> P (EvSession c) = true.
Hypothesis Hheaders :
  forall buffer, payload_check r mp buffer = true ->
    P (EvSession (S_sendHeaders buffer)) = true.
Hypothesis Hresponse : forall e, is_response e = true -> P e = true.
Hypothesis Hrelay : forall e, is_relay e = true -> P e = true.
Hypothesis Hpool :
  forall a, spawn_check r mp a = true -> P (EvPoolGet a) = true.

Ltac safety :=
  repeat first
    [ apply safe_ret | apply safe_throw
    | apply safe_lift; first [apply of_fs_defined | apply of_result_defined]
    | apply safe_get_client | apply safe_set_client
    | apply safe_log; solve [auto]
    | apply safe_request | apply safe_mapper
    | apply safe_bind; [|intros ?] ].

(** A call to a filesystem helper: what follows is run with its
    answer. *)
Lemma safe_probe {A B} (p : probe) (f : string -> fs_result A)
  (path : string) (k : A -> M B) :
  (forall a, f path = Found a -> safe r mp P D (k a)) ->
  safe r mp P D (bind (probe_call p f path) k).
Proof.
  intros Hk s Hs. unfold bind. rewrite probe_call_run.
  assert (Hlog : serves r mp (logged s (EvFilesystem p path))) by exact Hs.
  assert (Hgrow : grows P s (logged s (EvFilesystem p path))).
  { split; [reflexivity|]. exists [EvFilesystem p path]. split; [reflexivity|].
    cbn. now rewrite Hfilesystem. }
  destruct (f path) as [a|what code file] eqn:E; cbn [of_fs fst snd].
  - destruct (Hk a eq_refl _ Hlog) as (H1 & H2 & H3).
    split; [exact H1|]. split; [exact (grows_trans _ _ _ _ Hgrow H2)|exact H3].
  - split; [exact Hlog|]. split; [exact Hgrow|discriminate].
Qed.

Lemma safe_undefined {A} : ~ D -> safe r mp P D (@undefined A).
Proof.
  intros HD s Hs. cbn. split; [exact Hs|].
  split; [apply grows_refl|]. intros H. contradiction.
Qed.

Lemma safe_session_do (c : session_call) :
  is_headers c = false -> safe r mp P D (session_do c).
Proof.
  intros Hc. unfold session_do.
  apply safe_bind; [apply safe_log; auto|intros _]. safety.
Qed.

Lemma safe_send_file_blocks (fuel : nat) (rest : string) :
  safe r mp P D (send_file_blocks fuel rest).
Proof.
  revert rest. induction fuel as [|fuel IH]; intros rest; cbn [send_file_blocks].
  - apply safe_ret.
  - apply safe_bind; [now apply safe_session_do|intros _].
    destruct (_ <? _)%nat; [apply safe_ret|apply IH].
Qed.

Section Body.

Hypothesis Hupload : forall e, is_upload e = true -> P e = true.

Lemma safe_stream_blocks (blocks : list string) :
  safe r mp P D (stream_blocks blocks).
Proof.
  induction blocks as [|buf rest IH]; cbn [stream_blocks].
  - safety.
  - apply safe_bind; [apply safe_set_client|intros _].
    apply safe_bind; [apply safe_log; auto|intros _].
    destruct (_ <? _)%nat; [|apply safe_ret].
    apply safe_bind; [now apply safe_session_do|intros _]. exact IH.
Qed.

Lemma safe_sendRequestBody : safe r mp P D sendRequestBody.
Proof.
  unfold sendRequestBody.
  apply safe_bind; [apply safe_get_client|intros blocks].
  apply safe_bind; [apply safe_stream_blocks|intros len].
  destruct (_ =? _)%Z; safety.
Qed.

Lemma safe_write_block (fuel : nat) (buf : string) (len written : nat)
  (file : string) :
  safe r mp P D (write_block fuel buf len written file).
Proof.
  revert written file.
  induction fuel as [|fuel IH]; intros written file; cbn [write_block].
  - apply safe_ret.
  - cbv zeta. apply safe_bind; [apply safe_log; auto|intros _].
    destruct (_ =? 0)%nat; [apply safe_throw|].
    destruct (_ <? _)%nat; [apply IH|apply safe_ret].
Qed.

Lemma safe_receive_blocks (blocks : list string) (file : string) :
  safe r mp P D (receive_blocks blocks file).
Proof.
  revert file. induction blocks as [|buf rest IH]; intros file;
    cbn [receive_blocks].
  - safety.
  - apply safe_bind; [apply safe_set_client|intros _].
    apply safe_bind; [apply safe_log; auto|intros _].
    cbv zeta. destruct (_ <? _)%nat; [|apply safe_ret].
    apply safe_bind; [apply safe_write_block|intros file']. apply IH.
Qed.

Lemma safe_receiveRequestBody :
  (D -> lookupHeader r "Content-Length" <> None) ->
  safe r mp P D receiveRequestBody.
Proof.
  intros Hcl. unfold receiveRequestBody.
  apply safe_bind; [safety|intros _].
  apply safe_bind; [apply safe_log; auto|intros _].
  apply safe_bind; [apply safe_get_client|intros blocks].
  apply safe_bind; [apply safe_receive_blocks|intros res].
  cbv zeta. destruct (_ =? _)%Z; [apply safe_throw|].
  apply safe_request.
  destruct (lookupHeader r "Content-Length") as [cl|].
  - destruct (negb _); safety.
  - apply safe_undefined. intros HD. now apply Hcl.
Qed.

End Body.

Hypothesis Hbody :
  ap_should_client_block r = true ->
  forall e, is_upload e = true -> P e = true.
Hypothesis Hlength :
  D -> ap_should_client_block r = true ->
  lookupHeader r "Content-Length" <> None.

Lemma safe_accelerate_upload :
  safe r mp P D (accelerate_upload (ap_should_client_block r)).
Proof.
  unfold accelerate_upload. apply safe_request.
  destruct (ap_should_client_block r) eqn:Hexpecting; [|apply safe_ret].
  pose proof (Hbody eq_refl) as Hupload.
  destruct (lookupHeader r "Content-Length") as [cl|] eqn:Ecl.
  - destruct (_ <? _)%Z; [|apply safe_ret].
    apply safe_bind; [|intros file; apply safe_ret].
    apply (safe_receiveRequestBody Hupload). rewrite Ecl. discriminate.
  - apply safe_undefined. intros HD. now apply (Hlength HD).
Qed.

Hypothesis Hmapper : resolved_mapper mp.

Lemma getBaseURI_serves (s : state) :
  serves r mp s -> getBaseURI s = (Ret (baseURI mp), s).
Proof.
  intros [_ Hm]. destruct Hmapper as (Hknown & _).
  unfold getBaseURI, bind, get_mapper. now rewrite Hm, Hknown.
Qed.

Lemma getApplicationType_serves (s : state) :
  serves r mp s -> getApplicationType s = (Ret (appType mp), s).
Proof.
  intros [_ Hm]. destruct Hmapper as (Hknown & _).
  rewrite getApplicationType_known by now rewrite Hm.
  now rewrite Hm.
Qed.

Lemma getPublicDirectory_serves (s : state) :
  serves r mp s ->
  getPublicDirectory s
  = (Ret (Resolver.public_directory (ap_document_root r) (baseURI mp)), s).
Proof.
  intros [Hr Hm]. destruct Hmapper as (Hknown & [b Hb] & _).
  rewrite (getPublicDirectory_resolved s b) by (rewrite Hm; assumption).
  now rewrite Hr, Hb.
Qed.

Lemma getApplicationTypeString_serves (s : state) :
  serves r mp s ->
  getApplicationTypeString s = (Ret (type_name (appType mp)), s).
Proof.
  destruct Hmapper as (Hknown & _). intros [_ Hm].
  unfold getApplicationTypeString, bind, get_mapper, ret.
  rewrite Hm, Hknown. cbv beta iota. now rewrite Hm.
Qed.

Lemma safe_acquire_session : safe r mp P D acquire_session.
Proof.
  unfold acquire_session. apply safe_try_catch.
  - apply safe_request. cbv zeta.
    apply (safe_read _ (appType mp)); [apply getApplicationType_serves|].
    apply (safe_read _
             (match appType mp with
              | RAILS => match railsEnv (getDirConfig r) with
                         | None => DEFAULT_RAILS_ENV
                         | Some e => e
                         end
              | RACK => match rackEnv (getDirConfig r) with
                        | None => DEFAULT_RACK_ENV
                        | Some e => e
                        end
              | _ => DEFAULT_WSGI_ENV
              end)).
    { intros s Hs. destruct (appType mp) eqn:Et; try reflexivity;
        unfold bind; rewrite (getApplicationType_serves s Hs), Et;
        reflexivity. }
    apply (safe_read _ (Resolver.public_directory (ap_document_root r)
                          (baseURI mp)));
      [apply getPublicDirectory_serves|].
    apply safe_probe. intros root Hroot.
    apply (safe_read _ (type_name (appType mp)));
      [apply getApplicationTypeString_serves|].
    destruct Hmapper as (_ & _ & Htype).
    destruct (appType mp) eqn:Et; [contradiction|..]; cbn [type_name];
      unfold applicationPool_get;
      (apply safe_bind; [|intros pid; apply safe_ret]);
      (apply safe_bind; [|intros _; safety]);
      apply safe_log, Hpool; unfold spawn_check;
      cbn [pg_appRoot pg_lowerPrivilege pg_user pg_environment
           pg_spawnMethod pg_appType];
      unfold getDirConfig, getServerConfig, DEFAULT_RAILS_ENV,
        DEFAULT_RACK_ENV, DEFAULT_WSGI_ENV;
      rewrite Hroot, Et, !String.eqb_refl; reflexivity.
  - intros e k E. destruct e; try discriminate E.
    + destruct errorPage as [page|]; inversion E; subst.
      * unfold ap_set_content_type, ap_rputs. safety.
      * apply safe_throw.
    + inversion E; subst.
      unfold reportBusyException, ap_custom_response. safety.
Qed.

Lemma header_buffer_defined (b : string) :
  exists buffer, header_buffer (sendHeaders_table r b) = Some buffer.
Proof.
  unfold sendHeaders_table.
  rewrite env_variables_present, http_headers_present,
    cgi_variables_present, <- !present_app.
  match goal with
  | |- context [present ?t] => destruct (present_pairs t) as [hs ->]
  end.
  unfold header_buffer. rewrite append_headers_pairs. eauto.
Qed.

Lemma safe_sendHeaders (b : string) :
  baseURI mp = Some b -> safe r mp P D (sendHeaders (Some b)).
Proof.
  intros Hb. unfold sendHeaders. apply safe_request.
  destruct (negb apr_table_make_ok); [apply safe_ret|].
  destruct (header_buffer_defined b) as [buffer Hbuffer]. rewrite Hbuffer.
  apply safe_bind; [|intros _; apply safe_ret].
  unfold session_do.
  apply safe_bind; [|intros _; safety].
  apply safe_log, Hheaders. unfold payload_check.
  now rewrite Hb, Hbuffer, String.eqb_refl.
Qed.

Lemma safe_forward_request (uploadData : option string) :
  safe r mp P D (forward_request (ap_should_client_block r) uploadData).
Proof.
  unfold forward_request. apply safe_request.
  apply safe_bind; [now apply safe_session_do|intros _].
  apply safe_bind; [now apply safe_session_do|intros _].
  apply (safe_read _ (baseURI mp)); [apply getBaseURI_serves|].
  destruct Hmapper as (_ & [b Hb] & _). rewrite Hb.
  apply safe_bind; [now apply safe_sendHeaders|intros _].
  apply safe_bind.
  { destruct (ap_should_client_block r) eqn:Hexpecting; [|apply safe_ret].
    pose proof (Hbody eq_refl) as Hupload.
    destruct uploadData as [file|].
    - apply safe_send_file_blocks.
    - now apply safe_sendRequestBody. }
  intros _.
  apply safe_bind; [now apply safe_session_do|intros _].
  apply safe_bind; [now apply safe_session_do|intros _].
  apply safe_bind; [apply safe_log; auto|intros _].
  apply safe_bind; [apply safe_log; auto|intros _].
  apply safe_bind; [now apply safe_session_do|intros _].
  apply safe_ret.
Qed.

Lemma safe_serve_request : safe r mp P D serve_request.
Proof.
  unfold serve_request. apply safe_request. cbv zeta.
  apply safe_bind; [apply safe_accelerate_upload|intros uploadData].
  apply safe_bind; [apply safe_acquire_session|intros [status|pid]].
  - apply safe_ret.
  - apply safe_forward_request.
Qed.

End Safety.


Section Never.

Context {host : Host}.

Lemma forallb_weaken {A} (P Q : A -> bool) (l : list A) :
  (forall x, P x = true -> Q x = true) ->
  forallb P l = true -> forallb Q l = true.
Proof.
  intros H. induction l as [|x l IH]; cbn; [reflexivity|].
  intros E. apply andb_prop in E as [Ex El]. now rewrite (H x Ex), IH.
Qed.

(** The state in which the [try] block of line 650 is entered. *)
Lemma serves_setup (r : request_rec) (s1 : state) :
  ready r s1 ->
  serves r (st_mapper s1) (logged s1 EvSetupClientBlock) /\
  resolved_mapper (st_mapper s1).
Proof.
  intros (Hr & _ & Hm & _). split; [split; [exact Hr|reflexivity]|exact Hm].
Qed.

(** X12.  A request that brings its [Content-Length] whenever the host
    expects it to have a body is handled without anything that C++
    leaves undefined: no NULL pointer is read as a string. *)
Theorem handleRequest_defined (r : request_rec) :
  (ap_should_client_block r = true ->
   lookupHeader r "Content-Length" <> None) ->
  fst (handleRequest (initial r)) <> Undefined.
Proof.
  intros Hcl.
  destruct (handleRequest_stages r)
    as [(_ & _ & [H|(what & code & file & H)])
       |(s1 & dir & _ & Hready & _ & _ &
         [(_ & H & _)|[(_ & _ & H)|(_ & _ & H)]])];
    rewrite H; try discriminate.
  destruct (internal_error_run (logged s1 EvSetupClientBlock)) as [_ ->].
  destruct (serves_setup r s1 Hready) as [Hs Hm].
  destruct (safe_serve_request r (st_mapper s1) (fun _ => true) True
              (fun _ _ => eq_refl) (fun _ _ => eq_refl)
              (fun _ _ => eq_refl) (fun _ _ => eq_refl)
              (fun _ _ => eq_refl) (fun _ _ => eq_refl)
              (fun _ _ _ => eq_refl) (fun _ => Hcl) Hm _ Hs)
    as (_ & _ & Hdefined).
  specialize (Hdefined I).
  destruct (fst (serve_request (logged s1 EvSetupClientBlock)))
    as [status|[]|]; try discriminate. contradiction.
Qed.

(** X13.  When the host expects no request body, [handleRequest] never
    reads from the client and never touches a temporary file. *)
Theorem no_body_no_read (r : request_rec) :
  ap_should_client_block r = false ->
  forallb (fun e => negb (is_upload e))
    (st_trace (snd (handleRequest (initial r)))) = true.
Proof.
  intros Hexpecting.
  assert (Hfs : forall l, forallb is_filesystem l = true ->
                  forallb (fun e => negb (is_upload e)) l = true).
  { intros l. apply forallb_weaken. now intros []. }
  destruct (handleRequest_stages r)
    as [(_ & H & _)
       |(s1 & dir & _ & Hready & Hs1 & _ &
         [(_ & _ & H)|[(_ & _ & H)|(_ & _ & H)]])].
  - now apply Hfs.
  - rewrite H, forallb_app, (Hfs _ Hs1). reflexivity.
  - rewrite H. cbn [snd logged st_trace].
    rewrite forallb_app, (Hfs _ Hs1). reflexivity.
  - rewrite H.
    destruct (internal_error_run (logged s1 EvSetupClientBlock)) as [-> _].
    destruct (serves_setup r s1 Hready) as [Hs Hm].
    destruct (safe_serve_request r (st_mapper s1)
                (fun e => negb (is_upload e)) False) with
      (s := logged s1 EvSetupClientBlock)
      as (_ & (_ & evs & -> & Hevs) & _);
      try (now intros []); try reflexivity; try assumption;
      try contradiction.
    + intros E. rewrite Hexpecting in E. discriminate.
    + cbn [logged st_trace].
      rewrite !forallb_app, (Hfs _ Hs1), Hevs. reflexivity.
Qed.

(** X14.  The only exceptions that leave [handleRequest] are those that
    only [catch (...)] catches, thrown again at line 770, and the
    [FileSystemException] of a filesystem helper called for the test of
    line 633, before anything but the filesystem was touched. *)
Theorem handleRequest_throws (r : request_rec) (e : exn) :
  fst (handleRequest (initial r)) = Throw e ->
  e = foreign_exception \/
  (exists what code file, e = FileSystemException what code file) /\
  forallb is_filesystem (st_trace (snd (handleRequest (initial r)))) = true.
Proof.
  destruct (handleRequest_stages r)
    as [(_ & Hfs & [H|(what & code & file & H)])
       |(s1 & dir & _ & Hready & _ & _ &
         [(_ & H & _)|[(_ & _ & H)|(_ & _ & H)]])];
    rewrite H; try discriminate.
  - intros E; inversion E; subst. right. split; [eauto|].
    exact Hfs.
  - destruct (internal_error_run (logged s1 EvSetupClientBlock)) as [_ ->].
    destruct (fst (serve_request (logged s1 EvSetupClientBlock)))
      as [status|[]|]; try discriminate.
    intros E; inversion E. now left.
Qed.

(** X15.  When [ap_setup_client_block] answers with a status other than
    [OK], the request asks the pool for nothing, talks to no session and
    reads nothing from the client; if it got as far as that call, the
    status is what [handleRequest] returns. *)
Theorem client_block_refused (r : request_rec) :
  ap_setup_client_block r <> OK ->
  forallb (fun e => negb (is_pool_get e || is_session e || is_upload e))
    (st_trace (snd (handleRequest (initial r)))) = true /\
  (In EvSetupClientBlock (st_trace (snd (handleRequest (initial r)))) ->
   fst (handleRequest (initial r)) = Ret (ap_setup_client_block r)).
Proof.
  intros Hsetup.
  assert (Hfs : forall l, forallb is_filesystem l = true ->
                  forallb (fun e => negb (is_pool_get e || is_session e
                                          || is_upload e)) l = true).
  { intros l. apply forallb_weaken. now intros []. }
  assert (Hno : forall l, forallb is_filesystem l = true ->
                  ~ In EvSetupClientBlock l).
  { intros l Hl Hin. rewrite forallb_forall in Hl.
    specialize (Hl _ Hin). discriminate. }
  destruct (handleRequest_stages r)
    as [(_ & H & _)
       |(s1 & dir & _ & Hready & Hs1 & _ &
         [(_ & _ & H)|[(_ & _ & H)|(_ & E & _)]])].
  - split; [now apply Hfs|]. intros Hin. now apply Hno in Hin.
  - rewrite H, forallb_app, (Hfs _ Hs1). split; [reflexivity|].
    intros Hin. apply in_app_or in Hin as [Hin|Hin].
    + now apply Hno in Hin.
    + cbn in Hin. intuition discriminate.
  - rewrite H. cbn [fst snd logged st_trace].
    rewrite forallb_app, (Hfs _ Hs1). split; reflexivity.
  - contradiction.
Qed.

(** X16.  A request for the application whose document root is the empty
    string gets the page "Passenger error #1", with the status [OK], and
    nothing else happens: the pool is not asked. *)
Theorem document_root_unknown (r : request_rec) :
  fst (not_for_the_application (initial r)) = Ret false ->
  ap_document_root r = EmptyString ->
  fst (handleRequest (initial r)) = Ret OK /\
  exists probes,
    forallb is_filesystem probes = true /\
    st_trace (snd (handleRequest (initial r)))
    = probes ++ document_root_error.
Proof.
  intros Hfirst Hroot.
  destruct (handleRequest_stages r)
    as [(Hnot & _)
       |(s1 & dir & _ & Hready & Hs1 & Hdir &
         [(_ & H & Htrace)|[(Hsome & _)|(Hsome & _)]])].
  - contradiction.
  - split; [exact H|]. exists (st_trace s1). now split.
  - exfalso. apply Hsome.
    destruct Hready as (Hr & _ & (Hknown & [b Hb] & _) & _).
    rewrite (getPublicDirectory_resolved s1 b Hknown Hb), Hr, Hroot in Hdir.
    now inversion Hdir.
  - exfalso. apply Hsome.
    destruct Hready as (Hr & _ & (Hknown & [b Hb] & _) & _).
    rewrite (getPublicDirectory_resolved s1 b Hknown Hb), Hr, Hroot in Hdir.
    now inversion Hdir.
Qed.

Lemma handleRequest_as_resolved (r : request_rec) :
  forallb (as_resolved r (st_mapper (snd (getBaseURI (initial r)))))
    (st_trace (snd (handleRequest (initial r)))) = true.
Proof.
  set (mp := st_mapper (snd (getBaseURI (initial r)))).
  assert (Hfs : forall l, forallb is_filesystem l = true ->
                  forallb (as_resolved r mp) l = true).
  { intros l. apply forallb_weaken. now intros []. }
  destruct (handleRequest_stages r)
    as [(_ & H & _)
       |(s1 & dir & _ & Hready & Hs1 & _ &
         [(_ & _ & H)|[(_ & _ & H)|(_ & _ & H)]])].
  - now apply Hfs.
  - rewrite H, forallb_app, (Hfs _ Hs1). reflexivity.
  - rewrite H. cbn [snd logged st_trace].
    rewrite forallb_app, (Hfs _ Hs1). reflexivity.
  - rewrite H.
    destruct (internal_error_run (logged s1 EvSetupClientBlock)) as [-> _].
    destruct (serves_setup r s1 Hready) as [Hs Hm].
    destruct Hready as (_ & _ & _ & _ & Hlink).
    fold mp in Hlink. rewrite <- Hlink in Hs, Hm.
    destruct (safe_serve_request r mp (as_resolved r mp) False) with
      (s := logged s1 EvSetupClientBlock)
      as (_ & (_ & evs & -> & Hevs) & _);
      try (now intros []); try assumption; try contradiction.
    + intros _. now intros [].
    + cbn [logged st_trace].
      rewrite !forallb_app, (Hfs _ Hs1), Hevs. reflexivity.
Qed.

(** X17.  What the pool is asked to spawn is the application that the
    mapper resolved: its root is the parent of the public directory,
    made canonical; its type and environment are those of the resolved
    type ([RailsEnv] or [RackEnv] when set, ["production"] otherwise and
    for WSGI); the spawn method is ["conservative"] only when configured
    so; the user is the default user, ["nobody"] when there is none, and
    privileges are always lowered. *)
Theorem pool_get_arguments (r : request_rec) (a : pool_get_args) :
  In (EvPoolGet a) (st_trace (snd (handleRequest (initial r)))) ->
  exists b,
    fst (getBaseURI (initial r)) = Ret (Some b) /\
    canonicalizePath
      (Resolver.public_directory (ap_document_root r) (Some b) +++ "/..")
    = Found (pg_appRoot a) /\
    pg_lowerPrivilege a = true /\
    pg_user a = match defaultUser (server_module_config r) with
                | Some u => u
                | None => "nobody"%string
                end /\
    pg_spawnMethod a = match spawnMethod (per_dir_config r) with
                       | SM_CONSERVATIVE => "conservative"%string
                       | _ => "smart"%string
                       end /\
    match appType (st_mapper (snd (getBaseURI (initial r)))) with
    | RAILS =>
        pg_appType a = "rails"%string /\
        pg_environment a = match railsEnv (per_dir_config r) with
                           | Some e => e
                           | None => "production"%string
                           end
    | RACK =>
        pg_appType a = "rack"%string /\
        pg_environment a = match rackEnv (per_dir_config r) with
                           | Some e => e
                           | None => "production"%string
                           end
    | WSGI =>
        pg_appType a = "wsgi"%string /\
        pg_environment a = "production"%string
    | NONE => False
    end.
Proof.
  intros Hin.
  pose proof (handleRequest_as_resolved r) as Hall.
  rewrite forallb_forall in Hall. specialize (Hall _ Hin).
  cbn [as_resolved] in Hall. unfold spawn_check in Hall.
  assert (Hbase : fst (getBaseURI (initial r))
                  = Ret (baseURI (st_mapper (snd (getBaseURI (initial r)))))).
  { destruct (handleRequest_stages r)
      as [(_ & Hfs & _)|(s1 & _ & _ & Hready & _)].
    - rewrite forallb_forall in Hfs. specialize (Hfs _ Hin). discriminate.
    - destruct Hready as (_ & _ & _ & H1 & H2). now rewrite H2. }
  apply andb_prop in Hall as [Hall Htype].
  apply andb_prop in Hall as [Hall Hmethod].
  apply andb_prop in Hall as [Hall Huser].
  apply andb_prop in Hall as [Hroot Hlower].
  apply String.eqb_eq in Hmethod, Huser.
  destruct (baseURI (st_mapper (snd (getBaseURI (initial r)))))
    as [b|] eqn:Hb.
  - exists b. split; [exact Hbase|].
    destruct (canonicalizePath _) as [root|]; [|discriminate].
    apply String.eqb_eq in Hroot. subst root.
    repeat (split; [assumption|]).
    destruct (appType _); try discriminate;
      apply andb_prop in Htype as [Hname Henv];
      apply String.eqb_eq in Hname, Henv; now split.
  - exfalso.
    destruct (handleRequest_stages r)
      as [(_ & Hfs & _)|(s1 & _ & _ & Hready & _)].
    + rewrite forallb_forall in Hfs. specialize (Hfs _ Hin). discriminate.
    + destruct Hready as (_ & _ & (_ & [b' Hb'] & _) & _ & Hlink).
      rewrite <- Hlink, Hb in Hb'. discriminate.
Qed.

(** X18.  The headers that a session is sent are the payload of the
    header table of the request, built for the base URI that the mapper
    resolved. *)
Theorem headers_payload_sent (r : request_rec) (buffer : string) :
  In (EvSession (S_sendHeaders buffer))
    (st_trace (snd (handleRequest (initial r)))) ->
  exists b,
    fst (getBaseURI (initial r)) = Ret (Some b) /\
    header_buffer (sendHeaders_table r b) = Some buffer.
Proof.
  intros Hin.
  pose proof (handleRequest_as_resolved r) as Hall.
  rewrite forallb_forall in Hall. specialize (Hall _ Hin).
  cbn [as_resolved] in Hall. unfold payload_check in Hall.
  destruct (baseURI (st_mapper (snd (getBaseURI (initial r)))))
    as [b|] eqn:Hb; [|discriminate].
  exists b. split.
  - destruct (handleRequest_stages r)
      as [(_ & Hfs & _)|(s1 & _ & _ & Hready & _)].
    + rewrite forallb_forall in Hfs. specialize (Hfs _ Hin). discriminate.
    + destruct Hready as (_ & _ & _ & H1 & H2). now rewrite H1, <- H2, Hb.
  - destruct (header_buffer (sendHeaders_table r b)) as [payload|];
      [|discriminate].
    apply String.eqb_eq in Hall. now subst.
Qed.

End Never.

Lemma handleRequest_defined_witness :
  fst (@handleRequest (Example.upload_host [Example.bytes (90 * 100)])
         (@initial (Example.upload_host [Example.bytes (90 * 100)])
            (Example.a_post "9000")))
  <> Undefined.
Proof.
  apply (@handleRequest_defined (Example.upload_host [Example.bytes (90 * 100)])).
  intros _. discriminate.
Defined.

Lemma no_body_no_read_witness :
  forallb (fun e => negb (is_upload e))
    (st_trace (snd (@handleRequest (Example.rails_host [])
                      (@initial (Example.rails_host []) Example.a_get))))
  = true.
Proof.
  apply (@no_body_no_read (Example.rails_host [])). reflexivity.
Defined.

Lemma handleRequest_throws_witness :
  Example.denied = foreign_exception \/
  (exists what code file,
     Example.denied = FileSystemException what code file) /\
  forallb is_filesystem
    (st_trace (snd (@handleRequest Example.broken_host
                      (@initial Example.broken_host Example.a_get))))
  = true.
Proof.
  apply (@handleRequest_throws Example.broken_host Example.a_get).
  reflexivity.
Defined.

Lemma client_block_refused_witness :
  forallb (fun e => negb (is_pool_get e || is_session e || is_upload e))
    (st_trace (snd (@handleRequest Scenario.refusing_host
                      (@initial Scenario.refusing_host Example.a_get))))
  = true /\
  (In EvSetupClientBlock
     (st_trace (snd (@handleRequest Scenario.refusing_host
                       (@initial Scenario.refusing_host Example.a_get)))) ->
   fst (@handleRequest Scenario.refusing_host
          (@initial Scenario.refusing_host Example.a_get))
   = Ret Scenario.HTTP_BAD_REQUEST).
Proof.
  apply (@client_block_refused Scenario.refusing_host Example.a_get).
  discriminate.
Defined.

Lemma document_root_unknown_witness :
  fst (@handleRequest Scenario.rootless_host
         (@initial Scenario.rootless_host Example.a_get)) = Ret OK /\
  exists probes,
    forallb is_filesystem probes = true /\
    st_trace (snd (@handleRequest Scenario.rootless_host
                     (@initial Scenario.rootless_host Example.a_get)))
    = probes ++ document_root_error.
Proof.
  apply (@document_root_unknown Scenario.rootless_host Example.a_get);
    reflexivity.
Defined.

Lemma pool_get_arguments_witness :
  exists b,
    fst (@getBaseURI (Example.rails_host [])
           (@initial (Example.rails_host []) Example.a_get))
    = Ret (Some b) /\
    @canonicalizePath (Example.rails_host [])
      (Resolver.public_directory
         (@ap_document_root (Example.rails_host []) Example.a_get) (Some b)
       +++ "/..")
    = Found (pg_appRoot Example.rails_get).
Proof.
  destruct (@pool_get_arguments (Example.rails_host []) Example.a_get
              Example.rails_get) as (b & H1 & H2 & _).
  - vm_compute. tauto.
  - exists b. now split.
Defined.

Lemma headers_payload_sent_witness :
  exists b,
    fst (@getBaseURI (Example.rails_host [])
           (@initial (Example.rails_host []) Example.a_get))
    = Ret (Some b) /\
    header_buffer
      (@sendHeaders_table (Example.rails_host []) Example.a_get b)
    = header_buffer
        (@sendHeaders_table (Example.rails_host []) Example.a_get "/").
Proof.
  let payload :=
    eval vm_compute in
      (header_buffer
         (@sendHeaders_table (Example.rails_host []) Example.a_get "/")) in
  match payload with
  | Some ?buffer =>
      destruct (@headers_payload_sent (Example.rails_host []) Example.a_get
                  buffer) as (b & Hbase & Hpayload);
      [vm_compute; tauto
      |exists b; split; [exact Hbase|rewrite Hpayload; vm_compute; reflexivity]]
  end.
Defined.


(** ** The request body *)

Section RequestBody.

Context {host : Host}.

Lemma length_append (a b : string) :
  String.length (a +++ b) = String.length a + String.length b.
Proof. induction a as [|c a IH]; cbn; [reflexivity|now rewrite IH]. Qed.

Lemma length_take (n : nat) (s : string) :
  n <= String.length s -> String.length (take n s) = n.
Proof.
  revert s. induction n as [|n IH]; intros [|c s] H; cbn in *;
    try reflexivity; try lia.
  rewrite IH; lia.
Qed.

Lemma take_drop (n : nat) (s : string) : take n s +++ drop n s = s.
Proof.
  revert s. induction n as [|n IH]; intros [|c s]; cbn; try reflexivity.
  now rewrite IH.
Qed.

Lemma write_block_length (fuel : nat) (buf : string) (len written : nat)
  (file file' : string) (s : state) :
  len <= String.length buf -> len - written <= fuel -> written < len ->
  fst (write_block fuel buf len written file s) = Ret file' ->
  String.length file' = String.length file + (len - written).
Proof.
  intros Hbuf. revert written file s.
  induction fuel as [|fuel IH]; intros written file s Hfuel Hlt; [lia|].
  cbn [write_block].
  set (n := Nat.min (fwrite (String.length file) (len - written))
                    (len - written)).
  assert (Hn : n <= len - written) by apply Nat.le_min_r.
  unfold bind, log. cbv iota beta.
  destruct (n =? 0)%nat eqn:E0; [discriminate|].
  apply Nat.eqb_neq in E0.
  destruct (written + n <? len)%nat eqn:E.
  - apply Nat.ltb_lt in E. intros H.
    apply IH in H; [|lia..].
    rewrite H, length_append, length_take by lia. lia.
  - apply Nat.ltb_ge in E. intros H. inversion H.
    rewrite length_append, length_take by lia. lia.
Qed.

Lemma receive_blocks_length (blocks : list string) (file file' : string)
  (len : Z) (s : state) :
  fst (receive_blocks blocks file s) = Ret (len, file') ->
  String.length file'
  = String.length file + String.length (body_of blocks).
Proof.
  revert file s. induction blocks as [|buf rest IH]; intros file s.
  - cbn. intros H; inversion H. lia.
  - rewrite receive_blocks_cons.
    destruct (0 <? String.length buf)%nat eqn:Hlen.
    + apply Nat.ltb_lt in Hlen.
      pose proof (write_block_length (String.length buf) buf
                    (String.length buf) 0 file) as Hw.
      destruct (write_block (String.length buf) buf (String.length buf) 0
                  file (read_block s rest buf)) as [[file1| |] s1] eqn:E;
        try discriminate.
      intros H. apply IH in H. rewrite H.
      rewrite (Hw file1 (read_block s rest buf)); try lia;
        [|now rewrite E].
      destruct buf as [|c buf]; [inversion Hlen|].
      cbn [body_of]. rewrite length_append. lia.
    + apply Nat.ltb_ge in Hlen. destruct buf; [|cbn in Hlen; lia].
      cbn. intros H; inversion H. lia.
Qed.

Lemma receiveRequestBody_returns (s : state) (file : string) :
  fst (receiveRequestBody s) = Ret file ->
  exists cl,
    lookupHeader (st_r s) "Content-Length" = Some cl /\
    Z.of_nat (String.length (body_of (st_client s))) = atol cl /\
    String.length file = String.length (body_of (st_client s)).
Proof.
  rewrite receiveRequestBody_eq.
  destruct TempFile_new as [[]|e]; [|discriminate].
  destruct (receive_blocks_run (st_client s) EmptyString
              (logged s EvTempFileCreate)) as (evs & (Hr & _) & _).
  pose proof (receive_blocks_length (st_client s) EmptyString) as Hlen.
  destruct (receive_blocks (st_client s) EmptyString
              (logged s EvTempFileCreate))
    as [[[len file1]| |] s1] eqn:E; try discriminate.
  cbn [fst snd logged st_r] in *.
  specialize (Hlen file1 len (logged s EvTempFileCreate)).
  rewrite E in Hlen. specialize (Hlen eq_refl). cbn in Hlen.
  destruct (len =? -1)%Z; [discriminate|]. rewrite Hr.
  destruct (lookupHeader (st_r s) "Content-Length") as [cl|];
    [|discriminate].
  destruct (Z.of_nat (String.length file1) =? atol cl)%Z eqn:Hcl;
    cbn [negb]; [|discriminate].
  intros H; inversion H; subst. apply Z.eqb_eq in Hcl.
  exists cl. split; [reflexivity|]. rewrite <- Hlen. now split.
Qed.

(** X19.  [receiveRequestBody] returns only when the client has sent
    exactly as many bytes as its [Content-Length] says, and the
    temporary file then has that many bytes, however [fwrite] has split
    the writes.  All it has done is create the file, read the client and
    write the file. *)
Theorem receiveRequestBody_length (s : state) (file : string) :
  fst (receiveRequestBody s) = Ret file ->
  exists cl evs,
    lookupHeader (st_r s) "Content-Length" = Some cl /\
    Z.of_nat (String.length (body_of (st_client s))) = atol cl /\
    String.length file = String.length (body_of (st_client s)) /\
    st_trace (snd (receiveRequestBody s)) = st_trace s ++ evs /\
    forallb is_upload evs = true /\
    In EvTempFileCreate evs.
Proof.
  intros Hrun.
  destruct (receiveRequestBody_returns s file Hrun) as (cl & Hcl & Hsent & Hlen).
  destruct (receiveRequestBody_run s)
    as (evs & (_ & _ & Htrace & Hevs) & Hcomplete).
  destruct (Hcomplete file Hrun) as (Hcreated & _).
  exists cl, evs. repeat split; assumption.
Qed.

(** X20.  When [fwrite] writes only the first [k] bytes of a block, the
    loop of lines 512-520 asks it again for the bytes that are left but
    hands it the beginning of the buffer once more: the file receives
    the first [k] bytes of the block, then its first [len - k] bytes. *)
Theorem short_write_restarts (buf file : string) (k : nat) (s : state) :
  0 < k -> k < String.length buf ->
  fwrite (String.length file) (String.length buf) = k ->
  String.length buf - k
  <= fwrite (String.length file + k) (String.length buf - k) ->
  write_block (String.length buf) buf (String.length buf) 0 file s
  = (Ret (file +++ take k buf +++ take (String.length buf - k) buf),
     logged (logged s (EvTempFileWrite (take k buf)))
       (EvTempFileWrite (take (String.length buf - k) buf))).
Proof.
  intros Hk Hlen Hfirst Hsecond.
  destruct (String.length buf) as [|len] eqn:E; [lia|].
  destruct len as [|len]; [lia|].
  cbn [write_block]. rewrite Nat.sub_0_r, Hfirst.
  rewrite (Nat.min_l k) by lia.
  unfold bind at 1. unfold log at 1. cbv iota beta.
  destruct (Nat.eqb_spec k 0) as [->|_]; [lia|].
  cbn [Nat.add].
  destruct (Nat.ltb_spec k (S (S len))) as [_|]; [|lia].
  rewrite length_append, length_take by lia.
  rewrite (Nat.min_r _ (S (S len) - k)) by exact Hsecond.
  unfold bind, log. cbv iota beta.
  destruct (Nat.eqb_spec (S (S len) - k) 0) as [|_]; [lia|].
  destruct (Nat.ltb_spec (k + (S (S len) - k)) (S (S len))) as [|_]; [lia|].
  now rewrite append_assoc.
Qed.

End RequestBody.


Lemma receiveRequestBody_length_witness :
  exists cl,
    lookupHeader (Example.a_post "3") "Content-Length" = Some cl /\
    Z.of_nat (String.length (body_of ["abc"%string])) = atol cl /\
    String.length "abc" = String.length (body_of ["abc"%string]).
Proof.
  destruct (@receiveRequestBody_length (Example.upload_host ["abc"%string])
              (@initial (Example.upload_host ["abc"%string])
                 (Example.a_post "3")) "abc")
    as (cl & evs & Hcl & Hsent & Hlen & _).
  - vm_compute. reflexivity.
  - exists cl. split; [exact Hcl|]. split; [exact Hsent|exact Hlen].
Defined.

Lemma short_write_restarts_witness :
  fst (@write_block
         (Scenario.host "/website/public/" OK []
            (fun size n => if (size =? 0)%nat then 2 else n)
            (fun _ => Ok tt))
         5 "abcde" 5 0 ""
         (@initial
            (Scenario.host "/website/public/" OK []
               (fun size n => if (size =? 0)%nat then 2 else n)
               (fun _ => Ok tt))
            Example.a_get))
  = Ret "ababc"%string.
Proof.
  change 5 with (String.length "abcde").
  rewrite (@short_write_restarts
             (Scenario.host "/website/public/" OK []
                (fun size n => if (size =? 0)%nat then 2 else n)
                (fun _ => Ok tt))
             "abcde" "" 2).
  - reflexivity.
  - lia.
  - cbn. lia.
  - reflexivity.
  - cbn. lia.
Defined.


Section BodyForwarding.

Context {host : Host}.

Lemma sent_blocks_app (a b : list event) :
  sent_blocks (a ++ b) = sent_blocks a ++ sent_blocks b.
Proof.
  induction a as [|e a IH]; [reflexivity|].
  destruct e as [| | | | | | | | |[]| |]; cbn; now rewrite ?IH.
Qed.

Lemma block_count (n : nat) :
  BLOCK <= n -> n / BLOCK = (n - BLOCK) / BLOCK + 1.
Proof.
  intros H. assert (HB : BLOCK <> 0) by (unfold BLOCK; lia).
  rewrite <- (Nat.div_add _ 1 BLOCK HB). f_equal. lia.
Qed.

Lemma session_do_run (c : session_call) (s : state) :
  session_do c s = (of_result (session_answer c), logged s (EvSession c)).
Proof. reflexivity. Qed.

Lemma send_file_blocks_run (fuel : nat) (rest : string) (s : state) :
  String.length rest < fuel ->
  match send_file_blocks fuel rest s with
  | (Ret _, s') =>
      exists blocks,
        st_trace s'
        = st_trace s ++ map (fun b => EvSession (S_sendBodyBlock b)) blocks /\
        concat_blocks blocks = rest /\
        length blocks = String.length rest / BLOCK + 1 /\
        Forall (fun b => String.length b <= BLOCK) blocks
  | _ => True
  end.
Proof.
  revert rest s. induction fuel as [|fuel IH]; intros rest s Hfuel; [lia|].
  cbn [send_file_blocks]. rewrite bind_run, session_do_run.
  set (size := Nat.min BLOCK (String.length rest)).
  destruct (session_answer (S_sendBodyBlock (take size rest))) as [[]|e];
    cbn [of_result]; [|exact I].
  destruct (String.length rest <? BLOCK)%nat eqn:Hlt.
  - apply Nat.ltb_lt in Hlt.
    assert (Hsize : size = String.length rest) by (apply Nat.min_r; lia).
    exists [rest]. rewrite Hsize, take_length.
    cbn [logged st_trace map concat_blocks length].
    rewrite append_empty_r, Nat.div_small by exact Hlt.
    repeat split. constructor; [lia|constructor].
  - apply Nat.ltb_ge in Hlt.
    assert (Hsize : size = BLOCK) by (apply Nat.min_l; lia).
    assert (HB : 0 < BLOCK) by (unfold BLOCK; lia).
    match goal with
    | |- context [send_file_blocks fuel ?t ?s0] =>
        assert (H := IH t s0); destruct (send_file_blocks fuel t s0)
          as [[[]| |] s']; try exact I
    end.
    destruct H as (blocks & Htrace & Hconcat & Hcount & Hall);
      [rewrite length_drop; lia|].
    exists (take size rest :: blocks). rewrite Htrace. cbn [logged st_trace map].
    rewrite <- app_assoc. split; [reflexivity|].
    cbn [concat_blocks length]. rewrite Hconcat, take_drop.
    split; [reflexivity|]. split.
    + rewrite Hcount, length_drop, Hsize, (block_count _ Hlt). lia.
    + constructor; [|exact Hall].
      rewrite length_take; lia.
Qed.

(** X21.  [sendRequestBody] on a temporary file, when the session takes
    every block, sends the content of the file and nothing else: in
    order, in blocks of at most 32 KiB, one block more than the file has
    whole blocks (so an empty file is sent as one empty block). *)
Theorem sendRequestBody_file_sends_file (uploadData : string) (s : state) :
  fst (sendRequestBody_file uploadData s) = Ret tt ->
  exists blocks,
    st_trace (snd (sendRequestBody_file uploadData s))
    = st_trace s ++ map (fun b => EvSession (S_sendBodyBlock b)) blocks /\
    concat_blocks blocks = uploadData /\
    length blocks = String.length uploadData / BLOCK + 1 /\
    Forall (fun b => String.length b <= BLOCK) blocks.
Proof.
  unfold sendRequestBody_file.
  pose proof (send_file_blocks_run (S (String.length uploadData)) uploadData
                s (Nat.lt_succ_diag_r _)) as H.
  destruct (send_file_blocks (S (String.length uploadData)) uploadData s)
    as [[[]| |] s']; try discriminate.
  intros _. exact H.
Qed.

Lemma stream_blocks_run (blocks : list string) (s : state) :
  match stream_blocks blocks s with
  | (Ret len, s') =>
      st_trace s'
      = st_trace s ++ streamed (body_blocks blocks)
        ++ [EvGetClientBlock EmptyString]
  | _ => True
  end.
Proof.
  revert s. induction blocks as [|buf rest IH]; intros s.
  - reflexivity.
  - cbn [stream_blocks].
    rewrite bind_run. cbn [set_client]. rewrite bind_run. cbn [log].
    destruct buf as [|c buf]; [reflexivity|].
    change (0 <? String.length (String c buf))%nat with true. cbv iota.
    rewrite bind_run, session_do_run.
    destruct (session_answer (S_sendBodyBlock (String c buf))) as [[]|e];
      cbn [of_result]; [|exact I].
    match goal with
    | |- context [stream_blocks rest ?s0] =>
        assert (H := IH s0); destruct (stream_blocks rest s0)
          as [[len| |] s']; try exact I
    end.
    rewrite H. cbn [logged st_trace body_blocks streamed flat_map app].
    now rewrite <- !app_assoc.
Qed.

Lemma sent_streamed (blocks : list string) :
  sent_blocks (streamed blocks) = blocks.
Proof.
  induction blocks as [|b rest IH]; [reflexivity|].
  change (streamed (b :: rest))
    with (EvGetClientBlock b :: EvSession (S_sendBodyBlock b)
          :: streamed rest).
  cbn [sent_blocks]. now rewrite IH.
Qed.

Lemma concat_body_blocks (blocks : list string) :
  concat_blocks (body_blocks blocks) = body_of blocks.
Proof.
  induction blocks as [|[|c b] rest IH]; try reflexivity.
  cbn [body_blocks concat_blocks body_of]. now rewrite IH.
Qed.

(** X22.  The streaming [sendRequestBody], when it returns, has handed
    to the session every block of the body as the client delivered it,
    each one before the next was read, and has read the client up to the
    end of the stream. *)
Theorem sendRequestBody_streams (s : state) :
  fst (sendRequestBody s) = Ret tt ->
  exists evs,
    st_trace (snd (sendRequestBody s)) = st_trace s ++ evs /\
    evs = streamed (body_blocks (st_client s))
          ++ [EvGetClientBlock EmptyString] /\
    sent_blocks evs = body_blocks (st_client s) /\
    concat_blocks (sent_blocks evs) = body_of (st_client s).
Proof.
  unfold sendRequestBody.
  rewrite (bind_pure get_client _ s (st_client s) eq_refl), bind_run.
  pose proof (stream_blocks_run (st_client s) s) as Hrun.
  destruct (stream_blocks (st_client s) s) as [[len| |] s1];
    try discriminate.
  destruct (len =? -1)%Z; [discriminate|]. intros _.
  assert (Hsent : sent_blocks (streamed (body_blocks (st_client s))
                               ++ [EvGetClientBlock EmptyString])
                  = body_blocks (st_client s)).
  { rewrite sent_blocks_app, sent_streamed. apply app_nil_r. }
  eexists. split; [exact Hrun|]. split; [reflexivity|].
  split; [exact Hsent|]. rewrite Hsent. apply concat_body_blocks.
Qed.

Lemma write_block_fails (fuel : nat) (buf : string) (len written : nat)
  (file : string) (s : state) :
  match write_block fuel buf len written file s with
  | (Ret _, _) => True
  | (Throw e, _) => exists what code, e = SystemException what code
  | (Undefined, _) => False
  end.
Proof.
  revert written file s.
  induction fuel as [|fuel IH]; intros written file s; cbn [write_block].
  - exact I.
  - cbv zeta. rewrite bind_run. cbn [log].
    destruct (_ =? 0)%nat; [cbn; eauto|].
    destruct (_ <? _)%nat; [apply IH|exact I].
Qed.

Lemma receive_blocks_fails (blocks : list string) (file : string)
  (s : state) :
  match receive_blocks blocks file s with
  | (Ret _, _) => True
  | (Throw e, _) => exists what code, e = SystemException what code
  | (Undefined, _) => False
  end.
Proof.
  revert file s. induction blocks as [|buf rest IH]; intros file s.
  - exact I.
  - rewrite receive_blocks_cons.
    destruct (0 <? String.length buf)%nat; [|exact I].
    pose proof (write_block_fails (String.length buf) buf
                  (String.length buf) 0 file (read_block s rest buf)) as Hw.
    destruct (write_block (String.length buf) buf (String.length buf) 0
                file (read_block s rest buf)) as [[file1|e|] s1];
      [apply IH|exact Hw|exact Hw].
Qed.

Lemma receiveRequestBody_fails (s : state) :
  match receiveRequestBody s with
  | (Ret _, _) => True
  | (Throw e, s') =>
      (TempFile_new = Raise e /\ s' = s) \/
      (exists what, e = IOException what) \/
      (exists what code, e = SystemException what code)
  | (Undefined, _) => lookupHeader (st_r s) "Content-Length" = None
  end.
Proof.
  rewrite receiveRequestBody_eq.
  destruct TempFile_new as [[]|e]; [|now left].
  destruct (receive_blocks_run (st_client s) EmptyString
              (logged s EvTempFileCreate)) as (evs & (Hr & _) & _).
  pose proof (receive_blocks_fails (st_client s) EmptyString
                (logged s EvTempFileCreate)) as Hf.
  destruct (receive_blocks (st_client s) EmptyString
              (logged s EvTempFileCreate)) as [[res|e|] s1];
    cbn [snd logged st_r] in Hr.
  - destruct (fst res =? -1)%Z; [right; left; eauto|]. rewrite Hr.
    destruct (lookupHeader (st_r s) "Content-Length") as [cl|];
      [|reflexivity].
    destruct (negb _); [right; left; eauto|exact I].
  - now right; right.
  - contradiction.
Qed.

(** X23.  An upload above the threshold whose body does not have the
    length that [Content-Length] says is never forwarded: the pool is
    not asked for a session and no session is talked to; once the
    temporary file is created, the request is answered with the status
    500. *)
Theorem incomplete_upload_stays_out (r : request_rec) (cl : string) :
  ap_should_client_block r = true ->
  lookupHeader r "Content-Length" = Some cl ->
  (UPLOAD_ACCELERATION_THRESHOLD < atol cl)%Z ->
  Z.of_nat (String.length request_body) <> atol cl ->
  forallb (fun e => negb (is_pool_get e || is_session e))
    (st_trace (snd (handleRequest (initial r)))) = true /\
  (In EvTempFileCreate (st_trace (snd (handleRequest (initial r)))) ->
   fst (handleRequest (initial r)) = Ret HTTP_INTERNAL_SERVER_ERROR).
Proof.
  intros Hexpecting Hcl Hbig Hshort.
  assert (Hfs : forall l, forallb is_filesystem l = true ->
                  forallb (fun e => negb (is_pool_get e || is_session e)) l
                  = true).
  { intros l. apply forallb_impl. now intros []. }
  assert (Hup : forall l, forallb is_upload l = true ->
                  forallb (fun e => negb (is_pool_get e || is_session e)) l
                  = true).
  { intros l. apply forallb_impl. now intros []. }
  assert (Hno : forall l, forallb is_filesystem l = true ->
                  ~ In EvTempFileCreate l).
  { intros l Hl Hin. rewrite forallb_forall in Hl.
    specialize (Hl _ Hin). discriminate. }
  destruct (handleRequest_stages r)
    as [(_ & H & _)
       |(s1 & dir & _ & Hready & Hs1 & _ &
         [(_ & _ & H)|[(_ & _ & H)|(_ & _ & H)]])].
  - split; [now apply Hfs|]. intros Hin. now apply Hno in Hin.
  - rewrite H, forallb_app, (Hfs _ Hs1). split; [reflexivity|].
    intros Hin. apply in_app_or in Hin as [Hin|Hin].
    + now apply Hno in Hin.
    + cbn in Hin. intuition discriminate.
  - rewrite H. cbn [fst snd logged st_trace].
    rewrite forallb_app, (Hfs _ Hs1). split; [reflexivity|].
    intros Hin. apply in_app_or in Hin as [Hin|Hin].
    + now apply Hno in Hin.
    + cbn in Hin. intuition discriminate.
  - rewrite H.
    destruct (internal_error_run (logged s1 EvSetupClientBlock))
      as [-> ->].
    destruct Hready as (Hr & Hc & _).
    set (s2 := logged s1 EvSetupClientBlock).
    assert (Hr2 : st_r s2 = r) by exact Hr.
    assert (Hc2 : st_client s2 = client_blocks) by exact Hc.
    destruct (receiveRequestBody_run s2) as (evs & (_ & _ & Ht & Hevs) & _).
    pose proof (receiveRequestBody_returns s2) as Hlen.
    pose proof (receiveRequestBody_fails s2) as Hfail.
    unfold serve_request.
    rewrite (bind_pure get_request _ s2 (st_r s2) eq_refl), Hr2, Hexpecting.
    rewrite bind_run. unfold accelerate_upload.
    rewrite (bind_pure get_request _ s2 (st_r s2) eq_refl), Hr2, Hcl.
    apply Z.ltb_lt in Hbig. rewrite Hbig. rewrite bind_run.
    destruct (receiveRequestBody s2) as [[file|e|] s3].
    + exfalso. destruct (Hlen file eq_refl) as (cl' & E & Hbody & _).
      rewrite Hr2, Hcl in E. inversion E; subst cl'.
      rewrite Hc2 in Hbody. exact (Hshort Hbody).
    + cbn [fst snd] in *. rewrite Ht. unfold s2. cbn [logged st_trace].
      rewrite !forallb_app, (Hfs _ Hs1), (Hup _ Hevs).
      split; [reflexivity|].
      destruct Hfail as [[_ ->]|[[what ->]|(what & code & ->)]];
        try reflexivity.
      intros Hin. exfalso. unfold s2 in Ht. cbn [logged st_trace] in Ht.
      assert (Hnil : evs = []).
      { apply (f_equal (@length event)) in Ht. rewrite !length_app in Ht.
        destruct evs; [reflexivity|cbn in Ht; lia]. }
      subst evs. rewrite app_nil_r in Hin.
      apply in_app_or in Hin as [Hin|Hin].
      * now apply Hno in Hin.
      * cbn in Hin. intuition discriminate.
    + exfalso. rewrite Hr2, Hcl in Hfail. discriminate.
Qed.

End BodyForwarding.


Lemma sendRequestBody_file_sends_file_witness :
  exists blocks,
    st_trace
      (snd (@sendRequestBody_file Example.plain_host "abc"
              (@initial Example.plain_host Example.a_get)))
    = map (fun b => EvSession (S_sendBodyBlock b)) blocks /\
    concat_blocks blocks = "abc"%string.
Proof.
  destruct (@sendRequestBody_file_sends_file Example.plain_host "abc"
              (@initial Example.plain_host Example.a_get))
    as (blocks & Htrace & Hconcat & _).
  - reflexivity.
  - exists blocks. split; [exact Htrace|exact Hconcat].
Defined.

Lemma sendRequestBody_streams_witness :
  exists evs,
    st_trace
      (snd (@sendRequestBody (Example.upload_host ["abc"; "de"]%string)
              (@initial (Example.upload_host ["abc"; "de"]%string)
                 (Example.a_post "5"))))
    = evs /\
    sent_blocks evs = ["abc"; "de"]%string /\
    concat_blocks (sent_blocks evs) = "abcde"%string.
Proof.
  destruct (@sendRequestBody_streams
              (Example.upload_host ["abc"; "de"]%string)
              (@initial (Example.upload_host ["abc"; "de"]%string)
                 (Example.a_post "5")) eq_refl)
    as (evs & Htrace & _ & Hsent & Hbody).
  exists evs. split; [exact Htrace|]. split; [exact Hsent|exact Hbody].
Defined.

Lemma incomplete_upload_stays_out_witness :
  forallb (fun e => negb (is_pool_get e || is_session e))
    (st_trace
       (snd (@handleRequest (Example.upload_host ["abc"%string])
               (@initial (Example.upload_host ["abc"%string])
                  (Example.a_post "9000")))))
  = true /\
  fst (@handleRequest (Example.upload_host ["abc"%string])
         (@initial (Example.upload_host ["abc"%string])
            (Example.a_post "9000")))
  = Ret HTTP_INTERNAL_SERVER_ERROR.
Proof.
  destruct (@incomplete_upload_stays_out
              (Example.upload_host ["abc"%string]) (Example.a_post "9000")
              "9000") as [Hout Hstatus].
  - reflexivity.
  - reflexivity.
  - reflexivity.
  - vm_compute. discriminate.
  - split; [exact Hout|]. apply Hstatus. vm_compute. tauto.
Defined.


(** ** The pool and the session *)

Section PoolAndSession.

Context {host : Host}.

Lemma quiet_not_pool (r : request_rec) (e : event) :
  quiet r e = true -> is_pool_get e = false.
Proof.
  unfold quiet, before_pool. destruct e; try reflexivity.
  cbn. now rewrite andb_false_r.
Qed.

Lemma after_pool_not_response (r : request_rec) (e : event) :
  after_pool r e = true -> is_response e = false.
Proof.
  unfold after_pool. destruct e; try reflexivity; cbn;
    rewrite ?andb_false_r; discriminate.
Qed.

(** X24.  [handleRequest] asks the pool for a session at most once. *)
Theorem pool_asked_once (r : request_rec) (pre post : list event)
  (a : pool_get_args) :
  st_trace (snd (handleRequest (initial r))) = pre ++ EvPoolGet a :: post ->
  forallb (fun e => negb (is_pool_get e)) pre = true /\
  forallb (fun e => negb (is_pool_get e)) post = true.
Proof.
  intros Htrace.
  destruct (handleRequest_run r)
    as [Hquiet|(pre0 & a0 & post0 & Hrun & Hpre & _ & Hpost)].
  - rewrite Htrace in Hquiet. apply forallb_mid in Hquiet.
    apply quiet_not_pool in Hquiet. discriminate.
  - assert (H1 : forallb (fun e => negb (is_pool_get e)) pre0 = true).
    { revert Hpre. apply forallb_impl. intros e He.
      now rewrite (before_pool_not_pool r e He). }
    pose proof (answered_not_pool _ _ _ _ Hpost) as H2.
    rewrite Htrace in Hrun. symmetry in Hrun.
    destruct (pool_get_once _ _ _ _ _ _ H1 H2 Hrun) as (-> & _ & ->).
    now split.
Qed.

(** X25.  No call is made on a session that the pool has not handed
    out: every session call of a request comes after a call of
    [ApplicationPool::get] that returned. *)
Theorem session_needs_get (r : request_rec) (pre post : list event)
  (e : event) :
  st_trace (snd (handleRequest (initial r))) = pre ++ e :: post ->
  is_session e = true ->
  exists pre' a post' pid,
    pre = pre' ++ EvPoolGet a :: post' /\ pool_get a = Ok pid.
Proof.
  intros Htrace He.
  destruct (handleRequest_run r)
    as [Hquiet|(pre0 & a0 & post0 & Hrun & Hpre & _ & Hpost)].
  - rewrite Htrace in Hquiet. apply forallb_mid in Hquiet.
    apply quiet_not_session in Hquiet. congruence.
  - rewrite Htrace in Hrun.
    destruct (app_cons_split _ _ _ _ _ _ Hrun)
      as [(k & E1 & E2)|[(_ & E & _)|(k & E1 & E2)]].
    + rewrite E1 in Hpre. apply forallb_mid in Hpre.
      apply before_pool_not_session in Hpre. congruence.
    + subst e. discriminate He.
    + exists pre0, a0, k. unfold answered in Hpost.
      destruct (pool_get a0) as [pid|[]] eqn:Hpool;
        [exists pid; now split|..];
        try (destruct Hpost as [_ ->]; destruct k; discriminate E2).
      * destruct errorPage as [page|]; destruct Hpost as [_ ->].
        -- destruct k as [|x [|y [|z k]]]; inversion E2; subst;
             discriminate He.
        -- destruct k; discriminate E2.
      * destruct Hpost as [_ ->].
        destruct k as [|x [|y k]]; inversion E2; subst; discriminate He.
Qed.

(** X26.  A request to which the module writes a response of its own (an
    error page or the "too busy" message) is never talked about with a
    session. *)
Theorem own_response_excludes_session (r : request_rec) (e : event) :
  In e (st_trace (snd (handleRequest (initial r)))) ->
  is_response e = true ->
  forallb (fun e => negb (is_session e))
    (st_trace (snd (handleRequest (initial r)))) = true.
Proof.
  intros Hin He.
  destruct (handleRequest_run r)
    as [Hquiet|(pre0 & a0 & post0 & Hrun & Hpre & _ & Hpost)].
  - revert Hquiet. apply forallb_impl. intros x Hx.
    now rewrite (quiet_not_session r x Hx).
  - assert (H1 : forallb (fun e => negb (is_session e)) pre0 = true).
    { revert Hpre. apply forallb_impl. intros x Hx.
      now rewrite (before_pool_not_session r x Hx). }
    rewrite Hrun in Hin |- *. rewrite forallb_app, H1. cbn.
    unfold answered in Hpost.
    destruct (pool_get a0) as [pid|exc].
    + exfalso. apply in_app_or in Hin as [Hin|[Hin|Hin]].
      * rewrite forallb_forall in Hpre.
        apply Hpre, before_pool_not_response in Hin. congruence.
      * subst e. discriminate He.
      * rewrite forallb_forall in Hpost.
        apply Hpost, after_pool_not_response in Hin. congruence.
    + destruct exc as [| | |what [page|]| | | |];
        destruct Hpost as [_ ->]; reflexivity.
Qed.

End PoolAndSession.

(** ** The sentinel of the header payload *)

Section Sentinel.

Import Reference.

Lemma flat_pairs_app (a b : list (string * string)) :
  flat_pairs (a ++ b) = flat_pairs a +++ flat_pairs b.
Proof.
  induction a as [|p a IH]; cbn; [reflexivity|].
  now rewrite IH, append_assoc.
Qed.

Lemma drop_trailing_empty_length (l : list string) :
  length (drop_trailing_empty l) <= length l.
Proof.
  induction l as [|f l IH]; cbn; [lia|].
  destruct (drop_trailing_empty l); [destruct f|]; cbn in *; lia.
Qed.

Lemma drop_trailing_empty_last (l : list string) :
  drop_trailing_empty (l ++ [EmptyString]) = drop_trailing_empty l.
Proof.
  induction l as [|f l IH]; cbn; [reflexivity|]. now rewrite IH.
Qed.

Lemma pairs_length (l : list string) : 2 * length (pairs l) <= length l.
Proof.
  assert (H : forall n l, length l <= n -> 2 * length (pairs l) <= length l).
  { induction n as [|n IH]; intros [|k [|v rest]] Hn; cbn in *; try lia.
    specialize (IH rest). lia. }
  now apply (H (length l)).
Qed.

(** X27.  Why line 499 appends the sentinel: without it, the payload of
    a table whose last value is empty does not come back from the
    splitter of the worker; the last pair, at least, is lost. *)
Theorem sentinel_needed (hs : list (string * string)) (name buffer : string) :
  Forall pair_nul_free hs -> nul_free name = true ->
  append_headers EmptyString
    (table_of_pairs (hs ++ [(name, EmptyString)])) = Some buffer ->
  length (pairs (split NUL buffer)) < length (hs ++ [(name, EmptyString)]).
Proof.
  intros Hhs Hname. rewrite append_headers_pairs. cbn [String.append].
  intros E; inversion E; subst buffer; clear E.
  rewrite flat_pairs_app. unfold split.
  rewrite (fields_flat_pairs hs _ Hhs).
  cbn [flat_pairs flat_pair fst snd String.append].
  rewrite append_empty_r, (fields_field name _ Hname).
  cbn [fields]. rewrite Ascii.eqb_refl.
  change (flat_fields hs ++ name :: [EmptyString; EmptyString])
    with (flat_fields hs ++ [name] ++ [EmptyString] ++ [EmptyString]).
  rewrite !app_assoc, !drop_trailing_empty_last.
  pose proof (pairs_length (drop_trailing_empty (flat_fields hs ++ [name]))).
  pose proof (drop_trailing_empty_length (flat_fields hs ++ [name])).
  rewrite !length_app, length_flat_fields in *. cbn [length] in *. lia.
Qed.

End Sentinel.


Lemma pool_asked_once_witness :
  forallb (fun e => negb (is_pool_get e))
    (firstn 4
       (st_trace (snd (@handleRequest (Example.rails_host [])
                         (@initial (Example.rails_host []) Example.a_get)))))
  = true /\
  forallb (fun e => negb (is_pool_get e))
    (skipn 5
       (st_trace (snd (@handleRequest (Example.rails_host [])
                         (@initial (Example.rails_host []) Example.a_get)))))
  = true.
Proof.
  apply (@pool_asked_once (Example.rails_host []) Example.a_get _ _
           Example.rails_get).
  vm_compute. reflexivity.
Defined.

Lemma session_needs_get_witness :
  exists pre' a post' pid,
    firstn 5
      (st_trace (snd (@handleRequest (Example.rails_host [])
                        (@initial (Example.rails_host []) Example.a_get))))
    = pre' ++ EvPoolGet a :: post' /\
    @pool_get (Example.rails_host []) a = Ok pid.
Proof.
  apply (@session_needs_get (Example.rails_host []) Example.a_get _
           (skipn 6
              (st_trace
                 (snd (@handleRequest (Example.rails_host [])
                         (@initial (Example.rails_host []) Example.a_get)))))
           (EvSession (S_setReaderTimeout 300000))).
  - vm_compute. reflexivity.
  - reflexivity.
Defined.

Lemma own_response_excludes_session_witness :
  forallb (fun e => negb (is_session e))
    (st_trace (snd (@handleRequest Example.failing_host
                      (@initial Example.failing_host Example.a_get))))
  = true.
Proof.
  apply (@own_response_excludes_session Example.failing_host Example.a_get
           (EvSetContentType "text/html; charset=utf-8")).
  - vm_compute. tauto.
  - reflexivity.
Defined.

Lemma sentinel_needed_witness :
  length
    (Reference.pairs
       (Reference.split NUL
          ("A" +++ String NUL ("1" +++ String NUL
                                 ("B" +++ String NUL
                                    (String NUL EmptyString))))))
  < length ([("A"%string, "1"%string)] ++ [("B"%string, ""%string)]).
Proof.
  apply (sentinel_needed [("A"%string, "1"%string)] "B").
  - repeat constructor.
  - reflexivity.
  - reflexivity.
Defined.


(** ** The order of the exchange with a session *)

Section Exchange.

Context {host : Host}.

Variable r : request_rec.
Variable mp : DirectoryMapper.

Hypothesis Hmapper : resolved_mapper mp.

Lemma session_calls_app (a b : list event) :
  session_calls (a ++ b) = session_calls a ++ session_calls b.
Proof.
  induction a as [|e a IH]; [reflexivity|].
  destruct e; cbn; now rewrite ?IH.
Qed.

Lemma session_calls_none (l : list event) :
  forallb (fun e => negb (is_session e)) l = true -> session_calls l = [].
Proof.
  induction l as [|e l IH]; [reflexivity|]. cbn. intros H.
  apply andb_prop in H as [He Hl]. destruct e; try discriminate He; auto.
Qed.

Lemma in_order_lower (lo lo' : nat) (l : list session_call) :
  lo' <= lo -> in_order lo l = true -> in_order lo' l = true.
Proof.
  destruct l as [|c l]; [reflexivity|]. cbn. intros Hlo H.
  apply andb_prop in H as [Hc Hl]. apply Nat.leb_le in Hc.
  rewrite Hl, andb_true_r. apply Nat.leb_le. lia.
Qed.

Lemma in_order_app (lo mid : nat) (l1 l2 : list session_call) :
  lo <= mid ->
  in_order lo l1 = true ->
  forallb (fun c => (next_rank c <=? mid)%nat) l1 = true ->
  in_order mid l2 = true ->
  in_order lo (l1 ++ l2) = true.
Proof.
  revert lo. induction l1 as [|c l1 IH]; intros lo Hlo H1 Hmid H2.
  - now apply (in_order_lower mid).
  - cbn in *. apply andb_prop in H1 as [Hc H1].
    apply andb_prop in Hmid as [Hcm Hmid]. rewrite Hc. cbn [andb].
    apply IH; auto. now apply Nat.leb_le.
Qed.

Lemma next_rank_raise (hi hi' : nat) (l : list session_call) :
  hi <= hi' ->
  forallb (fun c => (next_rank c <=? hi)%nat) l = true ->
  forallb (fun c => (next_rank c <=? hi')%nat) l = true.
Proof.
  intros Hhi. apply forallb_impl. intros c Hc.
  apply Nat.leb_le in Hc. apply Nat.leb_le. lia.
Qed.

Lemma ordered_ret {A} (n : nat) (a : A) : ordered r mp n n (ret a).
Proof.
  intros s Hs. split; [exact Hs|]. exists []. cbn.
  now rewrite app_nil_r.
Qed.

Lemma ordered_throw {A} (n : nat) (e : exn) : ordered r mp n n (@throw A e).
Proof.
  intros s Hs. split; [exact Hs|]. exists []. cbn.
  now rewrite app_nil_r.
Qed.

(** What makes no session call is in order anywhere. *)
Lemma ordered_silent {A} (n : nat) (m : M A) :
  safe r mp (fun e => negb (is_session e)) False m -> ordered r mp n n m.
Proof.
  intros Hm s Hs. destruct (Hm s Hs) as (H1 & (_ & evs & Ht & Hevs) & _).
  split; [exact H1|]. exists evs. split; [exact Ht|].
  now rewrite (session_calls_none _ Hevs).
Qed.

Lemma ordered_bind {A B} (lo mid hi : nat) (m : M A) (k : A -> M B) :
  lo <= mid -> mid <= hi ->
  ordered r mp lo mid m -> (forall a, ordered r mp mid hi (k a)) ->
  ordered r mp lo hi (bind m k).
Proof.
  intros Hlo Hhi Hm Hk s Hs. unfold bind.
  destruct (Hm s Hs) as (Hs1 & e1 & Ht1 & Ho1 & Hb1).
  destruct (m s) as [[a| |] s1]; cbn [snd] in *.
  - destruct (Hk a s1 Hs1) as (Hs2 & e2 & Ht2 & Ho2 & Hb2).
    split; [exact Hs2|].
    exists (e1 ++ e2). rewrite Ht2, Ht1, <- app_assoc.
    split; [reflexivity|]. rewrite session_calls_app. split.
    + now apply (in_order_app lo mid).
    + rewrite forallb_app, Hb2, andb_true_r.
      now apply (next_rank_raise mid).
  - split; [exact Hs1|]. exists e1. split; [exact Ht1|].
    split; [exact Ho1|]. now apply (next_rank_raise mid).
  - split; [exact Hs1|]. exists e1. split; [exact Ht1|].
    split; [exact Ho1|]. now apply (next_rank_raise mid).
Qed.

Lemma ordered_read {A B} (lo hi : nat) (m : M A) (a : A) (k : A -> M B) :
  (forall s, serves r mp s -> m s = (Ret a, s)) ->
  ordered r mp lo hi (k a) -> ordered r mp lo hi (bind m k).
Proof.
  intros Hm Hk s Hs. unfold bind. rewrite (Hm s Hs). exact (Hk s Hs).
Qed.

Lemma ordered_request {B} (lo hi : nat) (k : request_rec -> M B) :
  ordered r mp lo hi (k r) -> ordered r mp lo hi (bind get_request k).
Proof.
  apply ordered_read. intros s [Hr _]. unfold get_request. now rewrite Hr.
Qed.

Lemma ordered_session_do (c : session_call) :
  ordered r mp (rank c) (next_rank c) (session_do c).
Proof.
  intros s Hs. rewrite session_do_run. split; [exact Hs|].
  exists [EvSession c]. split; [reflexivity|]. cbn.
  now rewrite !Nat.leb_refl.
Qed.

Lemma ordered_weaken {A} (lo lo' hi hi' : nat) (m : M A) :
  lo' <= lo -> hi <= hi' -> ordered r mp lo hi m -> ordered r mp lo' hi' m.
Proof.
  intros Hlo Hhi Hm s Hs. destruct (Hm s Hs) as (Hs1 & evs & Ht & Ho & Hb).
  split; [exact Hs1|]. exists evs. split; [exact Ht|].
  split; [now apply (in_order_lower lo)|now apply (next_rank_raise hi)].
Qed.

Lemma ordered_log {A} (lo hi : nat) (e : event) (k : M A) :
  lo <= hi -> is_session e = false ->
  ordered r mp lo hi k -> ordered r mp lo hi (bind (log e) (fun _ => k)).
Proof.
  intros Hlo He Hk.
  apply (ordered_bind lo lo hi); try lia; [|intros _; exact Hk].
  intros s Hs. split; [exact Hs|]. exists [e]. split; [reflexivity|].
  destruct e; try discriminate He; split; reflexivity.
Qed.

Lemma ordered_set_client {A} (lo hi : nat) (c : list string) (k : M A) :
  lo <= hi ->
  ordered r mp lo hi k ->
  ordered r mp lo hi (bind (set_client c) (fun _ => k)).
Proof.
  intros Hlo Hk.
  apply (ordered_bind lo lo hi); try lia; [|intros _; exact Hk].
  intros s Hs. split; [exact Hs|]. exists []. cbn. now rewrite app_nil_r.
Qed.

Lemma ordered_send_file_blocks (fuel : nat) (rest : string) :
  ordered r mp 3 3 (send_file_blocks fuel rest).
Proof.
  revert rest. induction fuel as [|fuel IH]; intros rest;
    cbn [send_file_blocks].
  - apply ordered_ret.
  - apply (ordered_bind 3 3 3); try lia.
    + apply (ordered_session_do (S_sendBodyBlock _)).
    + intros _. destruct (_ <? _)%nat; [apply ordered_ret|apply IH].
Qed.

Lemma ordered_stream_blocks (blocks : list string) :
  ordered r mp 3 3 (stream_blocks blocks).
Proof.
  induction blocks as [|buf rest IH]; cbn [stream_blocks].
  - apply ordered_set_client; [lia|].
    apply ordered_log; [lia|reflexivity|apply ordered_ret].
  - apply ordered_set_client; [lia|].
    apply ordered_log; [lia|reflexivity|].
    destruct (_ <? _)%nat; [|apply ordered_ret].
    apply (ordered_bind 3 3 3); try lia; [|intros _; exact IH].
    apply (ordered_session_do (S_sendBodyBlock _)).
Qed.

Lemma ordered_sendRequestBody : ordered r mp 3 3 sendRequestBody.
Proof.
  unfold sendRequestBody.
  apply (ordered_bind 3 3 3); try lia.
  - intros s Hs. split; [exact Hs|]. exists []. cbn. now rewrite app_nil_r.
  - intros blocks. apply (ordered_bind 3 3 3); try lia.
    + apply ordered_stream_blocks.
    + intros len. destruct (_ =? _)%Z; [apply ordered_throw|apply ordered_ret].
Qed.

Lemma ordered_sendHeaders (b : string) :
  ordered r mp 2 3 (sendHeaders (Some b)).
Proof.
  unfold sendHeaders. apply ordered_request.
  destruct (negb apr_table_make_ok).
  - apply (ordered_weaken 2 2 2 3); try lia. apply ordered_ret.
  - destruct (header_buffer_defined r b) as [buffer ->].
    apply (ordered_bind 2 3 3); try lia.
    + apply (ordered_session_do (S_sendHeaders buffer)).
    + intros _. apply ordered_ret.
Qed.

Lemma ordered_forward_request (expecting : bool)
  (uploadData : option string) :
  ordered r mp 0 7 (forward_request expecting uploadData).
Proof.
  unfold forward_request. apply ordered_request.
  apply (ordered_bind 0 1 7); try lia;
    [apply (ordered_session_do (S_setReaderTimeout _))|intros _].
  apply (ordered_bind 1 2 7); try lia;
    [apply (ordered_session_do (S_setWriterTimeout _))|intros _].
  apply (ordered_read 2 7 _ (baseURI mp));
    [now apply getBaseURI_serves|].
  destruct Hmapper as (_ & [b ->] & _).
  apply (ordered_bind 2 3 7); try lia;
    [apply ordered_sendHeaders|intros _].
  apply (ordered_bind 3 3 7); try lia.
  { destruct expecting; [|apply ordered_ret].
    destruct uploadData as [file|].
    - apply ordered_send_file_blocks.
    - apply ordered_sendRequestBody. }
  intros _.
  apply (ordered_bind 3 5 7); try lia.
  { apply (ordered_weaken 4 3 5 5); try lia.
    apply (ordered_session_do S_shutdownWriter). }
  intros _.
  apply (ordered_bind 5 6 7); try lia;
    [apply (ordered_session_do S_getStream)|intros _].
  apply ordered_log; [lia|reflexivity|].
  apply ordered_log; [lia|reflexivity|].
  apply (ordered_bind 6 7 7); try lia;
    [apply (ordered_session_do S_discardStream)|intros _].
  apply ordered_ret.
Qed.

Lemma ordered_serve_request : ordered r mp 0 7 serve_request.
Proof.
  unfold serve_request. apply ordered_request. cbv zeta.
  apply (ordered_bind 0 0 7); try lia.
  { apply ordered_silent. apply safe_accelerate_upload.
    - intros _. now intros [].
    - contradiction. }
  intros uploadData.
  apply (ordered_bind 0 0 7); try lia.
  { apply ordered_silent. apply safe_acquire_session;
      try (now intros []); exact Hmapper. }
  intros [status|pid].
  - apply (ordered_weaken 0 0 0 7); try lia. apply ordered_ret.
  - apply ordered_forward_request.
Qed.

End Exchange.

Section ExchangeOrder.

Context {host : Host}.

(** X28.  The calls that [handleRequest] makes on a session follow the
    order of the exchange: the two timeouts, the headers, the blocks of
    the body, [shutdownWriter], [getStream], [discardStream]; each call
    but [sendBodyBlock] is made at most once and none is made after a
    call that comes later in the exchange, whatever call fails. *)
Theorem session_exchange_in_order (r : request_rec) :
  in_order 0 (session_calls (st_trace (snd (handleRequest (initial r)))))
  = true.
Proof.
  assert (Hfs : forall l, forallb is_filesystem l = true ->
                  session_calls l = []).
  { intros l Hl. apply session_calls_none. revert Hl.
    apply forallb_impl. now intros []. }
  destruct (handleRequest_stages r)
    as [(_ & H & _)
       |(s1 & dir & _ & Hready & Hs1 & _ &
         [(_ & _ & H)|[(_ & _ & H)|(_ & _ & H)]])].
  - now rewrite (Hfs _ H).
  - now rewrite H, session_calls_app, (Hfs _ Hs1).
  - rewrite H. cbn [snd logged st_trace].
    now rewrite session_calls_app, (Hfs _ Hs1).
  - rewrite H.
    destruct (internal_error_run (logged s1 EvSetupClientBlock)) as [-> _].
    destruct (serves_setup r s1 Hready) as [Hs Hm].
    destruct (ordered_serve_request r (st_mapper s1) Hm _ Hs)
      as (_ & evs & -> & Horder & _).
    cbn [logged st_trace].
    now rewrite !session_calls_app, (Hfs _ Hs1).
Qed.

End ExchangeOrder.
